(** * Billing core of the Lyvio platform: webhook ledger, reconciliation,
      recurring scheduler and discount campaigns.

    Shallow embedding of
      - [subscriptions/models.py]        (DiscountCampaign, Subscription,
                                          Invoice, WebhookEvent),
      - [subscriptions/wompi_service.py] (verify_signature,
                                          _compute_response_checksum),
      - [subscriptions/views.py]         (notify_account_reactivation,
                                          wompi_webhook,
                                          process_recurring_payments,
                                          retry_payment).

    Conventions.
      - A timestamp is a number of seconds ([Z]); [timedelta(days=n)] is
        [n * 86400] seconds.
      - A [DecimalField] value is a rational ([Q]); with the declared digit
        bounds Python's [Decimal] arithmetic on these values is exact.
      - A table is the list of its rows in the order in which the model's
        default ordering returns them, so [QuerySet.first()] is the head of
        the filtered list.
      - Python exceptions are the [Raised] outcome of a small state-and-error
        monad over the database; a row written before the exception stays
        written (the views run in autocommit mode: no [atomic] block and no
        [ATOMIC_REQUESTS] setting). *)

From Stdlib Require Import ZArith QArith Qminmax List String Ascii Bool Lia.
From Stdlib Require Import DecimalString DecimalPos Lqa.
Import ListNotations.

Local Open Scope string_scope.
Local Open Scope Z_scope.

(* ================================================================== *)
(** ** Python string helpers used by the views *)
(* ================================================================== *)

Module Py.

(** [needle in hay] on [str]. *)
Fixpoint contains (needle hay : string) : bool :=
  if String.prefix needle hay then true
  else match hay with
       | EmptyString => false
       | String _ rest => contains needle rest
       end.

(** [s.split(sep)] for a one-character separator: always at least one
    part, empty parts kept. *)
Fixpoint split (sep : ascii) (s : string) : list string :=
  match s with
  | EmptyString => [EmptyString]
  | String c rest =>
      if Ascii.eqb c sep then EmptyString :: split sep rest
      else match split sep rest with
           | [] => [String c EmptyString]
           | p :: ps => String c p :: ps
           end
  end.

(** Whitespace stripped by [int()]: tab, LF, VT, FF, CR, FS, GS, RS, US
    and space (the ASCII part of [str.isspace]). *)
Definition is_space (c : ascii) : bool :=
  let n := N_of_ascii c in
  ((9 <=? n) && (n <=? 13) || (28 <=? n) && (n <=? 32))%N.

Definition digit_of (c : ascii) : option Z :=
  let n := N_of_ascii c in
  if ((48 <=? n) && (n <=? 57))%N then Some (Z.of_N n - 48) else None.

Fixpoint lstrip (s : string) : string :=
  match s with
  | String c rest => if is_space c then lstrip rest else s
  | EmptyString => EmptyString
  end.

(** Drops trailing whitespace: the characters are scanned from the right. *)
Fixpoint rstrip (s : string) : string :=
  match s with
  | EmptyString => EmptyString
  | String c rest =>
      match rstrip rest with
      | EmptyString => if is_space c then EmptyString else String c EmptyString
      | r => String c r
      end
  end.

(** Digits of a decimal literal with optional single underscores between
    digits; [prev_digit] tells whether the previous character was a
    digit (an underscore is only legal there and must be followed by a
    digit). *)
Fixpoint digits (acc : Z) (prev_digit : bool) (s : string) : option Z :=
  match s with
  | EmptyString => if prev_digit then Some acc else None
  | String c rest =>
      match digit_of c with
      | Some d => digits (10 * acc + d) true rest
      | None =>
          if Ascii.eqb c "_"%char && prev_digit then
            match rest with
            | String c' _ =>
                match digit_of c' with
                | Some _ => digits acc false rest
                | None => None
                end
            | EmptyString => None
            end
          else None
      end
  end.

(** [int(s)] on an ASCII [str]; [None] stands for [ValueError]. *)
Definition int (s : string) : option Z :=
  match rstrip (lstrip s) with
  | String "+"%char body => digits 0 false body
  | String "-"%char body => option_map Z.opp (digits 0 false body)
  | body => digits 0 false body
  end.

(** [str(n)] of an integer, as an f-string formats it. *)
Definition str (n : Z) : string := NilZero.string_of_int (Z.to_int n).

(** Truth value of an optional [str] ([None] and [""] are falsy). *)
Definition truthy (s : option string) : bool :=
  match s with
  | Some (String _ _) => true
  | _ => false
  end.

(** [parts[i]] ([IndexError] is [None]). *)
Definition item (parts : list string) (i : nat) : option string :=
  nth_error parts i.

End Py.

(** [timedelta(days=n)], [timedelta(minutes=n)], [timedelta(hours=n)]. *)
Definition days (n : Z) : Z := n * 86400.
Definition minutes (n : Z) : Z := n * 60.
Definition hours (n : Z) : Z := n * 3600.

(* ================================================================== *)
(** ** subscriptions/models.py *)
(* ================================================================== *)

Module DiscountCampaign.

Inductive discount_type_t := percentage | fixed.

Record t := {
  discount_type : discount_type_t;
  discount_value : Q
}.

(** Python's [min(a, b)]: the first argument unless the second is
    strictly smaller. *)
Definition py_min (a b : Q) : Q :=
  if Qle_bool a b then a else b.

(** [DiscountCampaign.calculate_discount]. *)
Definition calculate_discount (self : t) (original_price : Q) : Q :=
  match discount_type self with
  | percentage => original_price * (discount_value self / 100)
  | fixed => py_min (discount_value self) original_price
  end.

End DiscountCampaign.

Module Plan.
Record t := {
  id : Z;
  name : string;
  price_monthly : Q;
  price_yearly : Q
}.
End Plan.

Module Company.
Record t := {
  id : Z;
  name : string;
  chatwoot_account_id : option Z
}.
End Company.

Module User.
Record t := {
  id : Z;
  company : option Z
}.
End User.

Module Subscription.

(** [STATUS_CHOICES] *)
Inductive status_t :=
  trial | active | pending | suspended | past_due | cancelled | expired.

(** [BILLING_CYCLES] *)
Inductive billing_cycle_t := monthly | yearly.

(** [company] and [plan] hold the primary key of the row they refer to.
    [payment_source_id] is a [CharField(blank=True)]: the column is NOT
    NULL and defaults to the empty string; [None] only exists on an
    object in memory. *)
Record t := {
  id : Z;
  company : Z;
  plan : Z;
  status : status_t;
  billing_cycle : billing_cycle_t;
  current_period_start : Z;
  current_period_end : Z;
  wompi_subscription_id : string;
  wompi_customer_email : string;
  payment_source_id : option string;
  created_at : Z
}.

Definition status_eqb (a b : status_t) : bool :=
  match a, b with
  | trial, trial | active, active | pending, pending
  | suspended, suspended | past_due, past_due
  | cancelled, cancelled | expired, expired => true
  | _, _ => false
  end.

Definition set_status (v : status_t) (s : t) : t :=
  {| id := id s; company := company s; plan := plan s; status := v;
     billing_cycle := billing_cycle s;
     current_period_start := current_period_start s;
     current_period_end := current_period_end s;
     wompi_subscription_id := wompi_subscription_id s;
     wompi_customer_email := wompi_customer_email s;
     payment_source_id := payment_source_id s;
     created_at := created_at s |}.

Definition set_period (start_ end_ : Z) (s : t) : t :=
  {| id := id s; company := company s; plan := plan s; status := status s;
     billing_cycle := billing_cycle s;
     current_period_start := start_;
     current_period_end := end_;
     wompi_subscription_id := wompi_subscription_id s;
     wompi_customer_email := wompi_customer_email s;
     payment_source_id := payment_source_id s;
     created_at := created_at s |}.

Definition set_wompi_subscription_id (v : string) (s : t) : t :=
  {| id := id s; company := company s; plan := plan s; status := status s;
     billing_cycle := billing_cycle s;
     current_period_start := current_period_start s;
     current_period_end := current_period_end s;
     wompi_subscription_id := v;
     wompi_customer_email := wompi_customer_email s;
     payment_source_id := payment_source_id s;
     created_at := created_at s |}.

End Subscription.

Module Invoice.

Inductive status_t := pending | paid | failed | voided.

Record t := {
  id : Z;
  subscription : Z;
  amount : Q;
  status : status_t;
  wompi_transaction_id : string;
  wompi_reference : string;
  paid_at : option Z
}.

End Invoice.

(** The webhook body after [json.loads]: the keys the view reads.  A key
    that is absent is [None]; the values are strings (integers for
    [amount_in_cents]). *)
Module Transaction.
Record t := {
  id : option string;
  status : option string;
  reference : option string;
  amount_in_cents : option Z;
  payment_source_id : option string;
  customer_email : option string
}.
(** [event_data.get('data', {}).get('transaction', {})] when a key is
    missing. *)
Definition empty : t :=
  {| id := None; status := None; reference := None;
     amount_in_cents := None; payment_source_id := None;
     customer_email := None |}.
End Transaction.

Module EventData.
Record t := {
  id : option string;
  event : option string;
  transaction : Transaction.t
}.
End EventData.

Module WebhookEvent.

Inductive status_t :=
  received | processing | processed | failed | duplicate | invalid_signature.

(** The audit columns [ip_address] and [user_agent] are left out: the
    view only copies them from the request. *)
Record t := {
  id : Z;
  event_id : string;
  event_type : string;
  transaction_id : string;
  payload : EventData.t;
  signature : string;
  status : status_t;
  error_message : string;
  subscription : option Z;
  invoice : option Z;
  processed_at : option Z
}.

Definition with_fields (st : status_t) (err : string)
    (sub inv : option Z) (at_ : option Z) (w : t) : t :=
  {| id := id w; event_id := event_id w; event_type := event_type w;
     transaction_id := transaction_id w; payload := payload w;
     signature := signature w; status := st; error_message := err;
     subscription := sub; invoice := inv; processed_at := at_ |}.

End WebhookEvent.

(* ================================================================== *)
(** ** The database and the effect monad of a request handler *)
(* ================================================================== *)

Inductive exn :=
| JSONDecodeError | IntegrityError | DataError | ValueError | IndexError
| KeyError | UnboundLocalError | DoesNotExist | RequestError.

Inductive outcome (A : Type) :=
| Ok (a : A)
| Raised (e : exn).
Arguments Ok {A} a.
Arguments Raised {A} e.

(** The arguments of a charge sent to the gateway
    ([WompiService.create_recurring_transaction] and
    [WompiService.create_transaction]).  [amount] is the amount the view
    computed from the plan; its conversion to cents is done in floating
    point by the caller and is not part of the model. *)
Module Charge.
Record t := {
  payment_source_id : option string;
  amount : Q;
  customer_email : string;
  reference : string
}.
End Charge.

(** The transaction object the gateway answers with: the two keys the
    views read. *)
Module GatewayTx.
Record t := {
  id : option string;
  status : option string
}.
End GatewayTx.

(** The tables the billing views touch, plus the traces of the outbound
    calls: the PATCH calls made to the provisioning service (the Chatwoot
    account ids) and the charges sent to the gateway, most recent first. *)
Record World := {
  subscriptions : list Subscription.t;
  invoices : list Invoice.t;
  webhook_events : list WebhookEvent.t;
  users : list User.t;
  companies : list Company.t;
  plans : list Plan.t;
  chatwoot_calls : list Z;
  charges : list Charge.t
}.

Definition with_subscriptions (v : list Subscription.t) (w : World) : World :=
  {| subscriptions := v; invoices := invoices w;
     webhook_events := webhook_events w; users := users w;
     companies := companies w; plans := plans w;
     chatwoot_calls := chatwoot_calls w; charges := charges w |}.

Definition with_invoices (v : list Invoice.t) (w : World) : World :=
  {| subscriptions := subscriptions w; invoices := v;
     webhook_events := webhook_events w; users := users w;
     companies := companies w; plans := plans w;
     chatwoot_calls := chatwoot_calls w; charges := charges w |}.

Definition with_webhook_events (v : list WebhookEvent.t) (w : World) : World :=
  {| subscriptions := subscriptions w; invoices := invoices w;
     webhook_events := v; users := users w;
     companies := companies w; plans := plans w;
     chatwoot_calls := chatwoot_calls w; charges := charges w |}.

Definition with_chatwoot_calls (v : list Z) (w : World) : World :=
  {| subscriptions := subscriptions w; invoices := invoices w;
     webhook_events := webhook_events w; users := users w;
     companies := companies w; plans := plans w;
     chatwoot_calls := v; charges := charges w |}.

Definition with_charges (v : list Charge.t) (w : World) : World :=
  {| subscriptions := subscriptions w; invoices := invoices w;
     webhook_events := webhook_events w; users := users w;
     companies := companies w; plans := plans w;
     chatwoot_calls := chatwoot_calls w; charges := v |}.

(** What a handler reads from outside the database: the clock
    ([timezone.now()], read once per request) and [int(time.time())], the
    webhook secret and digest of [WompiService], the answer of the
    provisioning service to a PATCH on an account ([None]: the request
    raised; otherwise the HTTP status code), and the answers of the
    gateway: [create_recurring_transaction] raises on any failure,
    [create_transaction] and [get_transaction] return [None] on a request
    failure ([get_transaction] is asked once per polling attempt). *)
Record Env := {
  now : Z;
  time : Z;
  sha256 : string -> string;
  events_secret : string;
  chatwoot_patch : Z -> option Z;
  create_recurring_transaction : Charge.t -> outcome GatewayTx.t;
  create_transaction : Charge.t -> option GatewayTx.t;
  get_transaction : string -> nat -> option GatewayTx.t
}.

Definition M (A : Type) : Type := World -> outcome A * World.

Definition ret {A} (a : A) : M A := fun w => (Ok a, w).

Definition bind {A B} (m : M A) (k : A -> M B) : M B :=
  fun w => match m w with
           | (Ok a, w') => k a w'
           | (Raised e, w') => (Raised e, w')
           end.

Definition raise {A} (e : exn) : M A := fun w => (Raised e, w).

(** [try: m except <classes accepted by handles>: h] *)
Definition try_except {A} (m : M A) (handles : exn -> bool) (h : exn -> M A)
  : M A :=
  fun w => match m w with
           | (Raised e, w') => if handles e then h e w' else (Raised e, w')
           | r => r
           end.

Definition read {A} (f : World -> A) : M A := fun w => (Ok (f w), w).
Definition write (f : World -> World) : M unit := fun w => (Ok tt, f w).

Declare Scope monad_scope.
Delimit Scope monad_scope with monad.
Notation "x <- c1 ;; c2" := (bind c1 (fun x => c2))
  (at level 61, c1 at next level, right associativity) : monad_scope.
Notation "c1 ;;; c2" := (bind c1 (fun _ => c2))
  (at level 61, right associativity) : monad_scope.
Local Open Scope monad_scope.

(** *** Column constraints declared in models.py *)

(** [CharField(max_length=n)] *)
Definition fits (n : nat) (s : string) : bool := (String.length s <=? n)%nat.

Definition next_id (ids : list Z) : Z := 1 + fold_right Z.max 0 ids.

Module Subscriptions.

(** [Subscription.objects.filter(...).first()]; the model's ordering is
    [-created_at], which is the order of the table. *)
Definition first (p : Subscription.t -> bool) : M (option Subscription.t) :=
  read (fun w => find p (subscriptions w)).

Definition replace (s r : Subscription.t) : Subscription.t :=
  if Subscription.id r =? Subscription.id s then s else r.

(** [subscription.save()] of a stored row: every column is written. *)
Definition save (s : Subscription.t) : M unit :=
  match Subscription.payment_source_id s with
  | None => raise IntegrityError
  | Some src =>
      if fits 255 (Subscription.wompi_subscription_id s) && fits 255 src
      then write (fun w =>
             with_subscriptions (map (replace s) (subscriptions w)) w)
      else raise DataError
  end.

End Subscriptions.

Module Invoices.

Definition by_transaction_id (transaction_id : option string)
    (i : Invoice.t) : bool :=
  match transaction_id with
  | Some t => String.eqb (Invoice.wompi_transaction_id i) t
  | None => false
  end.

(** [Invoice.objects.filter(wompi_transaction_id=transaction_id).first()] *)
Definition first_by_transaction_id (transaction_id : option string)
  : M (option Invoice.t) :=
  read (fun w => find (by_transaction_id transaction_id) (invoices w)).

(** [amount] is [DecimalField(max_digits=10, decimal_places=2)]. *)
Definition amount_fits (cents : Z) : bool := Z.abs cents <? 10 ^ 10.

(** [Invoice.objects.create(subscription=..., amount=..., status='paid',
    paid_at=timezone.now(), wompi_transaction_id=..., wompi_reference=...)].
    [amount_cents] is the amount in hundredths; [None] is the Python
    [None].  The three columns are NOT NULL, [wompi_transaction_id] is
    unique. *)
Definition create_paid (env : Env) (subscription : Subscription.t)
    (amount_cents : option Z) (transaction_id reference : option string)
  : M Invoice.t :=
  match amount_cents, transaction_id, reference with
  | Some cents, Some tid, Some ref =>
      if negb (amount_fits cents && fits 255 tid && fits 255 ref)
      then raise DataError
      else
        existing <- first_by_transaction_id (Some tid) ;;
        match existing with
        | Some _ => raise IntegrityError
        | None =>
            rows <- read invoices ;;
            let inv :=
              {| Invoice.id := next_id (map Invoice.id rows);
                 Invoice.subscription := Subscription.id subscription;
                 Invoice.amount := cents # 100;
                 Invoice.status := Invoice.paid;
                 Invoice.wompi_transaction_id := tid;
                 Invoice.wompi_reference := ref;
                 Invoice.paid_at := Some (now env) |} in
            write (with_invoices (inv :: rows)) ;;;
            ret inv
        end
  | _, _, _ => raise IntegrityError
  end.

End Invoices.

Module WebhookEvents.

Definition by_event_id (event_id : string) (e : WebhookEvent.t) : bool :=
  String.eqb (WebhookEvent.event_id e) event_id.

(** [WebhookEvent.objects.filter(event_id=event_id).first()] *)
Definition first_by_event_id (event_id : string)
  : M (option WebhookEvent.t) :=
  read (fun w => find (by_event_id event_id) (webhook_events w)).

(** [WebhookEvent.objects.create(...)]: [event_id] is unique; [event_id],
    [event_type] and [transaction_id] are NOT NULL. *)
Definition create (event_id event_type transaction_id : option string)
    (payload : EventData.t) (signature : string)
    (status : WebhookEvent.status_t) : M WebhookEvent.t :=
  match event_id, event_type, transaction_id with
  | Some eid, Some ety, Some tid =>
      if negb (fits 255 eid && fits 50 ety && fits 255 tid
               && fits 255 signature)
      then raise DataError
      else
        existing <- first_by_event_id eid ;;
        match existing with
        | Some _ => raise IntegrityError
        | None =>
            rows <- read webhook_events ;;
            let e :=
              {| WebhookEvent.id := next_id (map WebhookEvent.id rows);
                 WebhookEvent.event_id := eid;
                 WebhookEvent.event_type := ety;
                 WebhookEvent.transaction_id := tid;
                 WebhookEvent.payload := payload;
                 WebhookEvent.signature := signature;
                 WebhookEvent.status := status;
                 WebhookEvent.error_message := "";
                 WebhookEvent.subscription := None;
                 WebhookEvent.invoice := None;
                 WebhookEvent.processed_at := None |} in
            write (with_webhook_events (e :: rows)) ;;;
            ret e
        end
  | _, _, _ => raise IntegrityError
  end.

Definition replace (e r : WebhookEvent.t) : WebhookEvent.t :=
  if WebhookEvent.id r =? WebhookEvent.id e then e else r.

(** [self.save(update_fields=[...])]: the written columns are among
    those [with_fields] changes; the others are as stored. *)
Definition save (e : WebhookEvent.t) : M unit :=
  write (fun w => with_webhook_events (map (replace e) (webhook_events w)) w).

(** [WebhookEvent.mark_as_processing] *)
Definition mark_as_processing (self : WebhookEvent.t) : M WebhookEvent.t :=
  let self' :=
    WebhookEvent.with_fields WebhookEvent.processing
      (WebhookEvent.error_message self) (WebhookEvent.subscription self)
      (WebhookEvent.invoice self) (WebhookEvent.processed_at self) self in
  save self' ;;; ret self'.

(** [WebhookEvent.mark_as_processed]: [if subscription:] and
    [if invoice:] keep the stored reference when the argument is [None]. *)
Definition mark_as_processed (env : Env) (self : WebhookEvent.t)
    (subscription : option Subscription.t) (invoice : option Invoice.t)
  : M WebhookEvent.t :=
  let sub := match subscription with
             | Some s => Some (Subscription.id s)
             | None => WebhookEvent.subscription self
             end in
  let inv := match invoice with
             | Some i => Some (Invoice.id i)
             | None => WebhookEvent.invoice self
             end in
  let self' :=
    WebhookEvent.with_fields WebhookEvent.processed
      (WebhookEvent.error_message self) sub inv (Some (now env)) self in
  save self' ;;; ret self'.

(** [WebhookEvent.mark_as_failed] *)
Definition mark_as_failed (env : Env) (self : WebhookEvent.t)
    (error_message : string) : M WebhookEvent.t :=
  let self' :=
    WebhookEvent.with_fields WebhookEvent.failed error_message
      (WebhookEvent.subscription self) (WebhookEvent.invoice self)
      (Some (now env)) self in
  save self' ;;; ret self'.

(** [WebhookEvent.mark_as_duplicate] *)
Definition mark_as_duplicate (env : Env) (self : WebhookEvent.t)
  : M WebhookEvent.t :=
  let self' :=
    WebhookEvent.with_fields WebhookEvent.duplicate
      (WebhookEvent.error_message self) (WebhookEvent.subscription self)
      (WebhookEvent.invoice self) (Some (now env)) self in
  save self' ;;; ret self'.

(** [WebhookEvent.mark_as_invalid_signature] (the message is written
    without its accent). *)
Definition mark_as_invalid_signature (env : Env) (self : WebhookEvent.t)
  : M WebhookEvent.t :=
  let self' :=
    WebhookEvent.with_fields WebhookEvent.invalid_signature
      "Firma X-Event-Checksum invalida"
      (WebhookEvent.subscription self) (WebhookEvent.invoice self)
      (Some (now env)) self in
  save self' ;;; ret self'.

End WebhookEvents.

(* ================================================================== *)
(** ** subscriptions/wompi_service.py *)
(* ================================================================== *)

Module WompiService.

(** [WompiService.verify_signature]: the hex digest of the body followed
    by the events secret, compared with the received checksum. *)
Definition verify_signature (env : Env) (request_body signature : string)
  : bool :=
  let string_to_hash := request_body ++ events_secret env in
  let computed_signature := sha256 env string_to_hash in
  String.eqb computed_signature signature.

(** [WompiService._compute_response_checksum] *)
Definition _compute_response_checksum (env : Env) (event_checksum : string)
  : string :=
  sha256 env (event_checksum ++ events_secret env).

End WompiService.

(* ================================================================== *)
(** ** subscriptions/views.py *)
(* ================================================================== *)

Inductive HttpResponse :=
| TextResponse (content : string) (status : Z)
  (** [HttpResponse(content, status=...)] *)
| ChecksumResponse (checksum : string) (status : Z)
  (** [JsonResponse({'signature': {'checksum': checksum}}, status=...)] *)
| HttpResponseRedirect (target : string).
  (** [redirect(target)] *)

Definition status_code (r : HttpResponse) : Z :=
  match r with
  | TextResponse _ st => st
  | ChecksumResponse _ st => st
  | HttpResponseRedirect _ => 302
  end.

(** The part of the request the webhook view reads: [request.method],
    [request.body], the result of [json.loads(request.body)] ([None] when
    it raises) and [request.META.get('HTTP_X_EVENT_CHECKSUM')]. *)
Record Request := {
  method : string;
  body : string;
  event_data : option EventData.t;
  x_event_checksum : option string
}.

Definition str_exn (e : exn) : string :=
  match e with
  | JSONDecodeError => "JSONDecodeError"
  | IntegrityError => "IntegrityError"
  | DataError => "DataError"
  | ValueError => "ValueError"
  | IndexError => "IndexError"
  | KeyError => "KeyError"
  | UnboundLocalError => "UnboundLocalError"
  | DoesNotExist => "DoesNotExist"
  | RequestError => "RequestException"
  end.

Definition any_exception (_ : exn) : bool := true.

Definition value_or_index_error (e : exn) : bool :=
  match e with
  | ValueError | IndexError => true
  | _ => false
  end.

(** [subscription.company]: the row behind the foreign key. *)
Definition company_of (s : Subscription.t) : M Company.t :=
  found <- read (fun w =>
    find (fun c => Company.id c =? Subscription.company s) (companies w)) ;;
  match found with
  | Some c => ret c
  | None => raise DoesNotExist
  end.

(** [notify_account_reactivation]: [False] without any call when the
    company has no Chatwoot account id; otherwise one PATCH, and [True]
    only for a 200 or 201 answer (every exception is turned into
    [False]). *)
Definition notify_account_reactivation (env : Env) (company : Company.t)
  : M bool :=
  match Company.chatwoot_account_id company with
  | None | Some 0 => ret false
  | Some account_id =>
      write (fun w =>
        with_chatwoot_calls (account_id :: chatwoot_calls w) w) ;;;
      match chatwoot_patch env account_id with
      | Some code => ret ((code =? 200) || (code =? 201))
      | None => ret false
      end
  end.

(** The block repeated in the views after an approved renewal:
[[
    if subscription.billing_cycle == 'yearly':
        new_period_start = subscription.current_period_end
        new_period_end = new_period_start + timedelta(days=365)
    else:
        new_period_start = subscription.current_period_end
        new_period_end = new_period_start + timedelta(days=30)
    subscription.current_period_start = new_period_start
    subscription.current_period_end = new_period_end
]] *)
Definition extend_period (subscription : Subscription.t) : Subscription.t :=
  let new_period_start := Subscription.current_period_end subscription in
  let new_period_end :=
    match Subscription.billing_cycle subscription with
    | Subscription.yearly => new_period_start + days 365
    | Subscription.monthly => new_period_start + days 30
    end in
  Subscription.set_period new_period_start new_period_end subscription.

(** [reference and needle in reference] *)
Definition reference_has (needle : string) (reference : option string) : bool :=
  match reference with
  | Some r => Py.truthy reference && Py.contains needle r
  | None => false
  end.

(** [int(reference.split('-')[2])] guarded by [len(parts) >= 3]; [None]
    when the guard fails or [int] raises [ValueError]. *)
Definition subscription_id_of_reference (reference : string) : option Z :=
  let parts := Py.split "-" reference in
  if (3 <=? List.length parts)%nat then
    match Py.item parts 2 with
    | Some p => Py.int p
    | None => None
    end
  else None.

(** [Decimal(transaction_amount_cents / 100) if transaction_amount_cents
    else None] with [transaction_amount_cents =
    transaction_data.get('amount_in_cents', 0)], in hundredths. *)
Definition transaction_amount (tx : Transaction.t) : option Z :=
  match Transaction.amount_in_cents tx with
  | None | Some 0 => None
  | Some cents => Some cents
  end.

Definition opt_string_eqb (a : option string) (b : string) : bool :=
  match a with
  | Some x => String.eqb x b
  | None => false
  end.

Section Reconciliation.

Variable env : Env.
Variable tx : Transaction.t.

Let transaction_id := Transaction.id tx.
Let reference := Transaction.reference tx.

(** [if subscription.status == 'pending': subscription.status = 'active';
    subscription.save()] *)
Definition activate_pending (subscription : Subscription.t)
  : M Subscription.t :=
  if Subscription.status_eqb (Subscription.status subscription)
       Subscription.pending
  then
    let s := Subscription.set_status Subscription.active subscription in
    Subscriptions.save s ;;; ret s
  else ret subscription.

(** Strategy 1: [Subscription.objects.filter(wompi_subscription_id=
    transaction_id).first()]. *)
Definition by_wompi_subscription_id : M (option Subscription.t) :=
  Subscriptions.first
    (fun s => opt_string_eqb transaction_id
                (Subscription.wompi_subscription_id s)).

(** Strategy 2: the subscription id carried by a [LYVIO-REC-] or
    [LYVIO-RETRY-] reference.  Primary keys are compared as integers: an
    id outside the range of the column matches no row. *)
Definition by_recurring_reference : M (option Subscription.t) :=
  match reference with
  | Some r =>
      if Py.truthy reference
         && (Py.contains "LYVIO-REC-" r || Py.contains "LYVIO-RETRY-" r)
      then
        match subscription_id_of_reference r with
        | Some subscription_id =>
            Subscriptions.first
              (fun s => Subscription.id s =? subscription_id)
        | None => ret None
        end
      else ret None
  | None => ret None
  end.

(** The body of [if subscription:] after strategies 1 and 2. *)
Definition settle_found (subscription : Subscription.t) : M unit :=
  subscription <- activate_pending subscription ;;
  existing_invoice <- Invoices.first_by_transaction_id transaction_id ;;
  match existing_invoice with
  | Some _ => ret tt
  | None =>
      Invoices.create_paid env subscription (transaction_amount tx)
        transaction_id reference ;;;
      let is_recurring := reference_has "LYVIO-REC-" reference in
      let is_retry := reference_has "LYVIO-RETRY-" reference in
      if is_retry then
        let was_suspended :=
          Subscription.status_eqb (Subscription.status subscription)
            Subscription.suspended in
        subscription <-
          (if was_suspended then
             let s := Subscription.set_status Subscription.active
                        subscription in
             Subscriptions.save s ;;;
             company <- company_of s ;;
             notify_account_reactivation env company ;;;
             ret s
           else ret subscription) ;;
        Subscriptions.save (extend_period subscription)
      else if is_recurring then
        Subscriptions.save (extend_period subscription)
      else ret tt
  end.

(** The invoice step shared by the three alternative strategies: create
    the invoice unless one exists, and extend the period only for a
    [LYVIO-REC-] reference. *)
Definition invoice_and_extend (subscription : Subscription.t) : M unit :=
  existing_invoice <- Invoices.first_by_transaction_id transaction_id ;;
  match existing_invoice with
  | Some _ => ret tt
  | None =>
      Invoices.create_paid env subscription (transaction_amount tx)
        transaction_id reference ;;;
      let is_recurring := reference_has "LYVIO-REC-" reference in
      if is_recurring then Subscriptions.save (extend_period subscription)
      else ret tt
  end.

(** "Estrategia 2": the payment source id of the payload. *)
Definition by_payment_source : M (option Subscription.t) :=
  let payment_source_id := Transaction.payment_source_id tx in
  if Py.truthy payment_source_id then
    Subscriptions.first
      (fun s => match Subscription.payment_source_id s, payment_source_id with
                | Some a, Some b => String.eqb a b
                | _, _ => false
                end)
  else ret None.

Definition settle_payment_source (subscription : Subscription.t)
  : M unit :=
  subscription <- activate_pending subscription ;;
  invoice_and_extend subscription.

(** "Estrategia 3A": the customer email among the subscriptions created
    in the last five minutes, most recent first. *)
Definition by_customer_email : M (option Subscription.t) :=
  let customer_email := Transaction.customer_email tx in
  match customer_email with
  | Some email =>
      if Py.truthy customer_email then
        Subscriptions.first
          (fun s => String.eqb (Subscription.wompi_customer_email s) email
                    && (now env - minutes 5 <=? Subscription.created_at s))
      else ret None
  | None => ret None
  end.

(** [subscription.wompi_subscription_id = transaction_id], the
    activation of a pending subscription, one [save()], then the invoice
    step (strategies 3A and 3B). *)
Definition settle_relinked (subscription : Subscription.t) : M unit :=
  match transaction_id with
  | None => raise IntegrityError
  | Some tid =>
      let s := Subscription.set_wompi_subscription_id tid subscription in
      let s := if Subscription.status_eqb (Subscription.status s)
                    Subscription.pending
               then Subscription.set_status Subscription.active s
               else s in
      Subscriptions.save s ;;;
      invoice_and_extend s
  end.

(** "Estrategia 3B": a [LYVIO-FIRST-{plan_id}-{user_id}-...] reference,
    among the subscriptions of the user's company and that plan created
    in the last 24 hours. *)
Definition by_first_payment_reference : M (option Subscription.t) :=
  match reference with
  | Some r =>
      if Py.truthy reference then
        let parts := Py.split "-" r in
        if (4 <=? List.length parts)%nat
           && opt_string_eqb (Py.item parts 0) "LYVIO"
           && opt_string_eqb (Py.item parts 1) "FIRST"
        then
          match Py.item parts 2 with
          | None => raise IndexError
          | Some p2 =>
          match Py.int p2 with
          | None => raise ValueError
          | Some plan_id =>
          match Py.item parts 3 with
          | None => raise IndexError
          | Some p3 =>
          match Py.int p3 with
          | None => raise ValueError
          | Some user_id =>
              user <- read (fun w =>
                find (fun u => User.id u =? user_id) (users w)) ;;
              match user with
              | Some {| User.company := Some company |} =>
                  Subscriptions.first
                    (fun s => (Subscription.company s =? company)
                              && (Subscription.plan s =? plan_id)
                              && (now env - hours 24
                                  <=? Subscription.created_at s))
              | _ => ret None
              end
          end end end end
        else ret None
      else ret None
  | None => ret None
  end.

(** The body of the [try] of the [APPROVED] branch. *)
Definition reconcile_approved : M unit :=
  subscription <- by_wompi_subscription_id ;;
  subscription <-
    match subscription with
    | Some s => ret (Some s)
    | None => by_recurring_reference
    end ;;
  match subscription with
  | Some s => settle_found s
  | None =>
      subscription <- by_payment_source ;;
      match subscription with
      | Some s => settle_payment_source s
      | None =>
          subscription <- by_customer_email ;;
          match subscription with
          | Some s => settle_relinked s
          | None =>
              try_except
                (subscription <- by_first_payment_reference ;;
                 match subscription with
                 | Some s => settle_relinked s
                 | None => ret tt
                 end)
                value_or_index_error (fun _ => ret tt)
          end
      end
  end.

End Reconciliation.

(** *** wompi_webhook *)

(** After the ledger step the view either has answered or goes on with
    the local variable [webhook_event], which is unbound ([None]) when the
    stored row is neither processed, duplicate, processing nor failed. *)
Inductive flow :=
| Return (r : HttpResponse)
| Continue (webhook_event : option WebhookEvent.t).

Definition or_default (o : option string) (d : string) : string :=
  match o with
  | Some s => s
  | None => d
  end.

Section Webhook.

Variable env : Env.
Variable request : Request.

(** Section 2 of the view, from the ledger lookup on: idempotency. *)
Definition ledger_step (event_data : EventData.t) (sig eid : string)
  : M flow :=
  let event_id := EventData.id event_data in
  let event_type := EventData.event event_data in
  let transaction_data := EventData.transaction event_data in
  let transaction_id := Transaction.id transaction_data in
  existing_webhook <- WebhookEvents.first_by_event_id eid ;;
  match existing_webhook with
  | Some existing =>
      match WebhookEvent.status existing with
      | WebhookEvent.processed | WebhookEvent.duplicate =>
          WebhookEvents.mark_as_duplicate env existing ;;;
          ret (Return (TextResponse "OK - Already processed" 200))
      | WebhookEvent.processing =>
          ret (Return (TextResponse "OK - Processing" 200))
      | WebhookEvent.failed =>
          webhook_event <- WebhookEvents.mark_as_processing existing ;;
          ret (Continue (Some webhook_event))
      | _ => ret (Continue None)
      end
  | None =>
      webhook_event <-
        WebhookEvents.create event_id event_type transaction_id
          event_data sig WebhookEvent.processing ;;
      ret (Continue (Some webhook_event))
  end.

(** Sections 1 and 2 of the view: signature, then idempotency. *)
Definition ingest (event_data : EventData.t) : M flow :=
  let signature := x_event_checksum request in
  match signature with
  | None => ret (Return (TextResponse "Missing signature" 401))
  | Some sig =>
      if negb (Py.truthy signature)
      then ret (Return (TextResponse "Missing signature" 401))
      else if negb (WompiService.verify_signature env (body request) sig)
      then
        let tx := EventData.transaction event_data in
        webhook_event <-
          WebhookEvents.create
            (Some (or_default (EventData.id event_data)
                     ("invalid-" ++ Py.str (now env))))
            (Some (or_default (EventData.event event_data) "unknown"))
            (Some (or_default (Transaction.id tx) "unknown"))
            event_data sig WebhookEvent.invalid_signature ;;
        WebhookEvents.mark_as_invalid_signature env webhook_event ;;;
        ret (Return (TextResponse "Invalid signature" 403))
      else
        let event_id := EventData.id event_data in
        match event_id with
        | None => ret (Return (TextResponse "Missing event_id" 400))
        | Some eid =>
            if negb (Py.truthy event_id)
            then ret (Return (TextResponse "Missing event_id" 400))
            else ledger_step event_data sig eid
        end
  end.

(** [event_type == 'transaction.updated' and status == 'APPROVED'] *)
Definition is_approved_update (event_data : EventData.t) : bool :=
  opt_string_eqb (EventData.event event_data) "transaction.updated"
  && opt_string_eqb (Transaction.status (EventData.transaction event_data))
       "APPROVED".

(** Section 4: the subscription looked up again for the back-reference. *)
Definition processed_subscription_of (tx : Transaction.t)
  : M (option Subscription.t) :=
  found <- by_wompi_subscription_id tx ;;
  match found, Transaction.reference tx with
  | Some s, _ => ret (Some s)
  | None, Some r =>
      if Py.truthy (Some r)
         && (Py.contains "LYVIO-REC-" r || Py.contains "LYVIO-RENEW-" r)
      then
        match subscription_id_of_reference r with
        | Some subscription_id =>
            Subscriptions.first
              (fun s => Subscription.id s =? subscription_id)
        | None => ret None
        end
      else ret None
  | None, None => ret None
  end.

Definition response_checksum : string :=
  WompiService._compute_response_checksum env
    (or_default (x_event_checksum request) "").

(** Sections 3, 4 and 5. *)
Definition process (event_data : EventData.t)
    (webhook_event : option WebhookEvent.t) : M HttpResponse :=
  let tx := EventData.transaction event_data in
  (if is_approved_update event_data
   then try_except (reconcile_approved env tx) any_exception
          (fun _ => ret tt)
   else ret tt) ;;;
  processed_subscription <-
    (if is_approved_update event_data
     then processed_subscription_of tx else ret None) ;;
  processed_invoice <-
    (if is_approved_update event_data
     then Invoices.first_by_transaction_id (Transaction.id tx)
     else ret None) ;;
  match webhook_event with
  | Some e =>
      WebhookEvents.mark_as_processed env e processed_subscription
        processed_invoice
  | None => raise UnboundLocalError
  end ;;;
  ret (ChecksumResponse response_checksum 200).

(** The outer [except Exception]. *)
Definition on_error (webhook_event : option WebhookEvent.t) (e : exn)
  : M HttpResponse :=
  try_except
    match webhook_event with
    | Some we => WebhookEvents.mark_as_failed env we (str_exn e) ;;; ret tt
    | None => raise UnboundLocalError
    end
    any_exception (fun _ => ret tt) ;;;
  ret (ChecksumResponse response_checksum 500).

(** The view.  The handler of the outer [try] sees the local variable
    [webhook_event] as it is bound when the exception is raised: unbound
    during sections 1 and 2 (an exception there comes from
    [json.loads] or from the insertion of the row), and as the ledger step
    left it afterwards. *)
Definition wompi_webhook : M HttpResponse :=
  if String.eqb (method request) "POST" then
    try_except
      match event_data request with
      | None => raise JSONDecodeError
      | Some event_data =>
          f <- ingest event_data ;;
          match f with
          | Return r => ret r
          | Continue webhook_event =>
              try_except (process event_data webhook_event) any_exception
                (on_error webhook_event)
          end
      end
      any_exception (on_error None)
  else ret (TextResponse "Method not allowed" 405).

End Webhook.

(** *** process_recurring_payments *)

(** [settings.TIME_ZONE = 'America/Bogota'] (UTC-5 all year) with
    [USE_TZ = True]: the [__date] lookup takes the calendar date in that
    zone, while [timezone.now().date()] is the date of the UTC instant. *)
Definition bogota_utc_offset : Z := - hours 5.
Definition date_in_current_timezone (t : Z) : Z :=
  (t + bogota_utc_offset) / 86400.
Definition date_utc (t : Z) : Z := t / 86400.

Definition isnull {A} (o : option A) : bool :=
  match o with
  | Some _ => false
  | None => true
  end.

Module Result.
Inductive status_t := pending | simulated | success | failed | error.

Record t := {
  subscription_id : Z;
  amount : option Q;
  status : status_t;
  transaction_id : option string
}.

Definition status_eqb (a b : status_t) : bool :=
  match a, b with
  | pending, pending | simulated, simulated | success, success
  | failed, failed | error, error => true
  | _, _ => false
  end.
End Result.

Module Summary.
Record t := {
  total_processed : nat;
  successful : nat;
  failed : nat;
  simulated : nat
}.
End Summary.

Inductive SchedulerResponse :=
| SchedulerOk (summary : Summary.t) (results : list Result.t) (dry_run : bool)
| SchedulerError (status : Z).

(** [subscription.plan]: the row behind the foreign key. *)
Definition plan_of (s : Subscription.t) : M Plan.t :=
  found <- read (fun w =>
    find (fun p => Plan.id p =? Subscription.plan s) (plans w)) ;;
  match found with
  | Some p => ret p
  | None => raise DoesNotExist
  end.

(** Truth value of a [Decimal]. *)
Definition decimal_truthy (q : Q) : bool := negb (Qeq_bool q 0).

Section Scheduler.

Variable env : Env.

(** The queryset of the view when no id list is given. *)
Definition due (s : Subscription.t) : bool :=
  Subscription.status_eqb (Subscription.status s) Subscription.active
  && negb (isnull (Subscription.payment_source_id s))
  && (date_in_current_timezone (Subscription.current_period_end s)
      <=? date_utc (now env)).

(** The queryset of the view for an explicit id list. *)
Definition listed (subscription_ids : list Z) (s : Subscription.t) : bool :=
  existsb (Z.eqb (Subscription.id s)) subscription_ids
  && Subscription.status_eqb (Subscription.status s) Subscription.active
  && negb (isnull (Subscription.payment_source_id s)).

Definition subscriptions_to_charge (subscription_ids : list Z)
  : M (list Subscription.t) :=
  match subscription_ids with
  | [] => read (fun w => filter due (subscriptions w))
  | _ => read (fun w => filter (listed subscription_ids) (subscriptions w))
  end.

(** The gateway call, recorded in the trace of charges. *)
Definition call_create_recurring_transaction (c : Charge.t)
  : M GatewayTx.t :=
  write (fun w => with_charges (c :: charges w) w) ;;;
  match create_recurring_transaction env c with
  | Ok t => ret t
  | Raised e => raise e
  end.

(** [d[key]] on the gateway's answer. *)
Definition key {A} (o : option A) : M A :=
  match o with
  | Some v => ret v
  | None => raise KeyError
  end.

Definition in_list (x : option string) (l : list string) : bool :=
  existsb (opt_string_eqb x) l.

(** One iteration of the loop, after [subscription.company.name] and
    [subscription.plan.name] have been read.  The [try] of the source is
    split at the point where [result['transaction_id']] is assigned, so
    that the [except] branch sees the dictionary as the body left it:
    its [status] becomes ['error'] and the keys already filled stay. *)
Definition charge_one (dry_run : bool) (subscription : Subscription.t)
    (plan : Plan.t) : M Result.t :=
  let '(amount, period_days) :=
    match Subscription.billing_cycle subscription with
    | Subscription.yearly =>
        (if decimal_truthy (Plan.price_yearly plan)
         then Plan.price_yearly plan
         else (Plan.price_monthly plan * 12)%Q, 365)
    | Subscription.monthly => (Plan.price_monthly plan, 30)
    end in
  let result (st : Result.status_t) (tid : option string) :=
    {| Result.subscription_id := Subscription.id subscription;
       Result.amount := Some amount;
       Result.status := st;
       Result.transaction_id := tid |} in
  if dry_run then ret (result Result.simulated None)
  else
    let timestamp := time env in
    let reference :=
      "RECURRING-" ++ Py.str (Subscription.id subscription) ++ "-"
      ++ Py.str timestamp in
    try_except
      (transaction_data <-
         call_create_recurring_transaction
           {| Charge.payment_source_id :=
                Subscription.payment_source_id subscription;
              Charge.amount := amount;
              Charge.customer_email :=
                Subscription.wompi_customer_email subscription;
              Charge.reference := reference |} ;;
       transaction_id <- key (GatewayTx.id transaction_data) ;;
       try_except
         (status <- key (GatewayTx.status transaction_data) ;;
          if in_list (Some status) ["APPROVED"; "PENDING"] then
            Subscriptions.save
              (Subscription.set_period (now env)
                 (now env + days period_days) subscription) ;;;
            ret (result Result.success (Some transaction_id))
          else
            Subscriptions.save
              (Subscription.set_status Subscription.past_due
                 subscription) ;;;
            ret (result Result.failed (Some transaction_id)))
         any_exception
         (fun _ => ret (result Result.error (Some transaction_id))))
      any_exception
      (fun _ => ret (result Result.error None)).

(** [for subscription in subscriptions_to_charge: ...] *)
Fixpoint charge_all (dry_run : bool) (to_charge : list Subscription.t)
  : M (list Result.t) :=
  match to_charge with
  | [] => ret []
  | subscription :: rest =>
      company_of subscription ;;;
      plan <- plan_of subscription ;;
      result <- charge_one dry_run subscription plan ;;
      results <- charge_all dry_run rest ;;
      ret (result :: results)
  end.

Definition count (p : Result.t -> bool) (results : list Result.t) : nat :=
  List.length (filter p results).

Definition summarize (results : list Result.t) : Summary.t :=
  {| Summary.total_processed := List.length results;
     Summary.successful :=
       count (fun r => Result.status_eqb (Result.status r) Result.success)
         results;
     Summary.failed :=
       count (fun r => Result.status_eqb (Result.status r) Result.failed
                       || Result.status_eqb (Result.status r) Result.error)
         results;
     Summary.simulated :=
       count (fun r => Result.status_eqb (Result.status r) Result.simulated)
         results |}.

(** [data] is [(subscription_ids, dry_run)] read from the JSON body with
    their defaults, or [None] when [json.loads] raises. *)
Definition process_recurring_payments (method : string)
    (data : option (list Z * bool)) : M SchedulerResponse :=
  if negb (String.eqb method "POST") then ret (SchedulerError 405)
  else
    try_except
      match data with
      | None => raise JSONDecodeError
      | Some (subscription_ids, dry_run) =>
          to_charge <- subscriptions_to_charge subscription_ids ;;
          results <- charge_all dry_run to_charge ;;
          ret (SchedulerOk (summarize results) results dry_run)
      end
      any_exception (fun _ => ret (SchedulerError 500)).

End Scheduler.

(** *** retry_payment *)

Section RetryPayment.

Variable env : Env.

(** [transaction_result.get('data', {}).get('status', 'UNKNOWN')] *)
Definition status_of (t : GatewayTx.t) : string :=
  or_default (GatewayTx.status t) "UNKNOWN".

(** The block run when the charge is seen approved: activate, extend the
    period from its previous end, save, then notify the provisioning
    service. *)
Definition reactivate (company : Company.t) (subscription : Subscription.t)
  : M unit :=
  let s := Subscription.set_status Subscription.active subscription in
  let s := extend_period s in
  Subscriptions.save s ;;;
  notify_account_reactivation env company ;;;
  ret tt.

(** [for attempt in range(1, max_attempts + 1)]: [attempt] counts up,
    [remaining] down. *)
Fixpoint poll (company : Company.t) (subscription : Subscription.t)
    (transaction_id : string) (attempt remaining : nat) : M unit :=
  match remaining with
  | O => ret tt
  | S remaining' =>
      match get_transaction env transaction_id attempt with
      | Some updated_transaction =>
          let updated_status := status_of updated_transaction in
          if String.eqb updated_status "APPROVED" then
            reactivate company subscription
          else if String.eqb updated_status "DECLINED"
                  || String.eqb updated_status "ERROR" then ret tt
          else poll company subscription transaction_id (S attempt)
                 remaining'
      | None =>
          poll company subscription transaction_id (S attempt) remaining'
      end
  end.

(** [company] is [request.user.company] ([None]: no company);
    the [login_required] decorator is outside the model. *)
Definition retry_payment (method : string) (company : option Company.t)
  : M HttpResponse :=
  if negb (String.eqb method "POST")
  then ret (HttpResponseRedirect "dashboard:dashboard")
  else
    try_except
      match company with
      | None => ret (HttpResponseRedirect "dashboard:login")
      | Some company =>
          found <- Subscriptions.first
            (fun s => (Subscription.company s =? Company.id company)
                      && Subscription.status_eqb (Subscription.status s)
                           Subscription.suspended) ;;
          match found with
          | None => ret (HttpResponseRedirect "dashboard:dashboard")
          | Some subscription =>
              if negb (Py.truthy (Subscription.payment_source_id subscription))
              then ret (HttpResponseRedirect "dashboard:dashboard")
              else
                plan <- plan_of subscription ;;
                let amount :=
                  match Subscription.billing_cycle subscription with
                  | Subscription.yearly =>
                      if decimal_truthy (Plan.price_yearly plan)
                      then Plan.price_yearly plan
                      else Plan.price_monthly plan
                  | Subscription.monthly => Plan.price_monthly plan
                  end in
                let reference :=
                  "LYVIO-RETRY-" ++ Py.str (Subscription.id subscription)
                  ++ "-" ++ Py.str (time env) in
                try_except
                  (let charge :=
                     {| Charge.payment_source_id :=
                          Subscription.payment_source_id subscription;
                        Charge.amount := amount;
                        Charge.customer_email :=
                          Subscription.wompi_customer_email subscription;
                        Charge.reference := reference |} in
                   write (fun w => with_charges (charge :: charges w) w) ;;;
                   match create_transaction env charge with
                   | None => ret (HttpResponseRedirect "dashboard:dashboard")
                   | Some transaction_result =>
                       let transaction_status :=
                         status_of transaction_result in
                       let transaction_id :=
                         or_default (GatewayTx.id transaction_result) "" in
                       (if String.eqb transaction_status "APPROVED" then
                          reactivate company subscription
                        else if String.eqb transaction_status "PENDING" then
                          poll company subscription transaction_id 1 3
                        else ret tt) ;;;
                       ret (HttpResponseRedirect "dashboard:dashboard")
                   end)
                  any_exception
                  (fun _ => ret (HttpResponseRedirect "dashboard:dashboard"))
          end
      end
      any_exception (fun _ => ret (HttpResponseRedirect "dashboard:dashboard")).

End RetryPayment.

(* ================================================================== *)
(** ** Statement-level definitions and concrete scenarios *)
(* ================================================================== *)

(** A stored subscription row satisfies the column constraints of its
    table. *)
Definition storable (s : Subscription.t) : Prop :=
  exists src, Subscription.payment_source_id s = Some src
              /\ fits 255 src = true
              /\ fits 255 (Subscription.wompi_subscription_id s) = true.

(** The cycle length the scheduler and the renewal block use. *)
Definition cycle_days (s : Subscription.t) : Z :=
  match Subscription.billing_cycle s with
  | Subscription.yearly => 365
  | Subscription.monthly => 30
  end.

Module Scenario.

(** Stand-in for [hashlib.sha256(...).hexdigest()]: the views only
    compare digests for equality. *)
Definition digest (s : string) : string := "sha256(" ++ s ++ ")".

Definition T : Z := 1700000000.

Definition plan : Plan.t :=
  {| Plan.id := 1; Plan.name := "Starter";
     Plan.price_monthly := 50000; Plan.price_yearly := 500000 |}.

Definition company : Company.t :=
  {| Company.id := 1; Company.name := "Acme";
     Company.chatwoot_account_id := Some 11 |}.

(** Subscription 7 of company 1 on plan 1, monthly, first paid with
    transaction [tx-first]; its period ends at [T]. *)
Definition subscription (status : Subscription.status_t) (period_end : Z)
    (payment_source_id : string) : Subscription.t :=
  {| Subscription.id := 7; Subscription.company := 1;
     Subscription.plan := 1; Subscription.status := status;
     Subscription.billing_cycle := Subscription.monthly;
     Subscription.current_period_start := period_end - days 30;
     Subscription.current_period_end := period_end;
     Subscription.wompi_subscription_id := "tx-first";
     Subscription.wompi_customer_email := "owner@acme.co";
     Subscription.payment_source_id := Some payment_source_id;
     Subscription.created_at := T - days 60 |}.

Definition world (subs : list Subscription.t) : World :=
  {| subscriptions := subs; invoices := []; webhook_events := [];
     users := [{| User.id := 3; User.company := Some 1 |}];
     companies := [company]; plans := [plan];
     chatwoot_calls := []; charges := [] |}.

(** The gateway answers every charge with transaction [tx-100] in the
    given status; the provisioning service answers [patch_status]. *)
Definition env (now_ : Z) (gateway_status : string) (patch_status : Z)
  : Env :=
  {| now := now_; time := now_; sha256 := digest;
     events_secret := "events-secret";
     chatwoot_patch := fun _ => Some patch_status;
     create_recurring_transaction := fun _ =>
       Ok {| GatewayTx.id := Some "tx-100";
             GatewayTx.status := Some gateway_status |};
     create_transaction := fun _ =>
       Some {| GatewayTx.id := Some "tx-100";
               GatewayTx.status := Some gateway_status |};
     get_transaction := fun _ _ => None |}.

End Scenario.

(** The amount the scheduler charges for a subscription on a plan. *)
Definition recurring_amount (s : Subscription.t) (p : Plan.t) : Q :=
  match Subscription.billing_cycle s with
  | Subscription.yearly =>
      if decimal_truthy (Plan.price_yearly p) then Plan.price_yearly p
      else (Plan.price_monthly p * 12)%Q
  | Subscription.monthly => Plan.price_monthly p
  end.

(** The charge the scheduler sends for a subscription on a plan. *)
Definition recurring_charge (env : Env) (s : Subscription.t) (p : Plan.t)
  : Charge.t :=
  {| Charge.payment_source_id := Subscription.payment_source_id s;
     Charge.amount := recurring_amount s p;
     Charge.customer_email := Subscription.wompi_customer_email s;
     Charge.reference :=
       "RECURRING-" ++ Py.str (Subscription.id s) ++ "-"
       ++ Py.str (time env) |}.

Definition scheduler_result (s : Subscription.t) (p : Plan.t)
    (st : Result.status_t) (tid : option string) : Result.t :=
  {| Result.subscription_id := Subscription.id s;
     Result.amount := Some (recurring_amount s p);
     Result.status := st;
     Result.transaction_id := tid |}.

(** [Subscription.objects.filter(id=i).first()] on a world. *)
Definition row_of (w : World) (i : Z) : option Subscription.t :=
  find (fun r => Subscription.id r =? i) (subscriptions w).

(** Referential integrity and column constraints of the subscription
    table: primary keys are distinct, every row satisfies the column
    constraints and its company and plan exist. *)
Definition consistent (w : World) : Prop :=
  NoDup (map Subscription.id (subscriptions w))
  /\ forall s, In s (subscriptions w) ->
       storable s
       /\ (exists c, find (fun c => Company.id c =? Subscription.company s)
                       (companies w) = Some c)
       /\ (exists p, find (fun p => Plan.id p =? Subscription.plan s)
                       (plans w) = Some p).

Definition has_id (i : Z) (r : Subscription.t) : bool :=
  Subscription.id r =? i.

(** What one scheduler iteration reports and the row it saves, if any, as
    a function of the gateway's answer to the charge. *)
Definition charge_outcome (env : Env) (s : Subscription.t) (p : Plan.t)
  : Result.t * option Subscription.t :=
  match create_recurring_transaction env (recurring_charge env s p) with
  | Ok {| GatewayTx.id := Some tid; GatewayTx.status := Some st |} =>
      if in_list (Some st) ["APPROVED"; "PENDING"] then
        (scheduler_result s p Result.success (Some tid),
         Some (Subscription.set_period (now env)
                 (now env + days (cycle_days s)) s))
      else
        (scheduler_result s p Result.failed (Some tid),
         Some (Subscription.set_status Subscription.past_due s))
  | Ok {| GatewayTx.id := Some tid; GatewayTx.status := None |} =>
      (scheduler_result s p Result.error (Some tid), None)
  | _ => (scheduler_result s p Result.error None, None)
  end.

Definition rows_after (saved : option Subscription.t)
    (rows : list Subscription.t) : list Subscription.t :=
  match saved with
  | Some s' => map (Subscriptions.replace s') rows
  | None => rows
  end.

(** Everything but the subscription table and the trace of charges is
    left as it was. *)
Definition same_but_subscriptions (w w' : World) : Prop :=
  invoices w' = invoices w
  /\ webhook_events w' = webhook_events w
  /\ users w' = users w
  /\ companies w' = companies w
  /\ plans w' = plans w
  /\ chatwoot_calls w' = chatwoot_calls w.

(** *** Statements of the spec that the code refutes, as worded *)

(** C4 as stated, for a run of the scheduler from [w] to [w'] that charges
    the monthly subscription [s] on plan [p]: exactly one new invoice, paid,
    of the plan's monthly amount; the period end moved by 30 days from the
    previous period end; status still active. *)
Definition C4_as_stated (w w' : World) (s : Subscription.t) (p : Plan.t)
  : Prop :=
  (exists inv, invoices w' = inv :: invoices w
               /\ (Invoice.amount inv == Plan.price_monthly p)%Q
               /\ Invoice.status inv = Invoice.paid)
  /\ exists s', row_of w' (Subscription.id s) = Some s'
                /\ Subscription.current_period_end s'
                   = Subscription.current_period_end s + days 30
                /\ Subscription.status s' = Subscription.active.

(** C8 as stated, for a run of the scheduler without id list from [w] to
    [w']: every selected subscription is active, has a non-empty payment
    source id and a period end not after now; no charge is sent for a
    missing payment source id. *)
Definition C8_as_stated (env : Env) (w w' : World) : Prop :=
  (forall s, In s (filter (due env) (subscriptions w)) ->
     Subscription.status s = Subscription.active
     /\ Py.truthy (Subscription.payment_source_id s) = true
     /\ Subscription.current_period_end s <= now env)
  /\ (forall c, In c (charges w') ->
        Py.truthy (Charge.payment_source_id c) = true).

Module SchedulerScenario.
Import Scenario.

(** One active subscription whose period ended at [T], with a stored
    payment source. *)
Definition due_subscription : Subscription.t :=
  subscription Subscription.active T "src-1".
Definition due_world : World := world [due_subscription].

(** The scheduler fires one hour after [T]. *)
Definition fired_at : Z := T + 3600.

(** A subscription whose period ends one hour after the scheduler fires
    (same calendar day). *)
Definition not_yet_due : Subscription.t :=
  subscription Subscription.active (T + 3600) "src-1".

(** A subscription without a payment source: the column holds the empty
    string. *)
Definition no_payment_source : Subscription.t :=
  subscription Subscription.active T "".
End SchedulerScenario.

Module WebhookScenario.
Import Scenario.

(** A request signed with the events secret. *)
Definition signed (body : string) (ed : EventData.t) : Request :=
  {| method := "POST"; body := body; event_data := Some ed;
     x_event_checksum := Some (digest (body ++ "events-secret")) |}.

(** A [transaction.updated] event for an approved transaction of
    5,000,000 cents. *)
Definition approved (event_id transaction_id reference : string)
    (payment_source_id customer_email : option string) : EventData.t :=
  {| EventData.id := Some event_id;
     EventData.event := Some "transaction.updated";
     EventData.transaction :=
       {| Transaction.id := Some transaction_id;
          Transaction.status := Some "APPROVED";
          Transaction.reference := Some reference;
          Transaction.amount_in_cents := Some 5000000;
          Transaction.payment_source_id := payment_source_id;
          Transaction.customer_email := customer_email |} |}.

(** The webhook of the manual retry charge [tx-100] of subscription 7. *)
Definition retry_event : EventData.t :=
  approved "evt-1" "tx-100" "LYVIO-RETRY-7-1700000100" None None.
Definition retry_request : Request := signed "retry-body" retry_event.

Definition suspended_world : World :=
  world [subscription Subscription.suspended T "src-1"].

(** The gateway answers the retry charge with [tx-100] PENDING and the
    first poll of [tx-100] with APPROVED. *)
Definition polling_env (now_ : Z) : Env :=
  {| now := now_; time := now_; sha256 := digest;
     events_secret := "events-secret";
     chatwoot_patch := fun _ => Some 200;
     create_recurring_transaction := fun _ => Raised RequestError;
     create_transaction := fun _ =>
       Some {| GatewayTx.id := Some "tx-100";
               GatewayTx.status := Some "PENDING" |};
     get_transaction := fun transaction_id attempt =>
       if String.eqb transaction_id "tx-100" && Nat.eqb attempt 1
       then Some {| GatewayTx.id := Some "tx-100";
                    GatewayTx.status := Some "APPROVED" |}
       else None |}.
End WebhookScenario.

(** *** Frame vocabulary for the webhook handler *)

(** A computation is [quiet] when it leaves the ledger and the invoice
    table as they are, and [billing] when it leaves the ledger as it is and
    adds at most one invoice. *)
Definition quiet {A} (m : M A) : Prop :=
  forall w, webhook_events (snd (m w)) = webhook_events w
            /\ invoices (snd (m w)) = invoices w.

Definition invoices_grow (w w' : World) : Prop :=
  invoices w' = invoices w \/ exists i, invoices w' = i :: invoices w.

Definition billing {A} (m : M A) : Prop :=
  forall w, webhook_events (snd (m w)) = webhook_events w
            /\ invoices_grow w (snd (m w)).


(** *** Vocabulary for the webhook ledger *)

(** A delivery that passes the signature check and carries the event id
    [eid]. *)
Definition authentic (env : Env) (request : Request) (ed : EventData.t)
    (sig eid : string) : Prop :=
  method request = "POST"
  /\ event_data request = Some ed
  /\ x_event_checksum request = Some sig
  /\ Py.truthy (Some sig) = true
  /\ WompiService.verify_signature env (body request) sig = true
  /\ EventData.id ed = Some eid
  /\ Py.truthy (Some eid) = true.

(** The status of the ledger row of an event id, if there is one. *)
Definition ledger_status (w : World) (eid : string)
  : option WebhookEvent.status_t :=
  option_map WebhookEvent.status
    (find (WebhookEvents.by_event_id eid) (webhook_events w)).

Definition settled (w : World) (eid : string) : Prop :=
  ledger_status w eid = Some WebhookEvent.processed
  \/ ledger_status w eid = Some WebhookEvent.duplicate.

(** The new ledger row of an event fits its columns. *)
Definition insertable (ed : EventData.t) (sig eid : string) : Prop :=
  exists ety tid,
    EventData.event ed = Some ety
    /\ Transaction.id (EventData.transaction ed) = Some tid
    /\ fits 255 eid && fits 50 ety && fits 255 tid && fits 255 sig = true.

(** A sequence of deliveries, each with its own clock and environment. *)
Fixpoint deliver_all (ds : list (Env * Request)) (w : World)
  : list (outcome HttpResponse) * World :=
  match ds with
  | [] => ([], w)
  | (env, request) :: rest =>
      let (o, w1) := wompi_webhook env request w in
      let (os, w2) := deliver_all rest w1 in
      (o :: os, w2)
  end.

(** A computation that only reads: it returns and leaves the world as it
    is. *)
Definition readonly {A} (m : M A) : Prop :=
  forall w, exists a, m w = (Ok a, w).

(** The guarded reconciliation of section 3 of the webhook view. *)
Definition guarded_reconcile (env : Env) (ed : EventData.t) : M unit :=
  if is_approved_update ed
  then try_except (reconcile_approved env (EventData.transaction ed))
         any_exception (fun _ => ret tt)
  else ret tt.

(** The ledger row a fresh accepted event is inserted with. *)
Definition fresh_row (w : World) (ed : EventData.t) (sig eid ety tid : string)
  : WebhookEvent.t :=
  {| WebhookEvent.id := next_id (map WebhookEvent.id (webhook_events w));
     WebhookEvent.event_id := eid;
     WebhookEvent.event_type := ety;
     WebhookEvent.transaction_id := tid;
     WebhookEvent.payload := ed;
     WebhookEvent.signature := sig;
     WebhookEvent.status := WebhookEvent.processing;
     WebhookEvent.error_message := "";
     WebhookEvent.subscription := None;
     WebhookEvent.invoice := None;
     WebhookEvent.processed_at := None |}.

(** *** C7 *)

(** The received checksum, if any, is not the digest of the body followed
    by the secret. *)
Definition signature_mismatch (env : Env) (request : Request) : Prop :=
  forall sig, x_event_checksum request = Some sig ->
              WompiService.verify_signature env (body request) sig = false.

Definition unauthorized (r : HttpResponse) : Prop :=
  status_code r = 401 \/ status_code r = 403.

(** C7 as stated, for one request on a world. *)
Definition C7_as_stated (env : Env) (request : Request) (w : World) : Prop :=
  signature_mismatch env request ->
  exists r w',
    wompi_webhook env request w = (Ok r, w')
    /\ unauthorized r
    /\ (exists row, webhook_events w' = row :: webhook_events w
                    /\ WebhookEvent.status row
                       = WebhookEvent.invalid_signature)
    /\ subscriptions w' = subscriptions w
    /\ invoices w' = invoices w.

(** The keys the rejected delivery is recorded under. *)
Definition rejected_event_id (env : Env) (ed : EventData.t) : string :=
  or_default (EventData.id ed) ("invalid-" ++ Py.str (now env)).
Definition rejected_event_type (ed : EventData.t) : string :=
  or_default (EventData.event ed) "unknown".
Definition rejected_transaction_id (ed : EventData.t) : string :=
  or_default (Transaction.id (EventData.transaction ed)) "unknown".

(** The rejected delivery can be recorded: its event id is new to the
    ledger and the values fit their columns. *)
Definition recordable (env : Env) (ed : EventData.t) (sig : string)
    (w : World) : Prop :=
  ledger_status w (rejected_event_id env ed) = None
  /\ fits 255 (rejected_event_id env ed)
     && fits 50 (rejected_event_type ed)
     && fits 255 (rejected_transaction_id ed)
     && fits 255 sig = true.

Module SignatureScenario.
Import Scenario WebhookScenario.

(** The retry webhook without its checksum header. *)
Definition unsigned_request : Request :=
  {| method := "POST"; body := "retry-body";
     event_data := Some retry_event; x_event_checksum := None |}.

(** The retry webhook replayed with an altered body (the amount raised)
    under the checksum of the original body. *)
Definition tampered_event : EventData.t :=
  {| EventData.id := Some "evt-1";
     EventData.event := Some "transaction.updated";
     EventData.transaction :=
       {| Transaction.id := Some "tx-100";
          Transaction.status := Some "APPROVED";
          Transaction.reference := Some "LYVIO-RETRY-7-1700000100";
          Transaction.amount_in_cents := Some 9000000;
          Transaction.payment_source_id := None;
          Transaction.customer_email := None |} |}.
Definition tampered_request : Request :=
  {| method := "POST"; body := "retry-body-altered";
     event_data := Some tampered_event;
     x_event_checksum := Some (digest ("retry-body" ++ "events-secret")) |}.

(** The world after the original webhook has been processed. *)
Definition delivered_world : World :=
  snd (wompi_webhook (env (T + 100) "APPROVED" 200) retry_request
         suspended_world).
End SignatureScenario.

(** *** C5 and C6: the matching strategies *)

(** A lookup: it leaves the world as it is (it may still raise). *)
Definition inert {A} (m : M A) : Prop := forall w, snd (m w) = w.

(** None of the five lookups of the webhook yields a subscription. *)
Definition no_strategy_matches (env : Env) (tx : Transaction.t) (w : World)
  : Prop :=
  fst (by_wompi_subscription_id tx w) = Ok None
  /\ fst (by_recurring_reference tx w) = Ok None
  /\ fst (by_payment_source tx w) = Ok None
  /\ fst (by_customer_email env tx w) = Ok None
  /\ forall s, fst (by_first_payment_reference env tx w) <> Ok (Some s).

(** C6 as stated, for the first delivery of an approved payment event
    that no strategy matches. *)
Definition C6_as_stated (env : Env) (request : Request) (ed : EventData.t)
    (eid : string) (w : World) : Prop :=
  is_approved_update ed = true ->
  no_strategy_matches env (EventData.transaction ed) w ->
  ledger_status (snd (wompi_webhook env request w)) eid
  = Some WebhookEvent.failed.

Module OrphanScenario.
Import Scenario WebhookScenario.

(** An approved payment for a subscription id that does not exist,
    without payment source id or customer email. *)
Definition orphan_event : EventData.t :=
  approved "evt-2" "tx-999" "LYVIO-REC-99-1700000100" None None.
Definition orphan_request : Request := signed "orphan-body" orphan_event.
End OrphanScenario.

(** A computation whose exceptions, if any, are database errors: not the
    [ValueError] or [IndexError] the first-payment [try] catches. *)
Definition db_errors {A} (m : M A) : Prop :=
  forall w e, fst (m w) = Raised e -> value_or_index_error e = false.

(** The reconciliation bills the subscription [s]: one invoice is added
    and it belongs to [s]. *)
Definition bills (env : Env) (tx : Transaction.t) (w : World)
    (s : Subscription.t) : Prop :=
  exists inv,
    invoices (snd (reconcile_approved env tx w)) = inv :: invoices w
    /\ Invoice.subscription inv = Subscription.id s.

(** Strategy 3 in the words of the spec: the subscription a structured
    reference identifies, whatever its prefix. *)
Definition by_reference (env : Env) (tx : Transaction.t)
  : M (option Subscription.t) :=
  (found <- by_recurring_reference tx ;;
   match found with
   | Some s => ret (Some s)
   | None => by_first_payment_reference env tx
   end)%monad.

(** C5 as stated: strategy 1 wins over the reference, and, when neither
    the transaction id nor the payment source matches, the reference wins
    over the customer email. *)
Definition C5_as_stated (env : Env) (tx : Transaction.t) (w : World) : Prop :=
  (forall s1, fst (by_wompi_subscription_id tx w) = Ok (Some s1) ->
              bills env tx w s1)
  /\ (forall s3 s4,
        fst (by_wompi_subscription_id tx w) = Ok None ->
        fst (by_payment_source tx w) = Ok None ->
        fst (by_reference env tx w) = Ok (Some s3) ->
        fst (by_customer_email env tx w) = Ok (Some s4) ->
        bills env tx w s3).

Module PrecedenceScenario.
Import Scenario.

(** Subscription 7 (company 1, plan 1) was created two hours before the
    webhook; subscription 8 (company 2, plan 1), with the payer's email,
    one minute before.  Both are pending. *)
Definition webhook_time : Z := T.

Definition by_reference_subscription : Subscription.t :=
  {| Subscription.id := 7; Subscription.company := 1;
     Subscription.plan := 1; Subscription.status := Subscription.pending;
     Subscription.billing_cycle := Subscription.monthly;
     Subscription.current_period_start := T - hours 2;
     Subscription.current_period_end := T - hours 2 + days 30;
     Subscription.wompi_subscription_id := "tx-a";
     Subscription.wompi_customer_email := "owner@acme.co";
     Subscription.payment_source_id := Some "src-1";
     Subscription.created_at := T - hours 2 |}.

Definition by_email_subscription : Subscription.t :=
  {| Subscription.id := 8; Subscription.company := 2;
     Subscription.plan := 1; Subscription.status := Subscription.pending;
     Subscription.billing_cycle := Subscription.monthly;
     Subscription.current_period_start := T - minutes 1;
     Subscription.current_period_end := T - minutes 1 + days 30;
     Subscription.wompi_subscription_id := "tx-b";
     Subscription.wompi_customer_email := "payer@shared.co";
     Subscription.payment_source_id := Some "src-2";
     Subscription.created_at := T - minutes 1 |}.

(** Most recent first, as the model's ordering returns them. *)
Definition two_pending : World :=
  {| subscriptions := [by_email_subscription; by_reference_subscription];
     invoices := []; webhook_events := [];
     users := [{| User.id := 3; User.company := Some 1 |}];
     companies := [company;
                   {| Company.id := 2; Company.name := "Shared";
                      Company.chatwoot_account_id := Some 12 |}];
     plans := [plan]; chatwoot_calls := []; charges := [] |}.

(** The first payment of plan 1 by user 3 (company 1), paid with the
    email of subscription 8; the gateway's transaction id is new. *)
Definition first_payment : Transaction.t :=
  {| Transaction.id := Some "tx-200";
     Transaction.status := Some "APPROVED";
     Transaction.reference := Some "LYVIO-FIRST-1-3-1699999000";
     Transaction.amount_in_cents := Some 5000000;
     Transaction.payment_source_id := None;
     Transaction.customer_email := Some "payer@shared.co" |}.
End PrecedenceScenario.

(** The rows the scheduler charges: the due ones when no id list is
    given, otherwise the listed active ones. *)
Definition selected (env : Env) (subscription_ids : list Z) (w : World)
  : list Subscription.t :=
  match subscription_ids with
  | [] => filter (due env) (subscriptions w)
  | _ => filter (listed subscription_ids) (subscriptions w)
  end.

(* ================================================================== *)
(** ** Further statement-level vocabulary *)
(* ================================================================== *)

(** A delivery that passes the signature check. *)
Definition verified (env : Env) (request : Request) (ed : EventData.t)
    (sig : string) : Prop :=
  method request = "POST"
  /\ event_data request = Some ed
  /\ x_event_checksum request = Some sig
  /\ Py.truthy (Some sig) = true
  /\ WompiService.verify_signature env (body request) sig = true.

(** The ledger row of the event is in a state the view has no branch
    for: the local variable [webhook_event] stays unbound. *)
Definition unhandled (w : World) (eid : string) : Prop :=
  ledger_status w eid = Some WebhookEvent.received
  \/ ledger_status w eid = Some WebhookEvent.invalid_signature.

(** *** What a reconciliation may do to the subscription table *)

(** Primary keys of the subscription table are distinct. *)
Definition keyed (w : World) : Prop :=
  NoDup (map Subscription.id (subscriptions w)).

(** The object [s] a view holds is the stored row of its primary key. *)
Definition tracked (s : Subscription.t) (w : World) : Prop :=
  keyed w /\ In s (subscriptions w).

(** The subscription table of [w'] is that of [w], row by row, up to the
    relation [R]. *)
Definition evolves (R : Subscription.t -> Subscription.t -> Prop)
    (w w' : World) : Prop :=
  Forall2 R (subscriptions w) (subscriptions w').

(** A computation that leaves the subscription table as it is. *)
Definition still {A} (m : M A) : Prop :=
  forall w, subscriptions (snd (m w)) = subscriptions w.

(** A computation run on the tracked object [s] changes rows along [R]
    only; [tracks] when it also returns the object as it is stored
    afterwards. *)
Definition changes {A} (R : Subscription.t -> Subscription.t -> Prop)
    (s : Subscription.t) (m : M A) : Prop :=
  forall w, tracked s w -> evolves R w (snd (m w)).

Definition tracks (R : Subscription.t -> Subscription.t -> Prop)
    (s : Subscription.t) (m : M Subscription.t) : Prop :=
  forall w, tracked s w ->
    evolves R w (snd (m w))
    /\ forall s1, fst (m w) = Ok s1 -> tracked s1 (snd (m w)).

(** The columns a payment event never touches, a period end that does
    not move back, and a status that is either kept or goes from pending
    or suspended to active. *)
Definition renewed (r r' : Subscription.t) : Prop :=
  Subscription.id r' = Subscription.id r
  /\ Subscription.company r' = Subscription.company r
  /\ Subscription.plan r' = Subscription.plan r
  /\ Subscription.billing_cycle r' = Subscription.billing_cycle r
  /\ Subscription.wompi_customer_email r'
     = Subscription.wompi_customer_email r
  /\ Subscription.payment_source_id r' = Subscription.payment_source_id r
  /\ Subscription.created_at r' = Subscription.created_at r
  /\ Subscription.current_period_end r
     <= Subscription.current_period_end r'
  /\ (Subscription.status r' = Subscription.status r
      \/ ((Subscription.status r = Subscription.pending
           \/ Subscription.status r = Subscription.suspended)
          /\ Subscription.status r' = Subscription.active)).

(** The billing period of the row is as it was. *)
Definition same_period (r r' : Subscription.t) : Prop :=
  Subscription.id r' = Subscription.id r
  /\ Subscription.current_period_start r'
     = Subscription.current_period_start r
  /\ Subscription.current_period_end r'
     = Subscription.current_period_end r.

(** The reference of the transaction carries neither renewal marker. *)
Definition unmarked (tx : Transaction.t) : Prop :=
  reference_has "LYVIO-REC-" (Transaction.reference tx) = false
  /\ reference_has "LYVIO-RETRY-" (Transaction.reference tx) = false.

(** Two worlds that differ in the webhook ledger at most. *)
Definition same_but_ledger (w w' : World) : Prop :=
  subscriptions w' = subscriptions w
  /\ invoices w' = invoices w
  /\ users w' = users w
  /\ companies w' = companies w
  /\ plans w' = plans w
  /\ chatwoot_calls w' = chatwoot_calls w
  /\ charges w' = charges w.

(** A computation that writes to the webhook ledger at most. *)
Definition ledger_only {A} (m : M A) : Prop :=
  forall w, same_but_ledger w (snd (m w)).

(** Case analysis on a marker of the reference, in the goal only. *)
Ltac case_marker needle E :=
  match goal with
  | |- context [reference_has needle ?r] =>
      case_eq (reference_has needle r); intros E
  end.

(** *** Invoices written by the webhook *)

(** [inv] is the invoice the webhook writes on the world [w] for the
    transaction [tx] and the subscription of key [sid]: paid now, with
    the identifier, reference and amount of the transaction, a new
    primary key and a transaction identifier no stored invoice has. *)
Definition invoice_of (env : Env) (tx : Transaction.t) (w : World) (sid : Z)
    (inv : Invoice.t) : Prop :=
  Invoice.subscription inv = sid
  /\ Transaction.id tx = Some (Invoice.wompi_transaction_id inv)
  /\ Transaction.reference tx = Some (Invoice.wompi_reference inv)
  /\ (exists cents, Transaction.amount_in_cents tx = Some cents
                    /\ cents <> 0
                    /\ Invoice.amount inv = cents # 100)
  /\ Invoice.status inv = Invoice.paid
  /\ Invoice.paid_at inv = Some (now env)
  /\ Invoice.id inv = next_id (map Invoice.id (invoices w))
  /\ ~ In (Invoice.wompi_transaction_id inv)
          (map Invoice.wompi_transaction_id (invoices w)).

(** The invoice step of the settlements: nothing when the transaction
    has an invoice, otherwise the invoice, then [suffix]. *)
Definition invoice_step (env : Env) (tx : Transaction.t)
    (subscription : Subscription.t) (suffix : M unit) : M unit :=
  existing_invoice <- Invoices.first_by_transaction_id (Transaction.id tx) ;;
  match existing_invoice with
  | Some _ => ret tt
  | None =>
      Invoices.create_paid env subscription (transaction_amount tx)
        (Transaction.id tx) (Transaction.reference tx) ;;;
      suffix
  end.

(** Either no invoice is written and no billing period moves, or one
    invoice is written, for the transaction and a stored subscription. *)
Definition backed_by_invoice (env : Env) (tx : Transaction.t)
    (w w' : World) : Prop :=
  (invoices w' = invoices w /\ evolves same_period w w')
  \/ exists inv s,
       invoices w' = inv :: invoices w
       /\ In s (subscriptions w)
       /\ invoice_of env tx w (Subscription.id s) inv.

Definition backed {A} (env : Env) (tx : Transaction.t) (s : Subscription.t)
    (m : M A) : Prop :=
  forall w, tracked s w -> backed_by_invoice env tx w (snd (m w)).

(** *** The settlement of an identified subscription in closed form *)






(** Splits the conjunctions of the goal without unfolding definitions. *)
Ltac split_all := repeat match goal with |- _ /\ _ => split end.

(** *** The payment references the views build *)

(** [f"LYVIO-RETRY-{subscription.id}-{int(time.time())}"]
    ([retry_payment]). *)
Definition retry_reference (subscription_id t : Z) : string :=
  "LYVIO-RETRY-" ++ Py.str subscription_id ++ "-" ++ Py.str t.

(** [f"LYVIO-REC-{subscription.id}-{timestamp}"]
    ([dashboard.views.api_subscription_charge_payload]). *)
Definition charge_payload_reference (subscription_id t : Z) : string :=
  "LYVIO-REC-" ++ Py.str subscription_id ++ "-" ++ Py.str t.

(** [f"RECURRING-{subscription.id}-{timestamp}"]
    ([process_recurring_payments]). *)
Definition recurring_reference (subscription_id t : Z) : string :=
  "RECURRING-" ++ Py.str subscription_id ++ "-" ++ Py.str t.

(** [f"LYVIO-RENEW-{subscription.id}-{timestamp}"]
    ([renew_expired_subscription]). *)
Definition renewal_reference (subscription_id t : Z) : string :=
  "LYVIO-RENEW-" ++ Py.str subscription_id ++ "-" ++ Py.str t.

(** [f"LYVIO-REACTIVATION-{subscription.id}-{int(time.time())}"]
    ([update_payment_method]). *)
Definition reactivation_reference (subscription_id t : Z) : string :=
  "LYVIO-REACTIVATION-" ++ Py.str subscription_id ++ "-" ++ Py.str t.

(** [f"LYVIO-FIRST-{plan.id}-{request.user.id}-{timestamp}"]
    ([_process_card_payment]). *)
Definition first_payment_reference (plan_id user_id t : Z) : string :=
  "LYVIO-FIRST-" ++ Py.str plan_id ++ "-" ++ Py.str user_id ++ "-"
  ++ Py.str t.

(** A string of decimal digits and hyphens. *)
Fixpoint plain (s : string) : bool :=
  match s with
  | EmptyString => true
  | String c rest =>
      (match Py.digit_of c with
       | Some _ => true
       | None => Ascii.eqb c "-"
       end) && plain rest
  end.

(** A string of decimal digits. *)
Fixpoint numeral (s : string) : bool :=
  match s with
  | EmptyString => true
  | String c rest =>
      match Py.digit_of c with
      | Some _ => numeral rest
      | None => false
      end
  end.

(** The two markers the reconciliation looks for in a reference. *)
Definition marked_retry (reference : string) : bool :=
  reference_has "LYVIO-RETRY-" (Some reference).
Definition marked_recurring (reference : string) : bool :=
  reference_has "LYVIO-REC-" (Some reference).

(** A reference built for a scheduler charge, an expired-subscription
    renewal, a change of payment method or a first payment. *)
Definition built_unmarked (r : string) : Prop :=
  exists id t,
    r = recurring_reference id t
    \/ r = renewal_reference id t
    \/ r = reactivation_reference id t
    \/ exists plan_id, r = first_payment_reference plan_id id t.

(** *** The scheduler loop, result by result *)

(** The result of the iteration of [s]: the plan is the stored one and
    the outcome is that of the charge of [s] alone. *)
Definition charged (env : Env) (w : World) (s : Subscription.t)
    (r : Result.t) : Prop :=
  exists p,
    find (fun p => Plan.id p =? Subscription.plan s) (plans w) = Some p
    /\ r = fst (charge_outcome env s p).

(** The result of the iteration of [s] in a dry run. *)
Definition simulated (w : World) (s : Subscription.t) (r : Result.t)
  : Prop :=
  exists p,
    find (fun p => Plan.id p =? Subscription.plan s) (plans w) = Some p
    /\ r = scheduler_result s p Result.simulated None.

(** The charge sent for [s]: that of its stored plan. *)
Definition sent (env : Env) (w : World) (s : Subscription.t)
    (c : Charge.t) : Prop :=
  exists p,
    find (fun p => Plan.id p =? Subscription.plan s) (plans w) = Some p
    /\ c = recurring_charge env s p.

(** Whenever the computation returns, its value satisfies [P]. *)
Definition yields {A} (P : A -> Prop) (m : M A) : Prop :=
  forall w a w', m w = (Ok a, w') -> P a.

(** A result of the loop: its status is one of those the summary
    counts. *)
Definition counted (r : Result.t) : Prop :=
  Result.status r <> Result.pending.

(** *** retry_payment *)

(** The subscription [retry_payment] works on: the first suspended one
    of the company. *)
Definition suspended_of (company : Company.t) (w : World)
  : option Subscription.t :=
  find (fun s => (Subscription.company s =? Company.id company)
                 && Subscription.status_eqb (Subscription.status s)
                      Subscription.suspended)
    (subscriptions w).

(** The account the provisioning service is asked to reactivate. *)
Definition account_calls (c : Company.t) : list Z :=
  match Company.chatwoot_account_id c with
  | None | Some 0 => []
  | Some account_id => [account_id]
  end.

(** The charge [retry_payment] sends for [s] on plan [p]. *)
Definition retry_charge (env : Env) (s : Subscription.t) (p : Plan.t)
  : Charge.t :=
  {| Charge.payment_source_id := Subscription.payment_source_id s;
     Charge.amount :=
       match Subscription.billing_cycle s with
       | Subscription.yearly =>
           if decimal_truthy (Plan.price_yearly p) then Plan.price_yearly p
           else Plan.price_monthly p
       | Subscription.monthly => Plan.price_monthly p
       end;
     Charge.customer_email := Subscription.wompi_customer_email s;
     Charge.reference :=
       retry_reference (Subscription.id s) (time env) |}.

(** From [w] to [w'] the subscription [s] of company [c] has been
    reactivated: its row is active with the period extended by one cycle
    from its previous end, the provisioning service has been asked once
    if the company has an account, and nothing else has changed. *)
Definition reactivated (c : Company.t) (s : Subscription.t) (w w' : World)
  : Prop :=
  subscriptions w'
  = map (Subscriptions.replace
           (extend_period (Subscription.set_status Subscription.active s)))
      (subscriptions w)
  /\ chatwoot_calls w' = (account_calls c ++ chatwoot_calls w)%list
  /\ invoices w' = invoices w
  /\ webhook_events w' = webhook_events w
  /\ charges w' = charges w.

(** From [w] to [w'] nothing has changed but the trace of charges. *)
Definition same_but_charges (w w' : World) : Prop :=
  subscriptions w' = subscriptions w
  /\ chatwoot_calls w' = chatwoot_calls w
  /\ invoices w' = invoices w
  /\ webhook_events w' = webhook_events w.

(** The gateway never reports the charge approved: neither its answer to
    the charge nor any answer to a poll has status APPROVED. *)
Definition never_approved (env : Env) : Prop :=
  (forall c t, create_transaction env c = Some t ->
               status_of t <> "APPROVED")
  /\ (forall tid n t, get_transaction env tid n = Some t ->
                      status_of t <> "APPROVED").

(* ================================================================== *)
(** ** accounts/models.py: Trial *)
(* ================================================================== *)

Module Trial.

(** [TRIAL_STATUS_CHOICES] *)
Inductive status_t := active | expired | converted | cancelled.

Record t := {
  end_date : Z;
  status : status_t;
  max_messages : Z;
  max_conversations : Z;
  current_messages : Z;
  current_conversations : Z
}.

Definition status_eqb (a b : status_t) : bool :=
  match a, b with
  | active, active | expired, expired | converted, converted
  | cancelled, cancelled => true
  | _, _ => false
  end.

(** The [is_active] property. *)
Definition is_active (env : Env) (self : t) : bool :=
  status_eqb (status self) active
  && (now env <? end_date self)
  && (current_messages self <? max_messages self)
  && (current_conversations self <? max_conversations self).

End Trial.

(* ================================================================== *)
(** ** subscriptions/models.py: validity of a discount campaign *)
(* ================================================================== *)

(** A row of [DiscountCampaign]: the type and value of
    [DiscountCampaign.t] with the conditions and the validity columns. *)
Module Campaign.

Record t := {
  terms : DiscountCampaign.t;
  apply_to_trial_expired : bool;
  apply_to_new_users : bool;
  minimum_plan_price : option Q;
  start_date : Z;
  end_date : Z;
  is_active : bool;
  max_uses : option Z;
  current_uses : Z
}.

(** [DiscountCampaign.is_valid] *)
Definition is_valid (env : Env) (self : t) : bool :=
  is_active self
  && ((start_date self <=? now env) && (now env <=? end_date self))
  && match max_uses self with
     | None => true
     | Some m => current_uses self <? m
     end.

(** [DiscountCampaign.can_apply_to_user]; [has_subscription] is
    [hasattr(company, 'subscription')]. *)
Definition can_apply_to_user (env : Env) (self : t)
    (has_subscription : bool) (trial : option Trial.t) : bool :=
  if negb (is_valid env self) then false
  else if apply_to_trial_expired self
          && match trial with
             | None => true
             | Some t => Trial.is_active env t
             end
  then false
  else if apply_to_new_users self && has_subscription then false
  else true.

End Campaign.

(* ================================================================== *)
(** ** subscriptions/views.py: the price of a checkout *)
(* ================================================================== *)

(** [hasattr(company, 'subscription')]: the company has a subscription
    row. *)
Definition has_subscription (w : World) (company : Company.t) : bool :=
  existsb (fun s => Subscription.company s =? Company.id company)
    (subscriptions w).

(** [discount.minimum_plan_price and amount < discount.minimum_plan_price] *)
Definition below_minimum (discount : Campaign.t) (amount : Q) : bool :=
  match Campaign.minimum_plan_price discount with
  | None => false
  | Some m => decimal_truthy m && negb (Qle_bool m amount)
  end.

(** The loop over [DiscountCampaign.objects.filter(is_active=True)]:
    the first campaign that can be applied to the user and whose minimum
    price the amount reaches. *)
Fixpoint first_applicable (env : Env) (campaigns : list Campaign.t)
    (has_sub : bool) (trial : option Trial.t) (amount : Q)
  : option Campaign.t :=
  match campaigns with
  | [] => None
  | discount :: rest =>
      if Campaign.can_apply_to_user env discount has_sub trial then
        if below_minimum discount amount
        then first_applicable env rest has_sub trial amount
        else Some discount
      else first_applicable env rest has_sub trial amount
  end.

Module Quote.
Record t := {
  billing_cycle : Subscription.billing_cycle_t;
  original_amount : Q;
  discount : option Campaign.t;
  discount_amount : Q;
  final_amount : Q
}.
End Quote.

(** The pricing block of [_show_card_form] and [_process_card_payment]:
    the price of the cycle (the monthly one, with the cycle reset to
    monthly, when the plan has no yearly price), less the discount of
    the first applicable campaign. *)
Definition quote (env : Env) (campaigns : list Campaign.t) (plan : Plan.t)
    (billing_cycle : Subscription.billing_cycle_t) (has_sub : bool)
    (trial : option Trial.t) : Quote.t :=
  let '(amount, billing_cycle) :=
    match billing_cycle with
    | Subscription.yearly =>
        if decimal_truthy (Plan.price_yearly plan)
        then (Plan.price_yearly plan, Subscription.yearly)
        else (Plan.price_monthly plan, Subscription.monthly)
    | Subscription.monthly => (Plan.price_monthly plan, Subscription.monthly)
    end in
  let applicable_discount :=
    first_applicable env (filter Campaign.is_active campaigns) has_sub trial
      amount in
  match applicable_discount with
  | Some d =>
      let discount_amount :=
        DiscountCampaign.calculate_discount (Campaign.terms d) amount in
      {| Quote.billing_cycle := billing_cycle;
         Quote.original_amount := amount;
         Quote.discount := Some d;
         Quote.discount_amount := discount_amount;
         Quote.final_amount := amount - discount_amount |}
  | None =>
      {| Quote.billing_cycle := billing_cycle;
         Quote.original_amount := amount;
         Quote.discount := None;
         Quote.discount_amount := 0;
         Quote.final_amount := amount |}
  end.

(** A campaign whose value makes sense for its type: a percentage
    between 0 and 100, a fixed amount that is not negative. *)
Definition sane (d : Campaign.t) : Prop :=
  (0 <= DiscountCampaign.discount_value (Campaign.terms d))%Q
  /\ (DiscountCampaign.discount_type (Campaign.terms d)
      = DiscountCampaign.percentage ->
      (DiscountCampaign.discount_value (Campaign.terms d) <= 100)%Q).

(** What makes a campaign eligible for a checkout of [amount] by a
    company now. *)
Definition eligible (env : Env) (d : Campaign.t) (has_sub : bool)
    (trial : option Trial.t) (amount : Q) : Prop :=
  Campaign.is_active d = true
  /\ Campaign.start_date d <= now env <= Campaign.end_date d
  /\ (forall m, Campaign.max_uses d = Some m -> Campaign.current_uses d < m)
  /\ (Campaign.apply_to_trial_expired d = true ->
      exists t, trial = Some t /\ Trial.is_active env t = false)
  /\ (Campaign.apply_to_new_users d = true -> has_sub = false)
  /\ (forall m, Campaign.minimum_plan_price d = Some m ->
                ~ (m == 0)%Q -> (m <= amount)%Q).

(* ================================================================== *)
(** ** subscriptions/views.py: cancellation and reactivation *)
(* ================================================================== *)

(** The database with the [cancelled_at] column of the subscription
    table, by primary key. *)
Record Store := {
  db : World;
  cancelled_at : Z -> option Z
}.

Definition set_cancelled_at (i : Z) (v : option Z) (f : Z -> option Z)
  : Z -> option Z :=
  fun j => if j =? i then v else f j.

(** What these views answer with: [redirect(target)] or
    [render(request, template, context)]. *)
Inductive Page :=
| Redirected (target : string)
| Rendered (template : string).

(** [getattr(company, 'subscription', None)]: the reverse side of the
    one-to-one relation. *)
Definition subscription_of (company : Company.t) (w : World)
  : option Subscription.t :=
  find (fun s => Subscription.company s =? Company.id company)
    (subscriptions w).

(** [subscription.save()] on the store, with the value of
    [cancelled_at] the object holds. *)
Definition save_with_cancelled_at (s : Subscription.t) (v : option Z)
    (st : Store) : outcome unit * Store :=
  match Subscriptions.save s (db st) with
  | (Ok _, w') =>
      (Ok tt, {| db := w';
                 cancelled_at :=
                   set_cancelled_at (Subscription.id s) v (cancelled_at st) |})
  | (Raised e, w') => (Raised e, {| db := w'; cancelled_at := cancelled_at st |})
  end.

(** [billing_cancel_subscription]; [company] is [request.user.company]
    ([None]: no company). *)
Definition billing_cancel_subscription (env : Env) (method : string)
    (company : option Company.t) (st : Store) : outcome Page * Store :=
  match company with
  | None => (Ok (Redirected "dashboard:login"), st)
  | Some company =>
      match subscription_of company (db st) with
      | None => (Ok (Redirected "dashboard:dashboard"), st)
      | Some subscription =>
          if Subscription.status_eqb (Subscription.status subscription)
               Subscription.cancelled
          then (Ok (Redirected "dashboard:dashboard"), st)
          else if String.eqb method "POST" then
            match save_with_cancelled_at
                    (Subscription.set_status Subscription.cancelled
                       subscription)
                    (Some (now env)) st with
            | (Ok _, st') => (Ok (Redirected "dashboard:dashboard"), st')
            | (Raised e, st') => (Raised e, st')
            end
          else (Ok (Rendered "subscriptions/cancel_subscription.html"), st)
      end
  end.

(** [reactivate_subscription]; [n8n] is the truth value of the answer of
    [notify_n8n_subscription_reactivated] for the subscription. *)
Definition reactivate_subscription (env : Env) (n8n : Subscription.t -> bool)
    (method : string) (company : option Company.t) (st : Store)
  : outcome Page * Store :=
  match company with
  | None => (Ok (Redirected "dashboard:login"), st)
  | Some company =>
      match subscription_of company (db st) with
      | None => (Ok (Redirected "dashboard:dashboard"), st)
      | Some subscription =>
          if negb (Subscription.status_eqb (Subscription.status subscription)
                     Subscription.cancelled)
          then (Ok (Redirected "dashboard:dashboard"), st)
          else if date_utc (Subscription.current_period_end subscription)
                  <? date_utc (now env)
          then (Ok (Redirected "subscriptions:renew_expired_subscription"),
                st)
          else if String.eqb method "POST" then
            if negb (n8n subscription)
            then (Ok (Redirected "dashboard:dashboard"), st)
            else
              match save_with_cancelled_at
                      (Subscription.set_status Subscription.active
                         subscription)
                      None st with
              | (Ok _, st') => (Ok (Redirected "dashboard:dashboard"), st')
              | (Raised e, st') => (Raised e, st')
              end
          else (Ok (Rendered "subscriptions/reactivate_subscription.html"),
                st)
      end
  end.

(** *** The settlement through the alternative strategies *)





(** *** The ledger row of a processed event *)

(** Section 4 of the webhook view on the world [w]: the keys of the
    subscription and of the invoice the ledger row is made to refer
    to. *)
Definition processed_references (ed : EventData.t) (w : World)
  : option Z * option Z :=
  if is_approved_update ed then
    (match fst (processed_subscription_of (EventData.transaction ed) w) with
     | Ok (Some s) => Some (Subscription.id s)
     | _ => None
     end,
     option_map Invoice.id
       (find (Invoices.by_transaction_id
                (Transaction.id (EventData.transaction ed)))
          (invoices w)))
  else (None, None).

(** [mark_as_processed] with these references. *)
Definition processed_row (env : Env) (ed : EventData.t)
    (we : WebhookEvent.t) (w : World) : WebhookEvent.t :=
  WebhookEvent.with_fields WebhookEvent.processed
    (WebhookEvent.error_message we)
    (match fst (processed_references ed w) with
     | Some i => Some i
     | None => WebhookEvent.subscription we
     end)
    (match snd (processed_references ed w) with
     | Some i => Some i
     | None => WebhookEvent.invoice we
     end)
    (Some (now env)) we.

(* ================================================================== *)
(** ** Further concrete scenarios *)
(* ================================================================== *)

Module LedgerScenario.
Import Scenario WebhookScenario.

(** The webhook fires 100 seconds after [T]; the gateway and the
    provisioning service answer positively. *)
Definition fired : Env := env (T + 100) "APPROVED" 200.

Definition checksum : string := digest ("retry-body" ++ "events-secret").

(** The ledger row of event [evt-1] in a given status. *)
Definition row (st : WebhookEvent.status_t) : WebhookEvent.t :=
  {| WebhookEvent.id := 1;
     WebhookEvent.event_id := "evt-1";
     WebhookEvent.event_type := "transaction.updated";
     WebhookEvent.transaction_id := "tx-100";
     WebhookEvent.payload := retry_event;
     WebhookEvent.signature := checksum;
     WebhookEvent.status := st;
     WebhookEvent.error_message := "";
     WebhookEvent.subscription := None;
     WebhookEvent.invoice := None;
     WebhookEvent.processed_at := None |}.

(** Another delivery of [evt-1] is being processed. *)
Definition in_flight : World :=
  with_webhook_events [row WebhookEvent.processing] suspended_world.

(** A delivery of [evt-1] with a bad checksum came first. *)
Definition claimed : World :=
  with_webhook_events [row WebhookEvent.invalid_signature] suspended_world.

(** A signed event without identifier. *)
Definition anonymous_event : EventData.t :=
  {| EventData.id := None;
     EventData.event := Some "transaction.updated";
     EventData.transaction := EventData.transaction retry_event |}.
Definition anonymous_request : Request := signed "anonymous-body" anonymous_event.

(** The gateway reports the retry charge declined. *)
Definition declined_event : EventData.t :=
  {| EventData.id := Some "evt-5";
     EventData.event := Some "transaction.updated";
     EventData.transaction :=
       {| Transaction.id := Some "tx-100";
          Transaction.status := Some "DECLINED";
          Transaction.reference := Some "LYVIO-RETRY-7-1700000100";
          Transaction.amount_in_cents := Some 5000000;
          Transaction.payment_source_id := None;
          Transaction.customer_email := None |} |}.
Definition declined_request : Request := signed "declined-body" declined_event.

(** The renewal of subscription 7, active, charged through the charge
    payload of the dashboard. *)
Definition active_subscription : Subscription.t :=
  subscription Subscription.active T "src-1".
Definition active_world : World := world [active_subscription].

(** The confirmation of a scheduler charge of subscription 7. *)
Definition scheduler_event : EventData.t :=
  approved "evt-4" "tx-400" (recurring_reference 7 1700003600)
    (Some "src-1") None.
Definition scheduler_request : Request := signed "scheduler-body" scheduler_event.

(** The retry charge [tx-100] has been invoiced. *)
Definition invoice : Invoice.t :=
  {| Invoice.id := 1; Invoice.subscription := 7;
     Invoice.amount := 50000; Invoice.status := Invoice.paid;
     Invoice.wompi_transaction_id := "tx-100";
     Invoice.wompi_reference := "LYVIO-RETRY-7-1700000100";
     Invoice.paid_at := Some (T + 100) |}.
Definition invoiced : World := with_invoices [invoice] suspended_world.


End LedgerScenario.

Module CheckoutScenario.

(** Two campaigns: an exhausted 20 % campaign and a fixed discount of
    10,000 for companies whose trial has expired. *)
Definition exhausted : Campaign.t :=
  {| Campaign.terms :=
       {| DiscountCampaign.discount_type := DiscountCampaign.percentage;
          DiscountCampaign.discount_value := 20 |};
     Campaign.apply_to_trial_expired := false;
     Campaign.apply_to_new_users := false;
     Campaign.minimum_plan_price := None;
     Campaign.start_date := Scenario.T - days 10;
     Campaign.end_date := Scenario.T + days 10;
     Campaign.is_active := true;
     Campaign.max_uses := Some 5;
     Campaign.current_uses := 5 |}.

Definition welcome_back : Campaign.t :=
  {| Campaign.terms :=
       {| DiscountCampaign.discount_type := DiscountCampaign.fixed;
          DiscountCampaign.discount_value := 10000 |};
     Campaign.apply_to_trial_expired := true;
     Campaign.apply_to_new_users := true;
     Campaign.minimum_plan_price := Some 30000%Q;
     Campaign.start_date := Scenario.T - days 10;
     Campaign.end_date := Scenario.T + days 10;
     Campaign.is_active := true;
     Campaign.max_uses := None;
     Campaign.current_uses := 0 |}.

Definition campaigns : list Campaign.t := [exhausted; welcome_back].

(** A trial that ended a day ago. *)
Definition ended_trial : Trial.t :=
  {| Trial.end_date := Scenario.T - days 1;
     Trial.status := Trial.active;
     Trial.max_messages := 1000;
     Trial.max_conversations := 100;
     Trial.current_messages := 10;
     Trial.current_conversations := 1 |}.

Definition at_checkout : Env := Scenario.env Scenario.T "APPROVED" 200.

End CheckoutScenario.

Module CancellationScenario.
Import Scenario.

(** The store of the active subscription 7, never cancelled. *)
Definition store : Store :=
  {| db := LedgerScenario.active_world; cancelled_at := fun _ => None |}.

(** The user cancels ten days before the period ends and reactivates a
    day later. *)
Definition at_cancellation : Env := env (T - days 10) "APPROVED" 200.
Definition at_reactivation : Env := env (T - days 9) "APPROVED" 200.

Definition confirmed (_ : Subscription.t) : bool := true.

End CancellationScenario.

Module RetryScenario.
Import Scenario.

(** The gateway declines every charge and reports every transaction
    declined. *)
Definition declining : Env :=
  {| now := T + 100; time := T + 100; sha256 := digest;
     events_secret := "events-secret";
     chatwoot_patch := fun _ => Some 200;
     create_recurring_transaction := fun _ => Raised RequestError;
     create_transaction := fun _ =>
       Some {| GatewayTx.id := Some "tx-100";
               GatewayTx.status := Some "DECLINED" |};
     get_transaction := fun _ _ =>
       Some {| GatewayTx.id := Some "tx-100";
               GatewayTx.status := Some "DECLINED" |} |}.

End RetryScenario.

(* ================================================================== *)
(** * Properties *)
(* ================================================================== *)

(** ** Discount campaigns *)

Lemma py_min_Qmin (a b : Q) : (DiscountCampaign.py_min a b == Qmin a b)%Q.
Proof.
  unfold DiscountCampaign.py_min.
  destruct (Qle_bool a b) eqn:E.
  - apply Qle_bool_iff in E. symmetry. apply Q.min_l. exact E.
  - assert (H : (b <= a)%Q).
    { destruct (Qlt_le_dec b a) as [L | L].
      - apply Qlt_le_weak. exact L.
      - apply Qle_bool_iff in L. congruence. }
    symmetry. apply Q.min_r. exact H.
Qed.

Lemma py_min_le_r (a b : Q) : (DiscountCampaign.py_min a b <= b)%Q.
Proof.
  rewrite py_min_Qmin. apply Q.le_min_r.
Qed.

(** C9. For every non-negative original price, a fixed-amount campaign
    discounts [min(discount_value, original_price)], so the payable amount
    [original_price - discount] is not negative; a percentage campaign
    whose [discount_value] is 100 discounts exactly the original price, so
    the payable amount is zero. *)
Theorem C9_discount_bound (c : DiscountCampaign.t) (original_price : Q) :
  (0 <= original_price)%Q ->
  (DiscountCampaign.discount_type c = DiscountCampaign.fixed ->
     (DiscountCampaign.calculate_discount c original_price
        == Qmin (DiscountCampaign.discount_value c) original_price)%Q
     /\ (0 <= original_price
              - DiscountCampaign.calculate_discount c original_price)%Q)
  /\ (DiscountCampaign.discount_type c = DiscountCampaign.percentage ->
      (DiscountCampaign.discount_value c == 100)%Q ->
      (DiscountCampaign.calculate_discount c original_price
         == original_price)%Q
      /\ (original_price
          - DiscountCampaign.calculate_discount c original_price == 0)%Q).
Proof.
  intros _. unfold DiscountCampaign.calculate_discount. split.
  - intros ->. split.
    + apply py_min_Qmin.
    + pose proof (py_min_le_r (DiscountCampaign.discount_value c)
                    original_price) as H.
      unfold Qminus. rewrite <- Qle_minus_iff. exact H.
  - intros -> Hv. rewrite Hv. split.
    + field.
    + field.
Qed.

Lemma C9_discount_bound_witness :
  (0 <= 50000 - DiscountCampaign.calculate_discount
                  {| DiscountCampaign.discount_type := DiscountCampaign.fixed;
                     DiscountCampaign.discount_value := 80000 |} 50000)%Q
  /\ (50000 - DiscountCampaign.calculate_discount
                {| DiscountCampaign.discount_type :=
                     DiscountCampaign.percentage;
                   DiscountCampaign.discount_value := 100 |} 50000 == 0)%Q.
Proof.
  split.
  - refine (proj2 (proj1 (C9_discount_bound
      {| DiscountCampaign.discount_type := DiscountCampaign.fixed;
         DiscountCampaign.discount_value := 80000 |} 50000 _) eq_refl)).
    discriminate.
  - refine (proj2 (proj2 (C9_discount_bound
      {| DiscountCampaign.discount_type := DiscountCampaign.percentage;
         DiscountCampaign.discount_value := 100 |} 50000 _) eq_refl _)).
    + discriminate.
    + reflexivity.
Defined.

(** ** The recurring scheduler *)

Lemma save_storable (s : Subscription.t) (w : World) :
  storable s ->
  Subscriptions.save s w
  = (Ok tt, with_subscriptions
              (map (Subscriptions.replace s) (subscriptions w)) w).
Proof.
  intros (src & Hsrc & Hfit & Hfit'). unfold Subscriptions.save.
  rewrite Hsrc, Hfit, Hfit'. reflexivity.
Qed.

Lemma storable_set_period (a b : Z) (s : Subscription.t) :
  storable s -> storable (Subscription.set_period a b s).
Proof. intros H. exact H. Qed.

Lemma storable_set_status (st : Subscription.status_t) (s : Subscription.t) :
  storable s -> storable (Subscription.set_status st s).
Proof. intros H. exact H. Qed.

Lemma due_spec (env : Env) (s : Subscription.t) :
  due env s = true <->
  Subscription.status s = Subscription.active
  /\ Subscription.payment_source_id s <> None
  /\ date_in_current_timezone (Subscription.current_period_end s)
     <= date_utc (now env).
Proof.
  unfold due. rewrite !andb_true_iff, Z.leb_le, negb_true_iff. split.
  - intros [[Hst Hsrc] Hd]. repeat split.
    + destruct (Subscription.status s); simpl in Hst; congruence.
    + destruct (Subscription.payment_source_id s); simpl in Hsrc; congruence.
    + exact Hd.
  - intros (Hst & Hsrc & Hd). repeat split.
    + rewrite Hst. reflexivity.
    + destruct (Subscription.payment_source_id s); simpl; congruence.
    + exact Hd.
Qed.

(** One loop iteration, computed: the charge is sent, and the row is
    rewritten according to the status the gateway answers with. *)
Lemma charge_one_run (env : Env) (s : Subscription.t) (p : Plan.t)
    (w : World) :
  storable s ->
  charge_one env false s p w =
  (Ok (fst (charge_outcome env s p)),
   with_subscriptions
     (rows_after (snd (charge_outcome env s p)) (subscriptions w))
     (with_charges (recurring_charge env s p :: charges w) w)).
Proof.
  intros Hs.
  unfold charge_one, charge_outcome, scheduler_result, recurring_charge,
    recurring_amount, cycle_days, call_create_recurring_transaction, key.
  destruct (Subscription.billing_cycle s); cbv zeta.
  all: unfold try_except, bind, write, ret, raise; cbn [fst snd].
  all: match goal with
       | |- context [create_recurring_transaction ?e ?c] =>
           destruct (create_recurring_transaction e c) as [[[tid|] [st|]]|x]
       end; cbn [GatewayTx.id GatewayTx.status any_exception]; try reflexivity.
  all: match goal with
       | |- context [in_list ?a ?l] => destruct (in_list a l)
       end.
  all: rewrite save_storable by assumption; reflexivity.
Qed.

Lemma charge_outcome_id (env : Env) (s : Subscription.t) (p : Plan.t)
    (s' : Subscription.t) :
  snd (charge_outcome env s p) = Some s' ->
  Subscription.id s' = Subscription.id s.
Proof.
  unfold charge_outcome.
  destruct (create_recurring_transaction env (recurring_charge env s p))
    as [[[tid|] [st|]]|x]; cbn [snd]; try discriminate.
  destruct (in_list (Some st) ["APPROVED"; "PENDING"]); cbn [snd];
    intros H; inversion H; reflexivity.
Qed.

Lemma filter_replace_other (s' : Subscription.t) (i : Z)
    (rows : list Subscription.t) :
  Subscription.id s' <> i ->
  filter (has_id i) (map (Subscriptions.replace s') rows)
  = filter (has_id i) rows.
Proof.
  intros Hne. induction rows as [|r rows IH]; [reflexivity|].
  cbn [map filter]. rewrite IH. unfold Subscriptions.replace, has_id.
  destruct (Subscription.id r =? Subscription.id s') eqn:E.
  - apply Z.eqb_eq in E.
    assert (H1 : (Subscription.id s' =? i) = false) by (apply Z.eqb_neq; lia).
    assert (H2 : (Subscription.id r =? i) = false) by (apply Z.eqb_neq; lia).
    rewrite H1, H2. reflexivity.
  - reflexivity.
Qed.

Lemma filter_replace_same (s' : Subscription.t) (rows : list Subscription.t) :
  filter (has_id (Subscription.id s')) (map (Subscriptions.replace s') rows)
  = map (fun _ => s') (filter (has_id (Subscription.id s')) rows).
Proof.
  induction rows as [|r rows IH]; [reflexivity|].
  cbn [map filter]. rewrite IH. unfold Subscriptions.replace, has_id.
  destruct (Subscription.id r =? Subscription.id s') eqn:E.
  - rewrite Z.eqb_refl. reflexivity.
  - rewrite E. reflexivity.
Qed.

Lemma find_filter {A} (p : A -> bool) (l : list A) :
  find p l = hd_error (filter p l).
Proof.
  induction l as [|a l IH]; [reflexivity|].
  cbn. destruct (p a); [reflexivity | exact IH].
Qed.

Lemma rows_after_other (saved : option Subscription.t) (j : Subscription.t)
    (i : Z) (rows : list Subscription.t) :
  (forall s', saved = Some s' -> Subscription.id s' = Subscription.id j) ->
  Subscription.id j <> i ->
  filter (has_id i) (rows_after saved rows) = filter (has_id i) rows.
Proof.
  intros Hid Hne. destruct saved as [s'|]; [|reflexivity].
  cbn. apply filter_replace_other. rewrite (Hid s' eq_refl). exact Hne.
Qed.

(** The loop, by induction on the rows to charge: it runs to its end, and
    the rows of a given primary key are only rewritten by the iteration
    of the subscription with that key. *)
Lemma charge_all_rows (env : Env) (l : list Subscription.t) :
  forall w,
  NoDup (map Subscription.id l) ->
  (forall j, In j l ->
     storable j
     /\ (exists c, find (fun c => Company.id c =? Subscription.company j)
                     (companies w) = Some c)
     /\ (exists p, find (fun p => Plan.id p =? Subscription.plan j)
                     (plans w) = Some p)) ->
  exists results w',
    charge_all env false l w = (Ok results, w')
    /\ same_but_subscriptions w w'
    /\ (forall i, (forall j, In j l -> Subscription.id j <> i) ->
          filter (has_id i) (subscriptions w')
          = filter (has_id i) (subscriptions w))
    /\ (forall s p, In s l ->
          find (fun p => Plan.id p =? Subscription.plan s) (plans w) = Some p ->
          In (fst (charge_outcome env s p)) results
          /\ filter (has_id (Subscription.id s)) (subscriptions w')
             = filter (has_id (Subscription.id s))
                 (rows_after (snd (charge_outcome env s p))
                    (subscriptions w))).
Proof.
  induction l as [|j rest IH]; intros w Hnd Hok.
  - exists [], w. split; [reflexivity|]. split; [|split].
    + unfold same_but_subscriptions. repeat split.
    + reflexivity.
    + intros t p [].
  - cbn [map] in Hnd. inversion Hnd as [|? ? Hnotin Hnd']; subst.
    destruct (Hok j (or_introl eq_refl)) as (Hsj & (c & Hc) & (pj & Hpj)).
    set (w1 := with_subscriptions
                 (rows_after (snd (charge_outcome env j pj)) (subscriptions w))
                 (with_charges (recurring_charge env j pj :: charges w) w)).
    destruct (IH w1 Hnd') as (results & w' & Hrun & Hframe & Hoth & Hin).
    { intros k Hk. destruct (Hok k (or_intror Hk)) as (H1 & H2 & H3).
      repeat split; assumption. }
    exists (fst (charge_outcome env j pj) :: results), w'.
    assert (Hrest_ne : forall k, In k rest ->
                                 Subscription.id k <> Subscription.id j).
    { intros k Hk Heq. apply Hnotin. rewrite <- Heq.
      apply in_map. exact Hk. }
    split; [|split; [|split]].
    + cbn [charge_all]. unfold bind at 1. unfold company_of, bind, read.
      cbv beta iota. rewrite Hc. unfold ret. cbv beta iota.
      unfold plan_of, bind, read. cbv beta iota. rewrite Hpj.
      unfold ret. cbv beta iota.
      rewrite (charge_one_run env j pj w Hsj).
      fold w1. rewrite Hrun. reflexivity.
    + destruct Hframe as (F1 & F2 & F3 & F4 & F5 & F6).
      unfold same_but_subscriptions.
      rewrite F1, F2, F3, F4, F5, F6. repeat split.
    + intros i Hi. rewrite Hoth by (intros k Hk; apply Hi; right; exact Hk).
      cbn. apply (rows_after_other _ j).
      * intros s' Hs'. eapply charge_outcome_id. exact Hs'.
      * apply Hi. left. reflexivity.
    + intros t p [<- | Ht] Hp.
      * assert (p = pj) by congruence. subst p. split; [left; reflexivity|].
        rewrite Hoth by exact Hrest_ne. reflexivity.
      * destruct (Hin t p Ht Hp) as [Hres Hrows]. split; [right; exact Hres|].
        rewrite Hrows.
        destruct (snd (charge_outcome env t p)) as [t'|] eqn:Et.
        -- cbn [rows_after].
           assert (Hid : Subscription.id t' = Subscription.id t)
             by (eapply charge_outcome_id; exact Et).
           rewrite <- Hid. rewrite !filter_replace_same. f_equal.
           rewrite Hid. cbn.
           apply (rows_after_other _ j).
           ++ intros s'' Hs''. eapply charge_outcome_id. exact Hs''.
           ++ intros Heq. apply (Hrest_ne t Ht). symmetry. exact Heq.
        -- cbn [rows_after]. cbn.
           apply (rows_after_other _ j).
           ++ intros s'' Hs''. eapply charge_outcome_id. exact Hs''.
           ++ intros Heq. apply (Hrest_ne t Ht). symmetry. exact Heq.
Qed.

(** Selecting rows keeps their primary keys distinct. *)
Lemma selected_ids_distinct (keep : Subscription.t -> bool)
    (rows : list Subscription.t) :
  NoDup (map Subscription.id rows) ->
  NoDup (map Subscription.id (filter keep rows)).
Proof.
  induction rows as [|r rows IH]; cbn [map filter]; intros Hnd.
  - constructor.
  - pose proof (NoDup_cons_iff (Subscription.id r)
                  (map Subscription.id rows)) as Hc.
    apply Hc in Hnd. destruct Hnd as [Hfresh Hrest].
    destruct (keep r); [|exact (IH Hrest)].
    cbn [map]. constructor; [|exact (IH Hrest)].
    rewrite in_map_iff. intros (r' & Hid & Hr').
    apply filter_In in Hr'. apply Hfresh. rewrite <- Hid.
    apply in_map. tauto.
Qed.

Lemma filter_has_id_none (l : list Subscription.t) (i : Z) :
  ~ In i (map Subscription.id l) -> filter (has_id i) l = [].
Proof.
  induction l as [|a l IH]; cbn; intros Hnotin; [reflexivity|].
  unfold has_id at 1. destruct (Subscription.id a =? i) eqn:E.
  - exfalso. apply Hnotin. left. apply Z.eqb_eq. exact E.
  - apply IH. intros Hmem. apply Hnotin. right. exact Hmem.
Qed.

Lemma filter_has_id_unique (l : list Subscription.t) (s : Subscription.t) :
  NoDup (map Subscription.id l) -> In s l ->
  filter (has_id (Subscription.id s)) l = [s].
Proof.
  induction l as [|a l IH]; cbn; intros Hnd Hin; [contradiction|].
  inversion Hnd as [|? ? Hnotin Hnd']; subst.
  destruct Hin as [-> | Hin].
  - unfold has_id at 1. rewrite Z.eqb_refl. f_equal.
    apply filter_has_id_none. exact Hnotin.
  - unfold has_id at 1.
    destruct (Subscription.id a =? Subscription.id s) eqn:E.
    + exfalso. apply Hnotin. apply Z.eqb_eq in E. rewrite E.
      apply in_map. exact Hin.
    + apply IH; assumption.
Qed.

Lemma selected_run (env : Env) (subscription_ids : list Z) (w : World) :
  subscriptions_to_charge env subscription_ids w
  = (Ok (selected env subscription_ids w), w).
Proof. destruct subscription_ids; reflexivity. Qed.

Lemma selected_rows (env : Env) (subscription_ids : list Z) (w : World) :
  exists keep, selected env subscription_ids w
               = filter keep (subscriptions w).
Proof.
  destruct subscription_ids as [|i ids].
  - exists (due env). reflexivity.
  - exists (listed (i :: ids)). reflexivity.
Qed.

Lemma selected_active (env : Env) (subscription_ids : list Z) (w : World)
    (s : Subscription.t) :
  In s (selected env subscription_ids w) ->
  Subscription.status s = Subscription.active.
Proof.
  destruct subscription_ids as [|i ids]; cbn [selected]; intros H;
    apply filter_In in H; destruct H as [_ H].
  - apply due_spec in H. tauto.
  - unfold listed in H. rewrite !andb_true_iff in H.
    destruct H as [[_ H] _].
    destruct (Subscription.status s); simpl in H; congruence.
Qed.

(** A full run of the scheduler on a consistent database: it answers
    with one result per selected subscription, and the row of each
    selected subscription is the one its own iteration saved. *)
Lemma scheduler_run (env : Env) (subscription_ids : list Z) (w : World) :
  consistent w ->
  exists results w',
    process_recurring_payments env "POST" (Some (subscription_ids, false)) w
    = (Ok (SchedulerOk (summarize results) results false), w')
    /\ same_but_subscriptions w w'
    /\ forall s p,
         In s (selected env subscription_ids w) ->
         find (fun p => Plan.id p =? Subscription.plan s) (plans w) = Some p ->
         In (fst (charge_outcome env s p)) results
         /\ row_of w' (Subscription.id s)
            = Some (match snd (charge_outcome env s p) with
                    | Some s' => s'
                    | None => s
                    end).
Proof.
  intros [Hnd Hrows].
  destruct (selected_rows env subscription_ids w) as [keep Hkeep].
  destruct (charge_all_rows env (selected env subscription_ids w) w)
    as (results & w' & Hrun & Hframe & _ & Hin).
  { rewrite Hkeep. apply selected_ids_distinct. exact Hnd. }
  { intros j Hj. apply Hrows. rewrite Hkeep in Hj.
    apply filter_In in Hj. tauto. }
  exists results, w'. split; [|split; [exact Hframe|]].
  - unfold process_recurring_payments.
    change (("POST" =? "POST")%string) with true. cbn [negb].
    unfold try_except. unfold bind at 1. rewrite selected_run.
    unfold bind. rewrite Hrun. reflexivity.
  - intros s p Hs Hp. destruct (Hin s p Hs Hp) as [Hres Hfil].
    split; [exact Hres|].
    unfold row_of. rewrite find_filter. fold (has_id (Subscription.id s)).
    rewrite Hfil.
    assert (Hmem : In s (subscriptions w)).
    { rewrite Hkeep in Hs. apply filter_In in Hs. tauto. }
    destruct (snd (charge_outcome env s p)) as [s'|] eqn:Es.
    + cbn [rows_after].
      rewrite <- (charge_outcome_id env s p s' Es).
      rewrite filter_replace_same.
      rewrite (charge_outcome_id env s p s' Es).
      rewrite (filter_has_id_unique _ _ Hnd Hmem). reflexivity.
    + cbn [rows_after].
      rewrite (filter_has_id_unique _ _ Hnd Hmem). reflexivity.
Qed.


Lemma charge_outcome_answer (env : Env) (s : Subscription.t) (p : Plan.t)
    (tid st : string) :
  create_recurring_transaction env (recurring_charge env s p)
  = Ok {| GatewayTx.id := Some tid; GatewayTx.status := Some st |} ->
  charge_outcome env s p
  = if in_list (Some st) ["APPROVED"; "PENDING"] then
      (scheduler_result s p Result.success (Some tid),
       Some (Subscription.set_period (now env)
               (now env + days (cycle_days s)) s))
    else
      (scheduler_result s p Result.failed (Some tid),
       Some (Subscription.set_status Subscription.past_due s)).
Proof.
  intros H. unfold charge_outcome. rewrite H. reflexivity.
Qed.

Lemma in_list_approved_pending (st : string) :
  in_list (Some st) ["APPROVED"; "PENDING"] = true
  <-> st = "APPROVED" \/ st = "PENDING".
Proof.
  unfold in_list. cbn [existsb opt_string_eqb].
  rewrite !orb_true_iff, !String.eqb_eq. intuition congruence.
Qed.


Lemma scenario_consistent (s : Subscription.status_t) (e : Z) (src : string) :
  fits 255 src = true ->
  consistent (Scenario.world [Scenario.subscription s e src]).
Proof.
  intros Hfit. split.
  - cbn. constructor; [intros [] | constructor].
  - intros r [<- | []]. split; [|split].
    + exists src. split; [reflexivity|]. split; [exact Hfit | reflexivity].
    + eexists. reflexivity.
    + eexists. reflexivity.
Qed.


(** ** C4: the scheduler's own handling of an approved monthly charge *)

(** C4, counterexample.  The scheduler fires one hour after the period end
    [T] and the gateway answers APPROVED: no invoice exists after the run
    and the new period end is 30 days after the time of the charge, not
    after [T]. *)
Lemma C4_counterexample :
  let env := Scenario.env SchedulerScenario.fired_at "APPROVED" 200 in
  let w := SchedulerScenario.due_world in
  let w' := snd (process_recurring_payments env "POST" (Some ([], false)) w) in
  invoices w' = []
  /\ row_of w' 7
     = Some (Subscription.set_period (Scenario.T + 3600)
               (Scenario.T + 3600 + days 30)
               SchedulerScenario.due_subscription)
  /\ ~ C4_as_stated w w' SchedulerScenario.due_subscription Scenario.plan.
Proof.
  cbv zeta. split; [reflexivity|]. split; [reflexivity|].
  intros [(inv & Hinv & _) _]. vm_compute in Hinv. discriminate.
Qed.

(** C4, amended.  When the scheduler charges a due monthly subscription
    and the gateway answers APPROVED, the run reports the item as a success
    for the plan's monthly price, creates no invoice, and writes
    [current_period_start = now], [current_period_end = now + 30 days] (from
    the time of the charge); the status stays active. *)
Theorem C4_scheduler_approved_monthly (env : Env)
    (subscription_ids : list Z) (w : World)
    (s : Subscription.t) (p : Plan.t) (tid : string) :
  consistent w ->
  In s (selected env subscription_ids w) ->
  Subscription.billing_cycle s = Subscription.monthly ->
  find (fun p => Plan.id p =? Subscription.plan s) (plans w) = Some p ->
  create_recurring_transaction env (recurring_charge env s p)
  = Ok {| GatewayTx.id := Some tid; GatewayTx.status := Some "APPROVED" |} ->
  exists results w' s',
    process_recurring_payments env "POST" (Some (subscription_ids, false)) w
    = (Ok (SchedulerOk (summarize results) results false), w')
    /\ In {| Result.subscription_id := Subscription.id s;
             Result.amount := Some (Plan.price_monthly p);
             Result.status := Result.success;
             Result.transaction_id := Some tid |} results
    /\ invoices w' = invoices w
    /\ row_of w' (Subscription.id s) = Some s'
    /\ Subscription.current_period_start s' = now env
    /\ Subscription.current_period_end s' = now env + days 30
    /\ Subscription.status s' = Subscription.active.
Proof.
  intros Hw Hs Hm Hp Hgw.
  destruct (scheduler_run env subscription_ids w Hw)
    as (results & w' & Hrun & Hframe & Hrows).
  destruct (Hrows s p Hs Hp) as [Hres Hrow].
  rewrite (charge_outcome_answer env s p tid "APPROVED" Hgw) in Hres, Hrow.
  change (in_list (Some "APPROVED") ["APPROVED"; "PENDING"]) with true
    in Hres, Hrow.
  cbn [fst snd] in Hres, Hrow.
  exists results, w',
    (Subscription.set_period (now env) (now env + days (cycle_days s)) s).
  split; [exact Hrun|]. split.
  - unfold scheduler_result, recurring_amount in Hres. rewrite Hm in Hres.
    exact Hres.
  - split; [apply Hframe|]. split; [exact Hrow|]. split; [reflexivity|].
    split.
    + cbn. unfold cycle_days. rewrite Hm. reflexivity.
    + cbn. apply (selected_active env subscription_ids w s Hs).
Qed.

Lemma C4_scheduler_approved_monthly_witness :
  exists results w' s',
    process_recurring_payments
      (Scenario.env SchedulerScenario.fired_at "APPROVED" 200) "POST"
      (Some ([], false)) SchedulerScenario.due_world
    = (Ok (SchedulerOk (summarize results) results false), w')
    /\ In {| Result.subscription_id := 7;
             Result.amount := Some 50000%Q;
             Result.status := Result.success;
             Result.transaction_id := Some "tx-100" |} results
    /\ invoices w' = []
    /\ row_of w' 7 = Some s'
    /\ Subscription.current_period_start s' = SchedulerScenario.fired_at
    /\ Subscription.current_period_end s'
       = SchedulerScenario.fired_at + days 30
    /\ Subscription.status s' = Subscription.active.
Proof.
  apply (C4_scheduler_approved_monthly
           (Scenario.env SchedulerScenario.fired_at "APPROVED" 200) []
           SchedulerScenario.due_world SchedulerScenario.due_subscription
           Scenario.plan "tx-100").
  - apply scenario_consistent. reflexivity.
  - vm_compute. left. reflexivity.
  - reflexivity.
  - reflexivity.
  - reflexivity.
Defined.

(** ** C8: which subscriptions the scheduler selects *)

(** C8, counterexample.  (1) A subscription whose period ends one hour
    after the scheduler fires is selected: the filter compares calendar
    dates.  (2) A subscription whose payment source column is the empty
    string is selected and a charge is sent for it. *)
Lemma C8_counterexample :
  (let env := Scenario.env Scenario.T "APPROVED" 200 in
   let w := Scenario.world [SchedulerScenario.not_yet_due] in
   let w' := snd (process_recurring_payments env "POST" (Some ([], false)) w) in
   filter (due env) (subscriptions w) = [SchedulerScenario.not_yet_due]
   /\ now env < Subscription.current_period_end SchedulerScenario.not_yet_due
   /\ ~ C8_as_stated env w w')
  /\ (let env := Scenario.env Scenario.T "APPROVED" 200 in
      let w := Scenario.world [SchedulerScenario.no_payment_source] in
      let w' :=
        snd (process_recurring_payments env "POST" (Some ([], false)) w) in
      filter (due env) (subscriptions w) = [SchedulerScenario.no_payment_source]
      /\ map Charge.payment_source_id (charges w') = [Some ""]
      /\ ~ C8_as_stated env w w').
Proof.
  split; cbv zeta.
  - split; [reflexivity|]. split; [reflexivity|].
    intros [Hsel _].
    destruct (Hsel SchedulerScenario.not_yet_due) as (_ & _ & Hle).
    + vm_compute. left. reflexivity.
    + vm_compute in Hle. apply Hle. reflexivity.
  - split; [reflexivity|]. split; [reflexivity|].
    intros [Hsel _].
    destruct (Hsel SchedulerScenario.no_payment_source) as (_ & Hsrc & _).
    + vm_compute. left. reflexivity.
    + vm_compute in Hsrc. discriminate.
Qed.

Lemma date_upper_bound (t today : Z) :
  date_in_current_timezone t <= today -> t < (today + 1) * 86400 + hours 5.
Proof.
  unfold date_in_current_timezone, bogota_utc_offset, hours. intros H.
  pose proof (Z.mul_succ_div_gt (t + - (5 * 3600)) 86400 ltac:(lia)) as Hd.
  lia.
Qed.

(** C8, amended.  Every subscription the scheduler selects when no id
    list is given is active, has a payment source id that is not NULL, and
    a period end whose calendar date (in the configured time zone) is not
    after today's date; hence the period ends before the end of today
    (UTC) plus five hours, possibly after now. *)
Theorem C8_scheduler_selection (env : Env) (w w' : World)
    (to_charge : list Subscription.t) :
  subscriptions_to_charge env [] w = (Ok to_charge, w') ->
  forall s, In s to_charge ->
    Subscription.status s = Subscription.active
    /\ Subscription.payment_source_id s <> None
    /\ date_in_current_timezone (Subscription.current_period_end s)
       <= date_utc (now env)
    /\ Subscription.current_period_end s
       < (date_utc (now env) + 1) * 86400 + hours 5.
Proof.
  unfold subscriptions_to_charge, read. intros H s Hs.
  inversion H; subst. apply filter_In in Hs. destruct Hs as [_ Hd].
  apply due_spec in Hd. destruct Hd as (H1 & H2 & H3).
  repeat split; try assumption. apply date_upper_bound. exact H3.
Qed.

Lemma C8_scheduler_selection_witness :
  Subscription.status SchedulerScenario.not_yet_due = Subscription.active
  /\ Subscription.payment_source_id SchedulerScenario.not_yet_due <> None
  /\ date_in_current_timezone
       (Subscription.current_period_end SchedulerScenario.not_yet_due)
     <= date_utc Scenario.T
  /\ Subscription.current_period_end SchedulerScenario.not_yet_due
     < (date_utc Scenario.T + 1) * 86400 + hours 5.
Proof.
  apply (C8_scheduler_selection (Scenario.env Scenario.T "APPROVED" 200)
           (Scenario.world [SchedulerScenario.not_yet_due])
           (Scenario.world [SchedulerScenario.not_yet_due])
           [SchedulerScenario.not_yet_due]).
  - reflexivity.
  - left. reflexivity.
Defined.

(** ** Frame properties of the reconciliation code *)

Lemma quiet_ret {A} (a : A) : quiet (ret a).
Proof. intros w. split; reflexivity. Qed.

Lemma quiet_raise {A} (e : exn) : quiet (@raise A e).
Proof. intros w. split; reflexivity. Qed.

Lemma quiet_read {A} (f : World -> A) : quiet (read f).
Proof. intros w. split; reflexivity. Qed.

Lemma quiet_bind {A B} (m : M A) (k : A -> M B) :
  quiet m -> (forall a, quiet (k a)) -> quiet (bind m k).
Proof.
  intros Hm Hk w. unfold bind. specialize (Hm w).
  destruct (m w) as [[a|e] w1]; cbn [snd] in *.
  - destruct (Hk a w1) as [H1 H2]. destruct Hm as [H3 H4].
    split; congruence.
  - exact Hm.
Qed.

Lemma quiet_try_except {A} (m : M A) (handles : exn -> bool)
    (h : exn -> M A) :
  quiet m -> (forall e, quiet (h e)) -> quiet (try_except m handles h).
Proof.
  intros Hm Hh w. unfold try_except. specialize (Hm w).
  destruct (m w) as [[a|e] w1]; cbn [snd] in *.
  - exact Hm.
  - destruct (handles e); [|exact Hm].
    destruct (Hh e w1) as [H1 H2]. destruct Hm as [H3 H4].
    split; congruence.
Qed.

Lemma quiet_billing {A} (m : M A) : quiet m -> billing m.
Proof.
  intros Hm w. destruct (Hm w) as [H1 H2]. split; [exact H1|].
  left. exact H2.
Qed.

Lemma billing_bind_quiet {A B} (m : M A) (k : A -> M B) :
  billing m -> (forall a, quiet (k a)) -> billing (bind m k).
Proof.
  intros Hm Hk w. unfold bind. specialize (Hm w).
  destruct (m w) as [[a|e] w1]; cbn [snd] in *.
  - destruct (Hk a w1) as [H1 H2]. destruct Hm as [H3 H4].
    split; [congruence|]. unfold invoices_grow in *. rewrite H2. exact H4.
  - exact Hm.
Qed.

Lemma quiet_bind_billing {A B} (m : M A) (k : A -> M B) :
  quiet m -> (forall a, billing (k a)) -> billing (bind m k).
Proof.
  intros Hm Hk w. unfold bind. specialize (Hm w).
  destruct (m w) as [[a|e] w1]; cbn [snd] in *.
  - destruct (Hk a w1) as [H1 H2]. destruct Hm as [H3 H4].
    split; [congruence|]. unfold invoices_grow in *. rewrite <- H4. exact H2.
  - destruct Hm as [H1 H2]. split; [exact H1 | left; exact H2].
Qed.

Lemma billing_try_except {A} (m : M A) (handles : exn -> bool)
    (h : exn -> M A) :
  billing m -> (forall e, quiet (h e)) -> billing (try_except m handles h).
Proof.
  intros Hm Hh w. unfold try_except. specialize (Hm w).
  destruct (m w) as [[a|e] w1]; cbn [snd] in *.
  - exact Hm.
  - destruct (handles e); [|exact Hm].
    destruct (Hh e w1) as [H1 H2]. destruct Hm as [H3 H4].
    split; [congruence|]. unfold invoices_grow in *. rewrite H2. exact H4.
Qed.

Lemma quiet_save (s : Subscription.t) : quiet (Subscriptions.save s).
Proof.
  intros w. unfold Subscriptions.save.
  destruct (Subscription.payment_source_id s); [|split; reflexivity].
  destruct (fits 255 (Subscription.wompi_subscription_id s) && fits 255 s0);
    split; reflexivity.
Qed.

Lemma quiet_notify (env : Env) (c : Company.t) :
  quiet (notify_account_reactivation env c).
Proof.
  intros w. unfold notify_account_reactivation.
  destruct (Company.chatwoot_account_id c) as [[|a|a]|]; cbn;
    try (split; reflexivity).
  all: destruct (chatwoot_patch env _); split; reflexivity.
Qed.

Lemma quiet_company_of (s : Subscription.t) : quiet (company_of s).
Proof.
  apply quiet_bind; [apply quiet_read|].
  intros [c|]; [apply quiet_ret | apply quiet_raise].
Qed.

Lemma billing_create_paid (env : Env) (s : Subscription.t) (a : option Z)
    (t r : option string) : billing (Invoices.create_paid env s a t r).
Proof.
  intros w. unfold Invoices.create_paid.
  destruct a as [cents|], t as [tid|], r as [ref|];
    try (split; [reflexivity | left; reflexivity]).
  destruct (negb _); [split; [reflexivity | left; reflexivity]|].
  unfold bind, Invoices.first_by_transaction_id, read, write, ret, raise.
  cbn [fst snd].
  destruct (find _ (invoices w)); cbn [snd].
  - split; [reflexivity | left; reflexivity].
  - split; [reflexivity|]. right. eexists. reflexivity.
Qed.

Create HintDb frame.

#[local] Hint Resolve quiet_ret quiet_raise quiet_read quiet_save
  quiet_notify quiet_company_of billing_create_paid : frame.

Lemma quiet_first (p : Subscription.t -> bool) : quiet (Subscriptions.first p).
Proof. apply quiet_read. Qed.

Lemma quiet_activate_pending (s : Subscription.t) : quiet (activate_pending s).
Proof.
  unfold activate_pending.
  destruct (Subscription.status_eqb _ _); auto with frame.
  apply quiet_bind; auto with frame.
Qed.

Lemma billing_invoice_and_extend (env : Env) (tx : Transaction.t)
    (s : Subscription.t) : billing (invoice_and_extend env tx s).
Proof.
  unfold invoice_and_extend.
  apply quiet_bind_billing; [apply quiet_read|].
  intros [i|]; [apply quiet_billing; auto with frame|].
  apply billing_bind_quiet; [auto with frame|].
  intros _. destruct (reference_has _ _); auto with frame.
Qed.

Lemma billing_settle_found (env : Env) (tx : Transaction.t)
    (s : Subscription.t) : billing (settle_found env tx s).
Proof.
  unfold settle_found.
  apply quiet_bind_billing; [apply quiet_activate_pending|].
  intros s1. apply quiet_bind_billing; [apply quiet_read|].
  intros [i|]; [apply quiet_billing; auto with frame|].
  apply billing_bind_quiet; [auto with frame|].
  intros _. destruct (reference_has "LYVIO-RETRY-" _).
  - apply quiet_bind; [|auto with frame].
    destruct (Subscription.status_eqb _ _); [|auto with frame].
    apply quiet_bind; [auto with frame|]. intros _.
    apply quiet_bind; [auto with frame|]. intros c.
    apply quiet_bind; auto with frame.
  - destruct (reference_has _ _); auto with frame.
Qed.

Lemma billing_settle_payment_source (env : Env) (tx : Transaction.t)
    (s : Subscription.t) : billing (settle_payment_source env tx s).
Proof.
  unfold settle_payment_source.
  apply quiet_bind_billing; [apply quiet_activate_pending|].
  intros s1. apply billing_invoice_and_extend.
Qed.

Lemma billing_settle_relinked (env : Env) (tx : Transaction.t)
    (s : Subscription.t) : billing (settle_relinked env tx s).
Proof.
  unfold settle_relinked.
  destruct (Transaction.id tx); [|apply quiet_billing; auto with frame].
  apply quiet_bind_billing; [auto with frame|].
  intros _. apply billing_invoice_and_extend.
Qed.

Lemma quiet_by_wompi_subscription_id (tx : Transaction.t) :
  quiet (by_wompi_subscription_id tx).
Proof. apply quiet_read. Qed.

Lemma quiet_by_recurring_reference (tx : Transaction.t) :
  quiet (by_recurring_reference tx).
Proof.
  unfold by_recurring_reference.
  destruct (Transaction.reference tx); [|auto with frame].
  destruct (_ && _); [|auto with frame].
  destruct (subscription_id_of_reference _); [apply quiet_read|auto with frame].
Qed.

Lemma quiet_by_payment_source (tx : Transaction.t) :
  quiet (by_payment_source tx).
Proof.
  unfold by_payment_source.
  destruct (Py.truthy _); [apply quiet_read | auto with frame].
Qed.

Lemma quiet_by_customer_email (env : Env) (tx : Transaction.t) :
  quiet (by_customer_email env tx).
Proof.
  unfold by_customer_email.
  destruct (Transaction.customer_email tx); [|auto with frame].
  destruct (Py.truthy _); [apply quiet_read | auto with frame].
Qed.

Lemma quiet_by_first_payment_reference (env : Env) (tx : Transaction.t) :
  quiet (by_first_payment_reference env tx).
Proof.
  unfold by_first_payment_reference.
  destruct (Transaction.reference tx); [|auto with frame].
  destruct (Py.truthy _); [|auto with frame].
  destruct (_ && _); [|auto with frame].
  destruct (Py.item _ 2); [|auto with frame].
  destruct (Py.int _); [|auto with frame].
  destruct (Py.item _ 3); [|auto with frame].
  destruct (Py.int _); [|auto with frame].
  apply quiet_bind; [apply quiet_read|].
  intros [[uid [c|]]|]; [apply quiet_read | auto with frame | auto with frame].
Qed.

(** Reconciliation never touches the ledger and creates at most one
    invoice. *)
Lemma billing_reconcile_approved (env : Env) (tx : Transaction.t) :
  billing (reconcile_approved env tx).
Proof.
  unfold reconcile_approved.
  apply quiet_bind_billing; [apply quiet_by_wompi_subscription_id|].
  intros o1. apply quiet_bind_billing.
  { destruct o1; [auto with frame | apply quiet_by_recurring_reference]. }
  intros [s|]; [apply billing_settle_found|].
  apply quiet_bind_billing; [apply quiet_by_payment_source|].
  intros [s|]; [apply billing_settle_payment_source|].
  apply quiet_bind_billing; [apply quiet_by_customer_email|].
  intros [s|]; [apply billing_settle_relinked|].
  apply billing_try_except; [|auto with frame].
  apply quiet_bind_billing; [apply quiet_by_first_payment_reference|].
  intros [s|]; [apply billing_settle_relinked | apply quiet_billing;
                                                auto with frame].
Qed.

(** ** The ledger step *)

Lemma readonly_ret {A} (a : A) : readonly (ret a).
Proof. intros w. exists a. reflexivity. Qed.

Lemma readonly_read {A} (f : World -> A) : readonly (read f).
Proof. intros w. exists (f w). reflexivity. Qed.

Lemma readonly_bind {A B} (m : M A) (k : A -> M B) :
  readonly m -> (forall a, readonly (k a)) -> readonly (bind m k).
Proof.
  intros Hm Hk w. destruct (Hm w) as [a Ha]. destruct (Hk a w) as [b Hb].
  exists b. unfold bind. rewrite Ha. exact Hb.
Qed.

Lemma readonly_processed_subscription_of (tx : Transaction.t) :
  readonly (processed_subscription_of tx).
Proof.
  unfold processed_subscription_of. apply readonly_bind.
  - apply readonly_read.
  - intros [s|]; [destruct (Transaction.reference tx); apply readonly_ret|].
    destruct (Transaction.reference tx) as [r|]; [|apply readonly_ret].
    destruct (_ && _); [|apply readonly_ret].
    destruct (subscription_id_of_reference r);
      [apply readonly_read | apply readonly_ret].
Qed.

(** Replacing a ledger row by a row with the same keys keeps it the row
    of its event id. *)
Lemma find_replace_event (eid : string) (e e' : WebhookEvent.t)
    (rows : list WebhookEvent.t) :
  find (WebhookEvents.by_event_id eid) rows = Some e ->
  WebhookEvent.id e' = WebhookEvent.id e ->
  WebhookEvent.event_id e' = eid ->
  find (WebhookEvents.by_event_id eid) (map (WebhookEvents.replace e') rows)
  = Some e'.
Proof.
  intros Hfind Hid Heid.
  assert (He' : WebhookEvents.by_event_id eid e' = true).
  { unfold WebhookEvents.by_event_id. rewrite Heid. apply String.eqb_refl. }
  induction rows as [|r rows IH]; [discriminate|].
  cbn [map find] in *.
  assert (Hr : WebhookEvents.replace e' r
               = if WebhookEvent.id r =? WebhookEvent.id e' then e' else r)
    by reflexivity.
  rewrite Hr. clear Hr.
  destruct (WebhookEvents.by_event_id eid r) eqn:Er.
  - inversion Hfind; subst r. rewrite Hid, Z.eqb_refl, He'. reflexivity.
  - destruct (WebhookEvent.id r =? WebhookEvent.id e').
    + rewrite He'. reflexivity.
    + rewrite Er. apply IH. exact Hfind.
Qed.

Lemma find_by_event_id_some (eid : string) (e : WebhookEvent.t)
    (rows : list WebhookEvent.t) :
  find (WebhookEvents.by_event_id eid) rows = Some e ->
  WebhookEvent.event_id e = eid.
Proof.
  intros H. apply find_some in H. destruct H as [_ H].
  apply String.eqb_eq. exact H.
Qed.

(** The view on an authentic delivery is the ledger step followed by the
    processing of the event. *)
Lemma webhook_authentic (env : Env) (request : Request) (ed : EventData.t)
    (sig eid : string) (w : World) :
  authentic env request ed sig eid ->
  wompi_webhook env request w
  = try_except
      (f <- ledger_step env ed sig eid ;;
       match f with
       | Return r => ret r
       | Continue webhook_event =>
           try_except (process env request ed webhook_event) any_exception
             (on_error env request webhook_event)
       end)
      any_exception (on_error env request None) w.
Proof.
  intros (Hm & Hed & Hsig & Hts & Hv & Hid & Hte).
  unfold wompi_webhook, ingest.
  rewrite Hm, String.eqb_refl, Hed, Hsig, Hts, Hv, Hid, Hte.
  reflexivity.
Qed.

(** A delivery for an event whose row is processed or duplicate. *)
Lemma webhook_duplicate (env : Env) (request : Request) (ed : EventData.t)
    (sig eid : string) (w : World) :
  authentic env request ed sig eid ->
  settled w eid ->
  exists e,
    wompi_webhook env request w
    = (Ok (TextResponse "OK - Already processed" 200),
       with_webhook_events
         (map (WebhookEvents.replace e) (webhook_events w)) w)
    /\ WebhookEvent.status e = WebhookEvent.duplicate
    /\ ledger_status
         (with_webhook_events
            (map (WebhookEvents.replace e) (webhook_events w)) w) eid
       = Some WebhookEvent.duplicate.
Proof.
  intros Ha Hs. rewrite (webhook_authentic env request ed sig eid w Ha).
  unfold settled, ledger_status in Hs.
  destruct (find (WebhookEvents.by_event_id eid) (webhook_events w))
    as [existing|] eqn:Hfind; [|destruct Hs; discriminate].
  cbn [option_map] in Hs.
  set (e' := WebhookEvent.with_fields WebhookEvent.duplicate
               (WebhookEvent.error_message existing)
               (WebhookEvent.subscription existing)
               (WebhookEvent.invoice existing) (Some (now env)) existing).
  exists e'. split; [|split].
  - unfold try_except, bind, ledger_step, WebhookEvents.first_by_event_id,
      read, bind. cbv beta iota. rewrite Hfind.
    destruct (WebhookEvent.status existing);
      try (destruct Hs; discriminate); reflexivity.
  - reflexivity.
  - unfold ledger_status. cbn [webhook_events with_webhook_events].
    rewrite (find_replace_event eid existing e' _ Hfind eq_refl).
    + reflexivity.
    + cbn. eapply find_by_event_id_some. exact Hfind.
Qed.

Lemma billing_guarded_reconcile (env : Env) (ed : EventData.t) :
  billing (guarded_reconcile env ed).
Proof.
  unfold guarded_reconcile. destruct (is_approved_update ed).
  - apply billing_try_except; [apply billing_reconcile_approved|].
    auto with frame.
  - apply quiet_billing. auto with frame.
Qed.

Lemma guarded_reconcile_total (env : Env) (ed : EventData.t) (w : World) :
  guarded_reconcile env ed w = (Ok tt, snd (guarded_reconcile env ed w)).
Proof.
  unfold guarded_reconcile. destruct (is_approved_update ed);
    [|reflexivity].
  unfold try_except.
  destruct (reconcile_approved env (EventData.transaction ed) w)
    as [[[]|e] w1]; reflexivity.
Qed.

(** Sections 3 to 5 with a bound [webhook_event]: the event is
    reconciled, the row is marked processed, the answer is 200. *)
Lemma process_bound (env : Env) (request : Request) (ed : EventData.t)
    (we : WebhookEvent.t) (w : World) :
  exists sub inv,
    let w1 := snd (guarded_reconcile env ed w) in
    process env request ed (Some we) w
    = (Ok (ChecksumResponse (response_checksum env request) 200),
       with_webhook_events
         (map (WebhookEvents.replace
                 (WebhookEvent.with_fields WebhookEvent.processed
                    (WebhookEvent.error_message we) sub inv
                    (Some (now env)) we))
            (webhook_events w1)) w1).
Proof.
  unfold process. fold (guarded_reconcile env ed).
  set (w1 := snd (guarded_reconcile env ed w)).
  assert (Hps : readonly
                  (if is_approved_update ed
                   then processed_subscription_of (EventData.transaction ed)
                   else ret None)).
  { destruct (is_approved_update ed);
      [apply readonly_processed_subscription_of | apply readonly_ret]. }
  assert (Hpi : readonly
                  (if is_approved_update ed
                   then Invoices.first_by_transaction_id
                          (Transaction.id (EventData.transaction ed))
                   else ret None)).
  { destruct (is_approved_update ed);
      [apply readonly_read | apply readonly_ret]. }
  destruct (Hps w1) as [ps Hps1]. destruct (Hpi w1) as [pi Hpi1].
  eexists. eexists. cbv zeta.
  unfold bind at 1. rewrite guarded_reconcile_total. fold w1.
  unfold bind at 1. rewrite Hps1.
  unfold bind at 1. rewrite Hpi1.
  unfold bind, WebhookEvents.mark_as_processed, WebhookEvents.save, write, ret.
  cbv beta iota. reflexivity.
Qed.

Lemma create_fresh (w : World) (ed : EventData.t) (sig eid : string) :
  find (WebhookEvents.by_event_id eid) (webhook_events w) = None ->
  (forall ety tid,
      EventData.event ed = Some ety ->
      Transaction.id (EventData.transaction ed) = Some tid ->
      fits 255 eid && fits 50 ety && fits 255 tid && fits 255 sig = true ->
      WebhookEvents.create (Some eid) (EventData.event ed)
        (Transaction.id (EventData.transaction ed)) ed sig
        WebhookEvent.processing w
      = (Ok (fresh_row w ed sig eid ety tid),
         with_webhook_events
           (fresh_row w ed sig eid ety tid :: webhook_events w) w))
  /\ (~ insertable ed sig eid ->
      exists e,
        WebhookEvents.create (Some eid) (EventData.event ed)
          (Transaction.id (EventData.transaction ed)) ed sig
          WebhookEvent.processing w
        = (Raised e, w)).
Proof.
  intros Hfind. split.
  - intros ety tid He Ht Hfits. unfold WebhookEvents.create.
    rewrite He, Ht, Hfits. cbn [negb].
    unfold bind, WebhookEvents.first_by_event_id, read, write, ret.
    cbv beta iota. rewrite Hfind. reflexivity.
  - intros Hno. unfold WebhookEvents.create.
    destruct (EventData.event ed) as [ety|] eqn:He;
      [|eexists; reflexivity].
    destruct (Transaction.id (EventData.transaction ed)) as [tid|] eqn:Ht;
      [|eexists; reflexivity].
    destruct (fits 255 eid && fits 50 ety && fits 255 tid && fits 255 sig)
      eqn:Hfits.
    + exfalso. apply Hno. exists ety, tid. repeat split; assumption.
    + cbn [negb]. eexists. reflexivity.
Qed.

Lemma ledger_status_none (w : World) (eid : string) :
  ledger_status w eid = None ->
  find (WebhookEvents.by_event_id eid) (webhook_events w) = None.
Proof.
  unfold ledger_status.
  destruct (find _ _); [discriminate | reflexivity].
Qed.

(** A first delivery whose ledger row cannot be inserted is answered 500
    and changes nothing. *)
Lemma webhook_first_rejected (env : Env) (request : Request)
    (ed : EventData.t) (sig eid : string) (w : World) :
  authentic env request ed sig eid ->
  ledger_status w eid = None ->
  ~ insertable ed sig eid ->
  wompi_webhook env request w
  = (Ok (ChecksumResponse (response_checksum env request) 500), w).
Proof.
  intros Ha Hnone Hno. rewrite (webhook_authentic env request ed sig eid w Ha).
  apply ledger_status_none in Hnone.
  destruct (create_fresh w ed sig eid Hnone) as [_ Hbad].
  destruct (Hbad Hno) as [e He].
  assert (Hid : EventData.id ed = Some eid) by apply Ha.
  unfold try_except at 1. unfold bind at 1.
  unfold ledger_step, WebhookEvents.first_by_event_id, read.
  unfold bind at 1. cbv beta iota. rewrite Hnone.
  unfold bind at 1. rewrite Hid, He. reflexivity.
Qed.

(** A first delivery whose ledger row can be inserted is processed: the
    answer is 200, the row ends processed and at most one invoice is
    created. *)
Lemma webhook_first_processed (env : Env) (request : Request)
    (ed : EventData.t) (sig eid : string) (w : World) :
  authentic env request ed sig eid ->
  ledger_status w eid = None ->
  insertable ed sig eid ->
  exists w',
    wompi_webhook env request w
    = (Ok (ChecksumResponse (response_checksum env request) 200), w')
    /\ ledger_status w' eid = Some WebhookEvent.processed
    /\ invoices_grow w w'
    /\ exists row,
         let w1 := snd (guarded_reconcile env ed
                          (with_webhook_events (row :: webhook_events w) w)) in
         subscriptions w' = subscriptions w1
         /\ invoices w' = invoices w1
         /\ chatwoot_calls w' = chatwoot_calls w1
         /\ charges w' = charges w1.
Proof.
  intros Ha Hnone (ety & tid & He & Ht & Hfits).
  rewrite (webhook_authentic env request ed sig eid w Ha).
  apply ledger_status_none in Hnone.
  destruct (create_fresh w ed sig eid Hnone) as [Hgood _].
  specialize (Hgood ety tid He Ht Hfits).
  assert (Hid : EventData.id ed = Some eid) by apply Ha.
  set (row := fresh_row w ed sig eid ety tid) in *.
  set (w0 := with_webhook_events (row :: webhook_events w) w) in *.
  destruct (process_bound env request ed row w0) as (sub & inv & Hproc).
  cbv zeta in Hproc.
  destruct (billing_guarded_reconcile env ed w0) as [Hledger Hinv].
  set (w1 := snd (guarded_reconcile env ed w0)) in *.
  exists (with_webhook_events
            (map (WebhookEvents.replace
                    (WebhookEvent.with_fields WebhookEvent.processed
                       (WebhookEvent.error_message row) sub inv
                       (Some (now env)) row))
               (webhook_events w1)) w1).
  split; [|split; [|split]].
  4:{ exists row. cbv zeta. fold w0. fold w1. repeat split. }
  - unfold try_except at 1. unfold bind at 1.
    unfold ledger_step, WebhookEvents.first_by_event_id, read.
    unfold bind at 1. cbv beta iota. rewrite Hnone.
    unfold bind at 1. rewrite Hid, Hgood. unfold ret at 1. cbv beta iota.
    unfold try_except. rewrite Hproc. reflexivity.
  - unfold ledger_status. cbn [webhook_events with_webhook_events].
    rewrite Hledger. cbn [webhook_events with_webhook_events w0 map find].
    set (done := WebhookEvent.with_fields WebhookEvent.processed
                   (WebhookEvent.error_message row) sub inv
                   (Some (now env)) row).
    assert (Hrep : WebhookEvents.replace done row = done).
    { unfold WebhookEvents.replace.
      change (WebhookEvent.id done) with (WebhookEvent.id row).
      rewrite Z.eqb_refl. reflexivity. }
    assert (Hkey : WebhookEvents.by_event_id eid done = true).
    { unfold WebhookEvents.by_event_id.
      change (WebhookEvent.event_id done) with eid. apply String.eqb_refl. }
    rewrite Hrep, Hkey. reflexivity.
  - cbn [invoices with_webhook_events]. exact Hinv.
Qed.

(** The view always answers: no exception escapes it. *)
Lemma on_error_total (env : Env) (request : Request)
    (webhook_event : option WebhookEvent.t) (e : exn) (w : World) :
  exists w',
    on_error env request webhook_event e w
    = (Ok (ChecksumResponse (response_checksum env request) 500), w').
Proof.
  destruct webhook_event as [we|]; eexists; reflexivity.
Qed.

Lemma wompi_webhook_total (env : Env) (request : Request) (w : World) :
  exists r w', wompi_webhook env request w = (Ok r, w').
Proof.
  unfold wompi_webhook.
  destruct (String.eqb (method request) "POST"); [|eexists; eexists;
                                                    reflexivity].
  unfold try_except at 1.
  match goal with
  | |- context [match ?m w with _ => _ end] =>
      destruct (m w) as [[r|e] w1]
  end.
  - eexists. eexists. reflexivity.
  - cbn [any_exception].
    destruct (on_error_total env request None e w1) as [w' Hw'].
    eexists. eexists. exact Hw'.
Qed.

(** ** C1: deliveries of one event id *)

Lemma insertable_dec (ed : EventData.t) (sig eid : string) :
  insertable ed sig eid \/ ~ insertable ed sig eid.
Proof.
  unfold insertable.
  destruct (EventData.event ed) as [ety|];
    [|right; intros (? & ? & H & _); discriminate].
  destruct (Transaction.id (EventData.transaction ed)) as [tid|];
    [|right; intros (? & ? & _ & H & _); discriminate].
  destruct (fits 255 eid && fits 50 ety && fits 255 tid && fits 255 sig)
    eqn:E.
  - left. exists ety, tid. repeat split. exact E.
  - right. intros (a & b & Ha & Hb & Hf).
    inversion Ha; inversion Hb; subst. congruence.
Qed.

(** Once the row of the event is processed or duplicate, any number of
    further deliveries are answered 200 and touch nothing but the row. *)
Lemma deliver_all_settled (eid : string) (ds : list (Env * Request)) :
  forall w,
  (forall env request, In (env, request) ds ->
     exists ed sig, authentic env request ed sig eid) ->
  settled w eid ->
  (forall o, In o (fst (deliver_all ds w)) ->
     o = Ok (TextResponse "OK - Already processed" 200))
  /\ subscriptions (snd (deliver_all ds w)) = subscriptions w
  /\ invoices (snd (deliver_all ds w)) = invoices w
  /\ chatwoot_calls (snd (deliver_all ds w)) = chatwoot_calls w
  /\ charges (snd (deliver_all ds w)) = charges w
  /\ (ds <> [] ->
      ledger_status (snd (deliver_all ds w)) eid
      = Some WebhookEvent.duplicate).
Proof.
  induction ds as [|[env request] rest IH]; intros w Hauth Hset.
  - cbn. repeat split; try reflexivity; [intros o [] | congruence].
  - destruct (Hauth env request (or_introl eq_refl)) as (ed & sig & Ha).
    destruct (webhook_duplicate env request ed sig eid w Ha Hset)
      as (e & Hrun & _ & Hst).
    set (w1 := with_webhook_events
                 (map (WebhookEvents.replace e) (webhook_events w)) w) in *.
    assert (Hset1 : settled w1 eid) by (right; exact Hst).
    destruct (IH w1 (fun env' r' H => Hauth env' r' (or_intror H)) Hset1)
      as (Hos & Hsub & Hinv & Hcw & Hch & Hled).
    cbn [deliver_all]. rewrite Hrun.
    destruct (deliver_all rest w1) as [os w2] eqn:Hrest.
    cbn [fst snd] in *. repeat split; try assumption.
    + intros o [<- | Ho]; [reflexivity | apply Hos; exact Ho].
    + intros _. destruct rest as [|d rest'].
      * cbn in Hrest. inversion Hrest; subst. exact Hst.
      * apply Hled. discriminate.
Qed.

(** From a ledger without a row for the event, at most one delivery of
    the sequence has an effect on subscriptions and invoices, and that
    delivery creates at most one invoice. *)
Lemma deliver_all_fresh (eid : string) (ds : list (Env * Request)) :
  forall w,
  (forall env request, In (env, request) ds ->
     exists ed sig, authentic env request ed sig eid) ->
  ledger_status w eid = None ->
  (subscriptions (snd (deliver_all ds w)) = subscriptions w
   /\ invoices (snd (deliver_all ds w)) = invoices w)
  \/ exists env request,
       In (env, request) ds
       /\ subscriptions (snd (deliver_all ds w))
          = subscriptions (snd (wompi_webhook env request w))
       /\ invoices (snd (deliver_all ds w))
          = invoices (snd (wompi_webhook env request w))
       /\ invoices_grow w (snd (wompi_webhook env request w)).
Proof.
  induction ds as [|[env request] rest IH]; intros w Hauth Hnone.
  - left. split; reflexivity.
  - destruct (Hauth env request (or_introl eq_refl)) as (ed & sig & Ha).
    destruct (insertable_dec ed sig eid) as [Hins | Hno].
    + right. exists env, request. split; [left; reflexivity|].
      destruct (webhook_first_processed env request ed sig eid w
                  Ha Hnone Hins) as (w1 & Hrun & Hst & Hgrow & _).
      destruct (deliver_all_settled eid rest w1
                  (fun env' r' H => Hauth env' r' (or_intror H))
                  (or_introl Hst)) as (_ & Hsub & Hinv & _).
      cbn [deliver_all]. rewrite Hrun.
      destruct (deliver_all rest w1) as [os w2]. cbn [fst snd] in *.
      repeat split; assumption.
    + pose proof (webhook_first_rejected env request ed sig eid w
                    Ha Hnone Hno) as Hrun.
      destruct (IH w (fun env' r' H => Hauth env' r' (or_intror H)) Hnone)
        as [[Hsub Hinv] | (env' & r' & Hin & Hsub & Hinv & Hgrow)].
      * left. cbn [deliver_all]. rewrite Hrun.
        destruct (deliver_all rest w) as [os w2]. cbn [fst snd] in *.
        split; assumption.
      * right. exists env', r'. split; [right; exact Hin|].
        cbn [deliver_all]. rewrite Hrun.
        destruct (deliver_all rest w) as [os w2]. cbn [fst snd] in *.
        repeat split; assumption.
Qed.

(** N deliveries of a new event whose first delivery is accepted: the
    first is processed and answered 200, every later one is answered as a
    duplicate, and subscriptions and invoices end as the first delivery
    left them. *)
Lemma deliver_all_first (eid : string) (env : Env) (request : Request)
    (ed : EventData.t) (sig : string) (rest : list (Env * Request))
    (w : World) :
  (forall env' request', In (env', request') rest ->
     exists ed' sig', authentic env' request' ed' sig' eid) ->
  authentic env request ed sig eid ->
  insertable ed sig eid ->
  ledger_status w eid = None ->
  let first := wompi_webhook env request w in
  let all := deliver_all ((env, request) :: rest) w in
  fst first = Ok (ChecksumResponse (response_checksum env request) 200)
  /\ ledger_status (snd first) eid = Some WebhookEvent.processed
  /\ invoices_grow w (snd first)
  /\ (exists os, fst all = fst first :: os
                 /\ forall o, In o os ->
                      o = Ok (TextResponse "OK - Already processed" 200))
  /\ subscriptions (snd all) = subscriptions (snd first)
  /\ invoices (snd all) = invoices (snd first).
Proof.
  intros Hauth Ha Hins Hnone. cbv zeta.
  destruct (webhook_first_processed env request ed sig eid w Ha Hnone Hins)
    as (w1 & Hrun & Hst & Hgrow & _).
  destruct (deliver_all_settled eid rest w1 Hauth (or_introl Hst))
    as (Hos & Hsub & Hinv & _).
  cbn [deliver_all]. rewrite Hrun.
  destruct (deliver_all rest w1) as [os w2]. cbn [fst snd] in *.
  repeat split; try assumption.
  exists os. split; [reflexivity | exact Hos].
Qed.

(** C1. Among the deliveries of one event id at most one is processed.
    Every delivery that finds the row of the event processed or duplicate
    is answered 200, leaves the row duplicate, runs no reconciliation
    (no call to the provisioning service), and changes neither invoices
    nor subscriptions.  Hence N deliveries of an event id that is new to
    the ledger leave the subscriptions and invoices as the first
    delivery alone leaves them, with at most one new invoice; in general
    they leave them untouched or as one single delivery does. *)
Theorem C1_idempotent_deliveries (eid : string) (ds : list (Env * Request))
    (w : World) :
  (forall env request, In (env, request) ds ->
     exists ed sig, authentic env request ed sig eid) ->
  (settled w eid ->
   (forall o, In o (fst (deliver_all ds w)) ->
      o = Ok (TextResponse "OK - Already processed" 200))
   /\ subscriptions (snd (deliver_all ds w)) = subscriptions w
   /\ invoices (snd (deliver_all ds w)) = invoices w
   /\ chatwoot_calls (snd (deliver_all ds w)) = chatwoot_calls w
   /\ charges (snd (deliver_all ds w)) = charges w
   /\ (ds <> [] ->
       ledger_status (snd (deliver_all ds w)) eid
       = Some WebhookEvent.duplicate))
  /\ (ledger_status w eid = None ->
      forall env request ed sig rest,
        ds = (env, request) :: rest ->
        authentic env request ed sig eid ->
        insertable ed sig eid ->
        let first := wompi_webhook env request w in
        fst first = Ok (ChecksumResponse (response_checksum env request) 200)
        /\ ledger_status (snd first) eid = Some WebhookEvent.processed
        /\ invoices_grow w (snd first)
        /\ (exists os,
              fst (deliver_all ds w) = fst first :: os
              /\ forall o, In o os ->
                   o = Ok (TextResponse "OK - Already processed" 200))
        /\ subscriptions (snd (deliver_all ds w)) = subscriptions (snd first)
        /\ invoices (snd (deliver_all ds w)) = invoices (snd first))
  /\ (ledger_status w eid = None ->
      (subscriptions (snd (deliver_all ds w)) = subscriptions w
       /\ invoices (snd (deliver_all ds w)) = invoices w)
      \/ exists env request,
           In (env, request) ds
           /\ subscriptions (snd (deliver_all ds w))
              = subscriptions (snd (wompi_webhook env request w))
           /\ invoices (snd (deliver_all ds w))
              = invoices (snd (wompi_webhook env request w))
           /\ invoices_grow w (snd (wompi_webhook env request w))).
Proof.
  intros Hauth. split; [|split].
  - apply deliver_all_settled. exact Hauth.
  - intros Hnone env request ed sig rest -> Ha Hins.
    apply (deliver_all_first eid env request ed sig rest w); try assumption.
    intros env' r' H. apply Hauth. right. exact H.
  - apply deliver_all_fresh. exact Hauth.
Qed.

Lemma authentic_retry_request (now_ : Z) (st : string) (code : Z) :
  authentic (Scenario.env now_ st code) WebhookScenario.retry_request
    WebhookScenario.retry_event
    (Scenario.digest ("retry-body" ++ "events-secret")) "evt-1".
Proof. repeat split. Qed.

Lemma C1_idempotent_deliveries_witness :
  let d1 := (Scenario.env (Scenario.T + 100) "APPROVED" 200,
             WebhookScenario.retry_request) in
  let d2 := (Scenario.env (Scenario.T + 160) "APPROVED" 200,
             WebhookScenario.retry_request) in
  let d3 := (Scenario.env (Scenario.T + 220) "APPROVED" 200,
             WebhookScenario.retry_request) in
  let w := WebhookScenario.suspended_world in
  let first := wompi_webhook (fst d1) (snd d1) w in
  subscriptions (snd (deliver_all [d1; d2; d3] w)) = subscriptions (snd first)
  /\ invoices (snd (deliver_all [d1; d2; d3] w)) = invoices (snd first)
  /\ invoices_grow w (snd first).
Proof.
  cbv zeta.
  destruct (C1_idempotent_deliveries "evt-1"
    [(Scenario.env (Scenario.T + 100) "APPROVED" 200,
      WebhookScenario.retry_request);
     (Scenario.env (Scenario.T + 160) "APPROVED" 200,
      WebhookScenario.retry_request);
     (Scenario.env (Scenario.T + 220) "APPROVED" 200,
      WebhookScenario.retry_request)]
    WebhookScenario.suspended_world) as (_ & Hfirst & _).
  - intros env request [H | [H | [H | []]]]; inversion H; subst;
      eexists; eexists; apply authentic_retry_request.
  - destruct (Hfirst eq_refl _ _ _ _ _ eq_refl
                (authentic_retry_request (Scenario.T + 100) "APPROVED" 200))
      as (_ & _ & Hgrow & _ & Hsub & Hinv).
    + exists "transaction.updated", "tx-100". repeat split.
    + cbn [fst snd]. repeat split; assumption.
Defined.

(** ** C7: deliveries that fail the signature check *)

(** C7, counterexample.  (1) A delivery without the checksum header is
    answered 401 and no ledger row is recorded.  (2) A replay of an event
    already in the ledger, with an altered body under the original
    checksum, is answered 500 and no row with status [invalid_signature]
    is recorded. *)
Lemma C7_counterexample :
  (let env := Scenario.env (Scenario.T + 100) "APPROVED" 200 in
   let w := WebhookScenario.suspended_world in
   wompi_webhook env SignatureScenario.unsigned_request w
   = (Ok (TextResponse "Missing signature" 401), w)
   /\ ~ C7_as_stated env SignatureScenario.unsigned_request w)
  /\ (let env := Scenario.env (Scenario.T + 300) "APPROVED" 200 in
      let w := SignatureScenario.delivered_world in
      wompi_webhook env SignatureScenario.tampered_request w
      = (Ok (ChecksumResponse
               (response_checksum env SignatureScenario.tampered_request) 500),
         w)
      /\ ~ C7_as_stated env SignatureScenario.tampered_request w).
Proof.
  split; cbv zeta.
  - split; [reflexivity|]. intros H.
    destruct H as (r & w' & Hrun & _ & (row & Hrow & _) & _).
    + intros sig Hsig. discriminate Hsig.
    + vm_compute in Hrun. inversion Hrun; subst w'.
      vm_compute in Hrow. discriminate Hrow.
  - split; [vm_compute; reflexivity|]. intros H.
    destruct H as (r & w' & Hrun & [Hst | Hst] & _).
    + intros sig Hsig. inversion Hsig; subst sig. vm_compute. reflexivity.
    + vm_compute in Hrun. inversion Hrun; subst r. discriminate Hst.
    + vm_compute in Hrun. inversion Hrun; subst r. discriminate Hst.
Qed.

Lemma create_ok (eid ety tid sig : string) (payload : EventData.t)
    (st : WebhookEvent.status_t) (w : World) :
  find (WebhookEvents.by_event_id eid) (webhook_events w) = None ->
  fits 255 eid && fits 50 ety && fits 255 tid && fits 255 sig = true ->
  exists row,
    WebhookEvents.create (Some eid) (Some ety) (Some tid) payload sig st w
    = (Ok row, with_webhook_events (row :: webhook_events w) w)
    /\ WebhookEvent.status row = st
    /\ WebhookEvent.event_id row = eid
    /\ WebhookEvent.signature row = sig.
Proof.
  intros Hfind Hfits. unfold WebhookEvents.create. rewrite Hfits.
  cbn [negb]. unfold bind, WebhookEvents.first_by_event_id, read, write, ret.
  cbv beta iota. rewrite Hfind. eexists. split; [reflexivity|].
  repeat split.
Qed.

Lemma create_frame (eid ety tid : option string) (sig : string)
    (payload : EventData.t) (st : WebhookEvent.status_t) (w : World) :
  let w' := snd (WebhookEvents.create eid ety tid payload sig st w) in
  subscriptions w' = subscriptions w /\ invoices w' = invoices w
  /\ chatwoot_calls w' = chatwoot_calls w /\ charges w' = charges w
  /\ ((exists e, fst (WebhookEvents.create eid ety tid payload sig st w)
                 = Raised e) -> w' = w).
Proof.
  unfold WebhookEvents.create.
  destruct eid as [eid|], ety as [ety|], tid as [tid|];
    try (cbn; repeat split; reflexivity).
  destruct (negb _); [cbn; repeat split; reflexivity|].
  unfold bind, WebhookEvents.first_by_event_id, read, write, ret, raise.
  cbv beta iota.
  destruct (find _ (webhook_events w)); cbn [fst snd];
    repeat split; try reflexivity.
  intros [e He]. discriminate He.
Qed.

Lemma next_id_above (ids : list Z) (i : Z) :
  In i ids -> i < next_id ids.
Proof.
  unfold next_id. induction ids as [|a ids IH]; cbn [In fold_right];
    [intros []|].
  intros [-> | Hin]; [lia|]. specialize (IH Hin). lia.
Qed.

Lemma replace_new_row (e : WebhookEvent.t) (rows : list WebhookEvent.t) :
  WebhookEvent.id e = next_id (map WebhookEvent.id rows) ->
  map (WebhookEvents.replace e) rows = rows.
Proof.
  intros Hid.
  assert (H : forall r, In r rows -> WebhookEvents.replace e r = r).
  { intros r Hr. unfold WebhookEvents.replace.
    pose proof (next_id_above (map WebhookEvent.id rows) (WebhookEvent.id r)
                  (in_map _ _ _ Hr)) as Hlt.
    destruct (WebhookEvent.id r =? WebhookEvent.id e) eqn:E;
      [|reflexivity].
    apply Z.eqb_eq in E. lia. }
  transitivity (map (fun r => r) rows); [|apply map_id].
  apply map_ext_in. exact H.
Qed.

Lemma on_error_unbound (env : Env) (request : Request) (e : exn) (w : World) :
  on_error env request None e w
  = (Ok (ChecksumResponse (response_checksum env request) 500), w).
Proof. reflexivity. Qed.

(** C7, amended.  A request whose checksum does not verify never reaches
    reconciliation: it is not answered 200 and changes no subscription and
    no invoice, and nothing is sent to the provisioning service or the
    gateway.  Without a checksum header (or with an empty one) a parseable
    POST is answered 401 and nothing is recorded.  With a checksum that
    does not match, a parseable POST whose event id is new to the ledger
    (and whose values fit their columns) is answered 403 and a ledger row
    with status [invalid_signature] is recorded. *)
Theorem C7_signature_rejection (env : Env) (request : Request) (w : World) :
  signature_mismatch env request ->
  exists r w',
    wompi_webhook env request w = (Ok r, w')
    /\ status_code r <> 200
    /\ subscriptions w' = subscriptions w
    /\ invoices w' = invoices w
    /\ chatwoot_calls w' = chatwoot_calls w
    /\ charges w' = charges w
    /\ forall ed,
         method request = "POST" -> event_data request = Some ed ->
         (Py.truthy (x_event_checksum request) = false ->
          r = TextResponse "Missing signature" 401 /\ w' = w)
         /\ (forall sig,
               x_event_checksum request = Some sig ->
               Py.truthy (Some sig) = true ->
               recordable env ed sig w ->
               r = TextResponse "Invalid signature" 403
               /\ exists row,
                    webhook_events w' = row :: webhook_events w
                    /\ WebhookEvent.status row
                       = WebhookEvent.invalid_signature
                    /\ WebhookEvent.event_id row = rejected_event_id env ed
                    /\ WebhookEvent.signature row = sig).
Proof.
  intros Hmis. unfold wompi_webhook.
  destruct (String.eqb (method request) "POST") eqn:Hm.
  2:{ exists (TextResponse "Method not allowed" 405), w.
      split; [reflexivity|]. split; [discriminate|].
      do 4 (split; [reflexivity|]).
      intros ed Hpost _. exfalso. apply String.eqb_neq in Hm. auto. }
  destruct (event_data request) as [ed|] eqn:Hed.
  2:{ exists (ChecksumResponse (response_checksum env request) 500), w.
      split; [reflexivity|]. split; [discriminate|].
      do 4 (split; [reflexivity|]).
      intros ed _ Hed'. discriminate Hed'. }
  unfold ingest.
  destruct (x_event_checksum request) as [sig|] eqn:Hsig.
  2:{ exists (TextResponse "Missing signature" 401), w.
      split; [reflexivity|]. split; [discriminate|].
      do 4 (split; [reflexivity|]).
      intros ed' _ _. split; [intros _; split; reflexivity|].
      intros sig' Hs'. discriminate Hs'. }
  destruct (Py.truthy (Some sig)) eqn:Ht; cbn [negb].
  2:{ exists (TextResponse "Missing signature" 401), w.
      split; [reflexivity|]. split; [discriminate|].
      do 4 (split; [reflexivity|]).
      intros ed' _ _. split; [intros _; split; reflexivity|].
      intros sig' Hs' Ht'. inversion Hs'; subst. congruence. }
  rewrite (Hmis sig Hsig). cbn [negb].
  fold (rejected_event_id env ed) (rejected_event_type ed)
       (rejected_transaction_id ed).
  pose proof (create_frame (Some (rejected_event_id env ed))
                (Some (rejected_event_type ed))
                (Some (rejected_transaction_id ed)) sig ed
                WebhookEvent.invalid_signature w) as Hframe.
  cbv zeta in Hframe.
  destruct Hframe as (Fs & Fi & Fc & Fg & Fraise).
  destruct (WebhookEvents.create (Some (rejected_event_id env ed))
              (Some (rejected_event_type ed))
              (Some (rejected_transaction_id ed)) ed sig
              WebhookEvent.invalid_signature w) as [[row|e] w1] eqn:Hc;
    cbn [fst snd] in *.
  - eexists. eexists. split.
    { unfold try_except at 1. unfold bind at 1. unfold bind at 1.
      rewrite Hc. reflexivity. }
    cbn [subscriptions invoices chatwoot_calls charges with_webhook_events
         status_code].
    split; [discriminate|]. repeat (split; [assumption|]).
    intros ed' _ Hed'. inversion Hed'; subst ed'. split.
    + intros Hf. cbn in Hf. congruence.
    + intros sig' Hs' _ [Hnew Hfits]. inversion Hs'; subst sig'.
      split; [reflexivity|].
      apply ledger_status_none in Hnew.
      destruct (create_ok _ _ _ _ ed WebhookEvent.invalid_signature w
                  Hnew Hfits) as (row' & Hc' & Hst & Heid & Hsg).
      rewrite Hc' in Hc. inversion Hc; subst row' w1.
      eexists. split.
      * cbn [webhook_events with_webhook_events map].
        rewrite replace_new_row.
        -- unfold WebhookEvents.replace.
           cbn [WebhookEvent.id WebhookEvent.with_fields].
           rewrite Z.eqb_refl. reflexivity.
        -- cbn [WebhookEvent.id WebhookEvent.with_fields].
           unfold WebhookEvents.create in Hc'. rewrite Hfits in Hc'.
           cbn [negb] in Hc'.
           unfold bind, WebhookEvents.first_by_event_id, read, write, ret
             in Hc'.
           cbv beta iota in Hc'. rewrite Hnew in Hc'.
           inversion Hc'. reflexivity.
      * cbn [WebhookEvent.status WebhookEvent.event_id WebhookEvent.signature
             WebhookEvent.with_fields].
        repeat split; assumption.
  - assert (Hw : w1 = w) by (apply Fraise; exists e; reflexivity). subst w1.
    exists (ChecksumResponse (response_checksum env request) 500), w.
    split.
    { unfold try_except at 1. unfold bind at 1. unfold bind at 1.
      rewrite Hc. reflexivity. }
    split; [discriminate|]. repeat (split; [reflexivity|]).
    intros ed' _ Hed'. inversion Hed'; subst ed'. split.
    + intros Hf. cbn in Hf. congruence.
    + intros sig' Hs' _ [Hnew Hfits]. inversion Hs'; subst sig'.
      apply ledger_status_none in Hnew.
      destruct (create_ok _ _ _ _ ed WebhookEvent.invalid_signature w
                  Hnew Hfits) as (row' & Hc' & _).
      rewrite Hc' in Hc. discriminate Hc.
Qed.

(** ** The matching strategies are lookups *)

Lemma inert_ret {A} (a : A) : inert (ret a).
Proof. intros w. reflexivity. Qed.

Lemma inert_raise {A} (e : exn) : inert (@raise A e).
Proof. intros w. reflexivity. Qed.

Lemma inert_read {A} (f : World -> A) : inert (read f).
Proof. intros w. reflexivity. Qed.

Lemma inert_bind {A B} (m : M A) (k : A -> M B) :
  inert m -> (forall a, inert (k a)) -> inert (bind m k).
Proof.
  intros Hm Hk w. unfold bind. specialize (Hm w).
  destruct (m w) as [[a|e] w1]; cbn [snd] in *; subst w1.
  - apply Hk.
  - reflexivity.
Qed.

Lemma inert_run {A} (m : M A) (w : World) :
  inert m -> m w = (fst (m w), w).
Proof.
  intros H. specialize (H w). destruct (m w) as [o w1]. cbn in *.
  congruence.
Qed.

Lemma inert_by_wompi_subscription_id (tx : Transaction.t) :
  inert (by_wompi_subscription_id tx).
Proof. apply inert_read. Qed.

Lemma inert_by_recurring_reference (tx : Transaction.t) :
  inert (by_recurring_reference tx).
Proof.
  unfold by_recurring_reference.
  destruct (Transaction.reference tx); [|apply inert_ret].
  destruct (_ && _); [|apply inert_ret].
  destruct (subscription_id_of_reference _);
    [apply inert_read | apply inert_ret].
Qed.

Lemma inert_by_payment_source (tx : Transaction.t) :
  inert (by_payment_source tx).
Proof.
  unfold by_payment_source.
  destruct (Py.truthy _); [apply inert_read | apply inert_ret].
Qed.

Lemma inert_by_customer_email (env : Env) (tx : Transaction.t) :
  inert (by_customer_email env tx).
Proof.
  unfold by_customer_email.
  destruct (Transaction.customer_email tx); [|apply inert_ret].
  destruct (Py.truthy _); [apply inert_read | apply inert_ret].
Qed.

Lemma inert_by_first_payment_reference (env : Env) (tx : Transaction.t) :
  inert (by_first_payment_reference env tx).
Proof.
  unfold by_first_payment_reference.
  destruct (Transaction.reference tx); [|apply inert_ret].
  destruct (Py.truthy _); [|apply inert_ret].
  destruct (_ && _); [|apply inert_ret].
  destruct (Py.item _ 2); [|apply inert_raise].
  destruct (Py.int _); [|apply inert_raise].
  destruct (Py.item _ 3); [|apply inert_raise].
  destruct (Py.int _); [|apply inert_raise].
  apply inert_bind; [apply inert_read|].
  intros [[uid [c|]]|]; [apply inert_read | apply inert_ret | apply inert_ret].
Qed.

(** The lookups only read the subscription and user tables. *)
Lemma lookups_agree (env : Env) (tx : Transaction.t) (w1 w2 : World) :
  subscriptions w1 = subscriptions w2 ->
  users w1 = users w2 ->
  fst (by_wompi_subscription_id tx w1) = fst (by_wompi_subscription_id tx w2)
  /\ fst (by_recurring_reference tx w1) = fst (by_recurring_reference tx w2)
  /\ fst (by_payment_source tx w1) = fst (by_payment_source tx w2)
  /\ fst (by_customer_email env tx w1) = fst (by_customer_email env tx w2)
  /\ fst (by_first_payment_reference env tx w1)
     = fst (by_first_payment_reference env tx w2).
Proof.
  intros Hs Hu. repeat split.
  - unfold by_wompi_subscription_id, Subscriptions.first, read. cbn.
    rewrite Hs. reflexivity.
  - unfold by_recurring_reference.
    destruct (Transaction.reference tx); [|reflexivity].
    destruct (_ && _); [|reflexivity].
    destruct (subscription_id_of_reference _); [|reflexivity].
    unfold Subscriptions.first, read. cbn. rewrite Hs. reflexivity.
  - unfold by_payment_source.
    destruct (Py.truthy _); [|reflexivity].
    unfold Subscriptions.first, read. cbn. rewrite Hs. reflexivity.
  - unfold by_customer_email.
    destruct (Transaction.customer_email tx); [|reflexivity].
    destruct (Py.truthy _); [|reflexivity].
    unfold Subscriptions.first, read. cbn. rewrite Hs. reflexivity.
  - unfold by_first_payment_reference.
    destruct (Transaction.reference tx); [|reflexivity].
    destruct (Py.truthy _); [|reflexivity].
    destruct (_ && _); [|reflexivity].
    destruct (Py.item _ 2); [|reflexivity].
    destruct (Py.int _); [|reflexivity].
    destruct (Py.item _ 3); [|reflexivity].
    destruct (Py.int _); [|reflexivity].
    unfold bind, read, Subscriptions.first. cbv beta iota. rewrite Hu.
    destruct (find _ (users w2)) as [[uid [c|]]|]; cbv beta iota;
      cbn [fst]; try reflexivity.
    unfold read. cbn [fst]. rewrite Hs. reflexivity.
Qed.

(** The exceptions of the first-payment lookup are those its [try]
    catches. *)
Lemma by_first_payment_reference_raises (env : Env) (tx : Transaction.t)
    (w : World) (e : exn) :
  fst (by_first_payment_reference env tx w) = Raised e ->
  value_or_index_error e = true.
Proof.
  unfold by_first_payment_reference.
  destruct (Transaction.reference tx); [|discriminate].
  destruct (Py.truthy _); [|discriminate].
  destruct (_ && _); [|discriminate].
  destruct (Py.item _ 2); [|intros [= <-]; reflexivity].
  destruct (Py.int _); [|intros [= <-]; reflexivity].
  destruct (Py.item _ 3); [|intros [= <-]; reflexivity].
  destruct (Py.int _); [|intros [= <-]; reflexivity].
  unfold bind, read, Subscriptions.first. cbv beta iota.
  destruct (find _ (users w)) as [[uid [c|]]|]; discriminate.
Qed.

Lemma db_errors_ret {A} (a : A) : db_errors (ret a).
Proof. intros w e H. discriminate H. Qed.

Lemma db_errors_read {A} (f : World -> A) : db_errors (read f).
Proof. intros w e H. discriminate H. Qed.

Lemma db_errors_bind {A B} (m : M A) (k : A -> M B) :
  db_errors m -> (forall a, db_errors (k a)) -> db_errors (bind m k).
Proof.
  intros Hm Hk w e. unfold bind. specialize (Hm w).
  destruct (m w) as [[a|e'] w1]; cbn [fst] in *.
  - apply Hk.
  - intros [= <-]. apply Hm. reflexivity.
Qed.

Lemma db_errors_save (s : Subscription.t) : db_errors (Subscriptions.save s).
Proof.
  intros w e. unfold Subscriptions.save.
  destruct (Subscription.payment_source_id s);
    [|intros [= <-]; reflexivity].
  destruct (_ && _); [discriminate | intros [= <-]; reflexivity].
Qed.

Lemma db_errors_create_paid (env : Env) (s : Subscription.t) (a : option Z)
    (t r : option string) : db_errors (Invoices.create_paid env s a t r).
Proof.
  intros w e. unfold Invoices.create_paid.
  destruct a as [cents|], t as [tid|], r as [ref|];
    try (intros [= <-]; reflexivity).
  destruct (negb _); [intros [= <-]; reflexivity|].
  unfold bind, Invoices.first_by_transaction_id, read, write, ret, raise.
  cbv beta iota.
  destruct (find _ (invoices w)); [intros [= <-]; reflexivity|discriminate].
Qed.

Lemma db_errors_invoice_and_extend (env : Env) (tx : Transaction.t)
    (s : Subscription.t) : db_errors (invoice_and_extend env tx s).
Proof.
  unfold invoice_and_extend.
  apply db_errors_bind; [apply db_errors_read|].
  intros [i|]; [apply db_errors_ret|].
  apply db_errors_bind; [apply db_errors_create_paid|].
  intros _. destruct (reference_has _ _);
    [apply db_errors_save | apply db_errors_ret].
Qed.

Lemma db_errors_settle_relinked (env : Env) (tx : Transaction.t)
    (s : Subscription.t) : db_errors (settle_relinked env tx s).
Proof.
  unfold settle_relinked.
  destruct (Transaction.id tx); [|intros w e [= <-]; reflexivity].
  apply db_errors_bind; [apply db_errors_save|].
  intros _. apply db_errors_invoice_and_extend.
Qed.

Lemma try_except_transparent {A} (m : M A) (handles : exn -> bool)
    (h : exn -> M A) (w : World) :
  (forall e, fst (m w) = Raised e -> handles e = false) ->
  try_except m handles h w = m w.
Proof.
  intros H. unfold try_except. destruct (m w) as [[a|e] w1]; [reflexivity|].
  rewrite (H e eq_refl). reflexivity.
Qed.

(** The cascade of the webhook as one case analysis on the results of
    its lookups. *)
Lemma reconcile_cascade (env : Env) (tx : Transaction.t) (w : World) :
  reconcile_approved env tx w =
  match fst (by_wompi_subscription_id tx w) with
  | Raised e => (Raised e, w)
  | Ok (Some s) => settle_found env tx s w
  | Ok None =>
  match fst (by_recurring_reference tx w) with
  | Raised e => (Raised e, w)
  | Ok (Some s) => settle_found env tx s w
  | Ok None =>
  match fst (by_payment_source tx w) with
  | Raised e => (Raised e, w)
  | Ok (Some s) => settle_payment_source env tx s w
  | Ok None =>
  match fst (by_customer_email env tx w) with
  | Raised e => (Raised e, w)
  | Ok (Some s) => settle_relinked env tx s w
  | Ok None =>
  match fst (by_first_payment_reference env tx w) with
  | Raised e => (Ok tt, w)
  | Ok (Some s) => settle_relinked env tx s w
  | Ok None => (Ok tt, w)
  end end end end end.
Proof.
  unfold reconcile_approved.
  unfold bind at 1.
  pose proof (inert_by_wompi_subscription_id tx w) as I1.
  destruct (by_wompi_subscription_id tx w) as [o1 w1].
  cbn [fst snd] in *. subst w1.
  destruct o1 as [[s|]|e]; try reflexivity.
  unfold bind at 1.
  pose proof (inert_by_recurring_reference tx w) as I2.
  destruct (by_recurring_reference tx w) as [o2 w2].
  cbn [fst snd] in *. subst w2.
  destruct o2 as [[s|]|e]; try reflexivity.
  unfold bind at 1.
  pose proof (inert_by_payment_source tx w) as I3.
  destruct (by_payment_source tx w) as [o3 w3].
  cbn [fst snd] in *. subst w3.
  destruct o3 as [[s|]|e]; try reflexivity.
  unfold bind at 1.
  pose proof (inert_by_customer_email env tx w) as I4.
  destruct (by_customer_email env tx w) as [o4 w4].
  cbn [fst snd] in *. subst w4.
  destruct o4 as [[s|]|e]; try reflexivity.
  pose proof (inert_by_first_payment_reference env tx w) as I5.
  pose proof (by_first_payment_reference_raises env tx w) as R5.
  destruct (by_first_payment_reference env tx w) as [o5 w5] eqn:E5.
  cbn [fst snd] in *. subst w5.
  destruct o5 as [[s|]|e].
  - rewrite try_except_transparent.
    + unfold bind. rewrite E5. reflexivity.
    + intros e. unfold bind. rewrite E5. apply db_errors_settle_relinked.
  - unfold try_except, bind. rewrite E5. reflexivity.
  - unfold try_except, bind. rewrite E5. rewrite (R5 e eq_refl).
    reflexivity.
Qed.

(** ** C5: the order of the matching strategies *)

(** C5, counterexample.  The reference [LYVIO-FIRST-1-3-...] identifies
    subscription 7 and the customer email identifies subscription 8; no
    other strategy matches.  The invoice is billed to subscription 8: the
    email lookup runs before the first-payment reference is parsed. *)
Lemma C5_counterexample :
  let env := Scenario.env PrecedenceScenario.webhook_time "APPROVED" 200 in
  let tx := PrecedenceScenario.first_payment in
  let w := PrecedenceScenario.two_pending in
  fst (by_reference env tx w)
  = Ok (Some PrecedenceScenario.by_reference_subscription)
  /\ fst (by_customer_email env tx w)
     = Ok (Some PrecedenceScenario.by_email_subscription)
  /\ bills env tx w PrecedenceScenario.by_email_subscription
  /\ ~ C5_as_stated env tx w.
Proof.
  cbv zeta. split; [reflexivity|]. split; [reflexivity|]. split.
  - eexists. split; [vm_compute; reflexivity | reflexivity].
  - intros [_ H].
    destruct (H PrecedenceScenario.by_reference_subscription
                PrecedenceScenario.by_email_subscription
                eq_refl eq_refl eq_refl eq_refl) as (inv & Hinv & Hsub).
    vm_compute in Hinv. inversion Hinv; subst inv.
    vm_compute in Hsub. discriminate Hsub.
Qed.

(** C5, amended.  The webhook tries its lookups in the fixed order
    (1) stored creating-transaction id, (2) subscription id of a
    [LYVIO-REC-]/[LYVIO-RETRY-] reference, (3) payment source id,
    (4) customer email within five minutes, (5) plan and user of a
    [LYVIO-FIRST-] reference within 24 hours, and settles the first
    subscription found, whatever the later lookups would yield. *)
Theorem C5_strategy_order (env : Env) (tx : Transaction.t) (w : World)
    (s : Subscription.t) :
  (fst (by_wompi_subscription_id tx w) = Ok (Some s) ->
   reconcile_approved env tx w = settle_found env tx s w)
  /\ (fst (by_wompi_subscription_id tx w) = Ok None ->
      fst (by_recurring_reference tx w) = Ok (Some s) ->
      reconcile_approved env tx w = settle_found env tx s w)
  /\ (fst (by_wompi_subscription_id tx w) = Ok None ->
      fst (by_recurring_reference tx w) = Ok None ->
      fst (by_payment_source tx w) = Ok (Some s) ->
      reconcile_approved env tx w = settle_payment_source env tx s w)
  /\ (fst (by_wompi_subscription_id tx w) = Ok None ->
      fst (by_recurring_reference tx w) = Ok None ->
      fst (by_payment_source tx w) = Ok None ->
      fst (by_customer_email env tx w) = Ok (Some s) ->
      reconcile_approved env tx w = settle_relinked env tx s w)
  /\ (fst (by_wompi_subscription_id tx w) = Ok None ->
      fst (by_recurring_reference tx w) = Ok None ->
      fst (by_payment_source tx w) = Ok None ->
      fst (by_customer_email env tx w) = Ok None ->
      fst (by_first_payment_reference env tx w) = Ok (Some s) ->
      reconcile_approved env tx w = settle_relinked env tx s w).
Proof.
  rewrite reconcile_cascade. repeat split.
  - intros ->. reflexivity.
  - intros -> ->. reflexivity.
  - intros -> -> ->. reflexivity.
  - intros -> -> -> ->. reflexivity.
  - intros -> -> -> -> ->. reflexivity.
Qed.

Lemma C5_strategy_order_witness :
  reconcile_approved
    (Scenario.env PrecedenceScenario.webhook_time "APPROVED" 200)
    PrecedenceScenario.first_payment PrecedenceScenario.two_pending
  = settle_relinked
      (Scenario.env PrecedenceScenario.webhook_time "APPROVED" 200)
      PrecedenceScenario.first_payment
      PrecedenceScenario.by_email_subscription
      PrecedenceScenario.two_pending.
Proof.
  apply (proj1 (proj2 (proj2 (proj2
    (C5_strategy_order
       (Scenario.env PrecedenceScenario.webhook_time "APPROVED" 200)
       PrecedenceScenario.first_payment PrecedenceScenario.two_pending
       PrecedenceScenario.by_email_subscription))))); reflexivity.
Defined.

(** ** C6: an event no strategy matches *)

Lemma reconcile_no_match (env : Env) (tx : Transaction.t) (w : World) :
  no_strategy_matches env tx w ->
  reconcile_approved env tx w = (Ok tt, w).
Proof.
  intros (H1 & H2 & H3 & H4 & H5). rewrite reconcile_cascade.
  rewrite H1, H2, H3, H4.
  destruct (fst (by_first_payment_reference env tx w)) as [[s|]|e] eqn:E;
    try reflexivity.
  exfalso. apply (H5 s). reflexivity.
Qed.

Lemma no_strategy_matches_agree (env : Env) (tx : Transaction.t)
    (w1 w2 : World) :
  subscriptions w1 = subscriptions w2 -> users w1 = users w2 ->
  no_strategy_matches env tx w2 -> no_strategy_matches env tx w1.
Proof.
  intros Hs Hu. unfold no_strategy_matches.
  destruct (lookups_agree env tx w1 w2 Hs Hu) as (E1 & E2 & E3 & E4 & E5).
  rewrite E1, E2, E3, E4, E5. tauto.
Qed.

(** C6, counterexample.  An approved payment whose reference names a
    subscription that does not exist, with no payment source and no
    email: no strategy matches, and the ledger row ends processed. *)
Lemma C6_counterexample :
  let env := Scenario.env (Scenario.T + 100) "APPROVED" 200 in
  let w := WebhookScenario.suspended_world in
  no_strategy_matches env
    (EventData.transaction OrphanScenario.orphan_event) w
  /\ ledger_status (snd (wompi_webhook env OrphanScenario.orphan_request w))
       "evt-2"
     = Some WebhookEvent.processed
  /\ ~ C6_as_stated env OrphanScenario.orphan_request
         OrphanScenario.orphan_event "evt-2" w.
Proof.
  cbv zeta.
  assert (Hno : no_strategy_matches
                  (Scenario.env (Scenario.T + 100) "APPROVED" 200)
                  (EventData.transaction OrphanScenario.orphan_event)
                  WebhookScenario.suspended_world).
  { repeat split; try reflexivity. intros s. vm_compute. discriminate. }
  split; [exact Hno|]. split; [vm_compute; reflexivity|].
  intros H. specialize (H eq_refl Hno). vm_compute in H. discriminate H.
Qed.

(** C6, amended.  When no strategy yields a subscription for the first
    accepted delivery of a payment event, the miss is only logged: the
    delivery is answered 200, the ledger row of the event ends processed,
    and no subscription and no invoice is changed. *)
Theorem C6_unmatched_event_processed (env : Env) (request : Request)
    (ed : EventData.t) (sig eid : string) (w : World) :
  authentic env request ed sig eid ->
  ledger_status w eid = None ->
  insertable ed sig eid ->
  no_strategy_matches env (EventData.transaction ed) w ->
  exists w',
    wompi_webhook env request w
    = (Ok (ChecksumResponse (response_checksum env request) 200), w')
    /\ ledger_status w' eid = Some WebhookEvent.processed
    /\ subscriptions w' = subscriptions w
    /\ invoices w' = invoices w
    /\ chatwoot_calls w' = chatwoot_calls w.
Proof.
  intros Ha Hnone Hins Hno.
  destruct (webhook_first_processed env request ed sig eid w Ha Hnone Hins)
    as (w' & Hrun & Hst & _ & row & Hsub & Hinv & Hcw & _).
  cbv zeta in *. exists w'. split; [exact Hrun|]. split; [exact Hst|].
  set (w0 := with_webhook_events (row :: webhook_events w) w) in *.
  assert (Hw0 : snd (guarded_reconcile env ed w0) = w0).
  { unfold guarded_reconcile. destruct (is_approved_update ed);
      [|reflexivity].
    unfold try_except. rewrite reconcile_no_match; [reflexivity|].
    apply (no_strategy_matches_agree env _ w0 w); [reflexivity ..|exact Hno]. }
  rewrite Hw0 in Hsub, Hinv, Hcw.
  repeat split; assumption.
Qed.

Lemma C6_unmatched_event_processed_witness :
  exists w',
    wompi_webhook (Scenario.env (Scenario.T + 100) "APPROVED" 200)
      OrphanScenario.orphan_request WebhookScenario.suspended_world
    = (Ok (ChecksumResponse
             (response_checksum
                (Scenario.env (Scenario.T + 100) "APPROVED" 200)
                OrphanScenario.orphan_request) 200), w')
    /\ ledger_status w' "evt-2" = Some WebhookEvent.processed
    /\ subscriptions w' = subscriptions WebhookScenario.suspended_world
    /\ invoices w' = []
    /\ chatwoot_calls w' = [].
Proof.
  apply (C6_unmatched_event_processed
           (Scenario.env (Scenario.T + 100) "APPROVED" 200)
           OrphanScenario.orphan_request OrphanScenario.orphan_event
           (Scenario.digest ("orphan-body" ++ "events-secret")) "evt-2"
           WebhookScenario.suspended_world).
  - repeat split.
  - reflexivity.
  - exists "transaction.updated", "tx-999". repeat split.
  - repeat split; try reflexivity. intros s. vm_compute. discriminate.
Defined.

Lemma C7_signature_rejection_witness :
  exists r w',
    wompi_webhook (Scenario.env (Scenario.T + 300) "APPROVED" 200)
      SignatureScenario.tampered_request WebhookScenario.suspended_world
    = (Ok r, w')
    /\ status_code r <> 200
    /\ subscriptions w' = subscriptions WebhookScenario.suspended_world
    /\ invoices w' = invoices WebhookScenario.suspended_world.
Proof.
  destruct (C7_signature_rejection
              (Scenario.env (Scenario.T + 300) "APPROVED" 200)
              SignatureScenario.tampered_request
              WebhookScenario.suspended_world)
    as (r & w' & Hrun & Hst & Hsub & Hinv & _).
  - intros sig Hsig. inversion Hsig; subst sig. vm_compute. reflexivity.
  - exists r, w'. repeat split; assumption.
Defined.

(** ** C3 and C2: the manual retry of a suspended subscription *)

(** C3, the code at the failing input.  The webhook of an approved manual
    retry arrives for the suspended subscription 7 and the provisioning
    service answers the reactivation call with 500.  The notification
    fails, yet the subscription is active after the reconciliation (the
    row is saved as active before the call is made, and the answer of the
    call is not read). *)
Lemma C3_status_flips_despite_failed_notification :
  let env := Scenario.env (Scenario.T + 100) "APPROVED" 500 in
  let w := WebhookScenario.suspended_world in
  let w' := snd (wompi_webhook env WebhookScenario.retry_request w) in
  fst (notify_account_reactivation env Scenario.company w) = Ok false
  /\ chatwoot_calls w' = [11]
  /\ option_map Subscription.status (row_of w 7)
     = Some Subscription.suspended
  /\ option_map Subscription.status (row_of w' 7)
     = Some Subscription.active
  /\ map Invoice.wompi_transaction_id (invoices w') = ["tx-100"].
Proof.
  cbv zeta. repeat split; vm_compute; reflexivity.
Qed.

(** C2, the code at the failing input.  The manual retry of the suspended
    subscription 7 is answered PENDING (transaction [tx-100], reference
    [LYVIO-RETRY-7-1700000100]) and the first poll sees it APPROVED: the
    period end moves from [T] to [T + 30 days] and no invoice is written.
    The webhook of the same transaction then finds no invoice for
    [tx-100], creates one and extends the period again, to
    [T + 60 days]. *)
Lemma C2_period_extended_twice :
  let w := WebhookScenario.suspended_world in
  let w1 := snd (retry_payment
                   (WebhookScenario.polling_env (Scenario.T + 100)) "POST"
                   (Some Scenario.company) w) in
  let w2 := snd (wompi_webhook
                   (Scenario.env (Scenario.T + 200) "APPROVED" 200)
                   WebhookScenario.retry_request w1) in
  map Charge.reference (charges w1) = ["LYVIO-RETRY-7-1700000100"]
  /\ option_map Subscription.current_period_end (row_of w 7)
     = Some Scenario.T
  /\ option_map Subscription.current_period_end (row_of w1 7)
     = Some (Scenario.T + days 30)
  /\ option_map Subscription.status (row_of w1 7)
     = Some Subscription.active
  /\ invoices w1 = []
  /\ option_map Subscription.current_period_end (row_of w2 7)
     = Some (Scenario.T + days 30 + days 30)
  /\ map Invoice.wompi_transaction_id (invoices w2) = ["tx-100"].
Proof.
  cbv zeta. repeat split; vm_compute; reflexivity.
Qed.

(* ================================================================== *)
(** * Further properties of the webhook view *)
(* ================================================================== *)

(** X1.  A delivery for an event whose row is still [processing] (another
    delivery is in flight) is answered 200 and changes nothing at all. *)
Theorem X1_webhook_in_flight_is_noop (env : Env) (request : Request)
    (ed : EventData.t) (sig eid : string) (w : World) :
  authentic env request ed sig eid ->
  ledger_status w eid = Some WebhookEvent.processing ->
  wompi_webhook env request w = (Ok (TextResponse "OK - Processing" 200), w).
Proof.
  intros Ha Hst. rewrite (webhook_authentic env request ed sig eid w Ha).
  unfold ledger_status in Hst.
  destruct (find (WebhookEvents.by_event_id eid) (webhook_events w))
    as [existing|] eqn:Hfind; [|discriminate].
  cbn [option_map] in Hst. inversion Hst as [Hs].
  unfold try_except, bind, ledger_step, WebhookEvents.first_by_event_id,
    read, bind. cbv beta iota. rewrite Hfind, Hs. reflexivity.
Qed.

(** X2.  A verified delivery without event id (the key is absent or empty) is
    answered 400 and changes nothing. *)
Theorem X2_webhook_missing_event_id (env : Env) (request : Request)
    (ed : EventData.t) (sig : string) (w : World) :
  verified env request ed sig ->
  Py.truthy (EventData.id ed) = false ->
  wompi_webhook env request w = (Ok (TextResponse "Missing event_id" 400), w).
Proof.
  intros (Hm & Hed & Hsig & Hts & Hv) Hid.
  unfold wompi_webhook, ingest.
  rewrite Hm, String.eqb_refl, Hed, Hsig, Hts, Hv. cbn [negb].
  destruct (EventData.id ed) as [eid|]; [|reflexivity].
  rewrite Hid. reflexivity.
Qed.

(* ================================================================== *)
(** * What a payment event may change in a subscription *)
(* ================================================================== *)

Lemma still_ret {A} (a : A) : still (ret a).
Proof. intros w. reflexivity. Qed.

Lemma still_raise {A} (e : exn) : still (@raise A e).
Proof. intros w. reflexivity. Qed.

Lemma still_read {A} (f : World -> A) : still (read f).
Proof. intros w. reflexivity. Qed.

Lemma still_bind {A B} (m : M A) (k : A -> M B) :
  still m -> (forall a, still (k a)) -> still (bind m k).
Proof.
  intros Hm Hk w. unfold bind. specialize (Hm w).
  destruct (m w) as [[a|e] w1]; cbn [snd] in *.
  - rewrite Hk. exact Hm.
  - exact Hm.
Qed.

Lemma still_company_of (s : Subscription.t) : still (company_of s).
Proof.
  unfold company_of. apply still_bind; [apply still_read|].
  intros [c|]; [apply still_ret | apply still_raise].
Qed.

Lemma still_notify (env : Env) (c : Company.t) :
  still (notify_account_reactivation env c).
Proof.
  unfold notify_account_reactivation.
  destruct (Company.chatwoot_account_id c) as [[|p|p]|];
    try apply still_ret;
    (apply still_bind; [intros w; reflexivity|]; intros _;
     destruct (chatwoot_patch env _); apply still_ret).
Qed.

Lemma still_create_paid (env : Env) (s : Subscription.t) (a : option Z)
    (tid ref : option string) :
  still (Invoices.create_paid env s a tid ref).
Proof.
  unfold Invoices.create_paid.
  destruct a as [cents|], tid as [t|], ref as [r|]; try apply still_raise.
  destruct (negb _); [apply still_raise|].
  apply still_bind; [apply still_read|]. intros [i|]; [apply still_raise|].
  apply still_bind; [apply still_read|]. intros rows.
  apply still_bind; [intros w; reflexivity|]. intros _. apply still_ret.
Qed.

Lemma replace_keeps_ids (s : Subscription.t) (rows : list Subscription.t) :
  map Subscription.id (map (Subscriptions.replace s) rows)
  = map Subscription.id rows.
Proof.
  induction rows as [|r rows IH]; [reflexivity|].
  cbn [map]. rewrite IH. f_equal. unfold Subscriptions.replace.
  destruct (Subscription.id r =? Subscription.id s) eqn:E; [|reflexivity].
  apply Z.eqb_eq in E. symmetry. exact E.
Qed.

(** With distinct primary keys a row is determined by its key. *)
Lemma keyed_row (rows : list Subscription.t) (s r : Subscription.t) :
  NoDup (map Subscription.id rows) -> In s rows -> In r rows ->
  Subscription.id r = Subscription.id s -> r = s.
Proof.
  induction rows as [|a rows IH]; [intros _ []|].
  cbn [map]. intros Hnd Hs Hr Hid. inversion Hnd as [|x xs Hnot Hnd']; subst.
  destruct Hs as [Hs|Hs], Hr as [Hr|Hr].
  - congruence.
  - subst a. exfalso. apply Hnot. rewrite <- Hid. apply in_map. exact Hr.
  - subst a. exfalso. apply Hnot. rewrite Hid. apply in_map. exact Hs.
  - apply IH; assumption.
Qed.

Lemma in_replace (s s' : Subscription.t) (rows : list Subscription.t) :
  In s rows -> Subscription.id s' = Subscription.id s ->
  In s' (map (Subscriptions.replace s') rows).
Proof.
  intros Hin Hid. apply in_map_iff. exists s. split; [|exact Hin].
  unfold Subscriptions.replace. rewrite Hid, Z.eqb_refl. reflexivity.
Qed.

Lemma save_run (s : Subscription.t) (w : World) :
  (exists e, Subscriptions.save s w = (Raised e, w))
  \/ Subscriptions.save s w
     = (Ok tt, with_subscriptions
                 (map (Subscriptions.replace s) (subscriptions w)) w).
Proof.
  unfold Subscriptions.save.
  destruct (Subscription.payment_source_id s) as [src|];
    [|left; eexists; reflexivity].
  destruct (_ && _); [right | left; eexists]; reflexivity.
Qed.

Section Evolution.

Variable R : Subscription.t -> Subscription.t -> Prop.
Hypothesis R_refl : forall r, R r r.
Hypothesis R_trans : forall a b c, R a b -> R b c -> R a c.

Lemma evolves_refl (w w' : World) :
  subscriptions w' = subscriptions w -> evolves R w w'.
Proof.
  unfold evolves. intros ->. induction (subscriptions w); constructor; auto.
Qed.

Lemma evolves_trans (w1 w2 w3 : World) :
  evolves R w1 w2 -> evolves R w2 w3 -> evolves R w1 w3.
Proof.
  unfold evolves. generalize (subscriptions w1) (subscriptions w2)
    (subscriptions w3). clear w1 w2 w3.
  intros l1 l2 l3 H12. revert l3.
  induction H12 as [|a b l1 l2 Hab _ IH]; intros l3 H23.
  - inversion H23. constructor.
  - inversion H23 as [|b' c l2' l3' Hbc Hrest]; subst.
    constructor; [eapply R_trans; eassumption | apply IH; exact Hrest].
Qed.

Lemma evolves_replace (rows : list Subscription.t) (s s' : Subscription.t) :
  NoDup (map Subscription.id rows) -> In s rows ->
  Subscription.id s' = Subscription.id s -> R s s' ->
  Forall2 R rows (map (Subscriptions.replace s') rows).
Proof.
  intros Hnd Hin Hid HR.
  assert (H : forall r, In r rows -> R r (Subscriptions.replace s' r)).
  { intros r Hr. unfold Subscriptions.replace.
    destruct (Subscription.id r =? Subscription.id s') eqn:E;
      [|apply R_refl].
    apply Z.eqb_eq in E. rewrite Hid in E.
    rewrite (keyed_row rows s r Hnd Hin Hr E). exact HR. }
  clear Hnd Hin. induction rows as [|a rows IH]; cbn [map]; constructor.
  - apply H. left. reflexivity.
  - apply IH. intros r Hr. apply H. right. exact Hr.
Qed.

Lemma tracked_still (s : Subscription.t) (w w' : World) :
  subscriptions w' = subscriptions w -> tracked s w -> tracked s w'.
Proof. unfold tracked, keyed. intros ->. tauto. Qed.

Lemma changes_still {A} (s : Subscription.t) (m : M A) :
  still m -> changes R s m.
Proof. intros H w _. apply evolves_refl. apply H. Qed.

Lemma tracks_ret (s : Subscription.t) : tracks R s (ret s).
Proof.
  intros w Ht. split; [apply evolves_refl; reflexivity|].
  intros s1 [= <-]. exact Ht.
Qed.

Lemma changes_bind_still {A B} (s : Subscription.t) (m : M A)
    (k : A -> M B) :
  still m -> (forall a, changes R s (k a)) -> changes R s (bind m k).
Proof.
  intros Hm Hk w Ht. unfold bind. specialize (Hm w).
  destruct (m w) as [[a|e] w1]; cbn [snd] in *.
  - eapply evolves_trans; [apply evolves_refl; exact Hm|].
    apply Hk. eapply tracked_still; eassumption.
  - apply evolves_refl. exact Hm.
Qed.

Lemma tracks_bind_still {A} (s : Subscription.t) (m : M A)
    (k : A -> M Subscription.t) :
  still m -> (forall a, tracks R s (k a)) -> tracks R s (bind m k).
Proof.
  intros Hm Hk w Ht. unfold bind. specialize (Hm w).
  destruct (m w) as [[a|e] w1]; cbn [snd] in *.
  - assert (Ht1 : tracked s w1) by (eapply tracked_still; eassumption).
    destruct (Hk a w1 Ht1) as [He Hs]. split; [|exact Hs].
    eapply evolves_trans; [apply evolves_refl; exact Hm | exact He].
  - split; [apply evolves_refl; exact Hm | discriminate].
Qed.

Lemma changes_bind_tracks {B} (s : Subscription.t) (m : M Subscription.t)
    (k : Subscription.t -> M B) :
  tracks R s m -> (forall s1, changes R s1 (k s1)) -> changes R s (bind m k).
Proof.
  intros Hm Hk w Ht. unfold bind. destruct (Hm w Ht) as [He Hs].
  destruct (m w) as [[s1|e] w1]; cbn [fst snd] in *; [|exact He].
  eapply evolves_trans; [exact He|]. apply Hk. apply Hs. reflexivity.
Qed.

Lemma tracks_save (s s' : Subscription.t) (k : M Subscription.t) :
  Subscription.id s' = Subscription.id s -> R s s' ->
  tracks R s' k -> tracks R s (Subscriptions.save s' ;;; k).
Proof.
  intros Hid HR Hk w [Hkey Hin]. unfold bind.
  destruct (save_run s' w) as [[e E]|E]; rewrite E.
  - split; [apply evolves_refl; reflexivity | discriminate].
  - set (w1 := with_subscriptions _ w).
    assert (Ht1 : tracked s' w1).
    { split.
      - unfold keyed, w1. cbn [subscriptions with_subscriptions].
        rewrite replace_keeps_ids. exact Hkey.
      - unfold w1. cbn [subscriptions with_subscriptions].
        eapply in_replace; eassumption. }
    assert (He : evolves R w w1).
    { unfold evolves, w1. cbn [subscriptions with_subscriptions].
      eapply evolves_replace; eassumption. }
    destruct (Hk w1 Ht1) as [He1 Hs1]. split; [|exact Hs1].
    eapply evolves_trans; eassumption.
Qed.

End Evolution.

Lemma status_eqb_eq (a b : Subscription.status_t) :
  Subscription.status_eqb a b = true -> a = b.
Proof. destruct a, b; (reflexivity || discriminate). Qed.

Lemma first_in (p : Subscription.t -> bool) (w : World) (s : Subscription.t) :
  fst (Subscriptions.first p w) = Ok (Some s) -> In s (subscriptions w).
Proof.
  unfold Subscriptions.first, read. cbn [fst]. intros [= H].
  apply find_some in H. apply H.
Qed.

(** Whatever strategy finds a subscription, it is a row of the table. *)
Lemma lookups_in (env : Env) (tx : Transaction.t) (w : World)
    (s : Subscription.t) :
  (fst (by_wompi_subscription_id tx w) = Ok (Some s)
   \/ fst (by_recurring_reference tx w) = Ok (Some s)
   \/ fst (by_payment_source tx w) = Ok (Some s)
   \/ fst (by_customer_email env tx w) = Ok (Some s)
   \/ fst (by_first_payment_reference env tx w) = Ok (Some s)) ->
  In s (subscriptions w).
Proof.
  intros [H|[H|[H|[H|H]]]]; revert H.
  - apply first_in.
  - unfold by_recurring_reference.
    destruct (Transaction.reference tx); [|discriminate].
    destruct (_ && _); [|discriminate].
    destruct (subscription_id_of_reference _); [|discriminate].
    apply first_in.
  - unfold by_payment_source.
    destruct (Py.truthy _); [|discriminate]. apply first_in.
  - unfold by_customer_email.
    destruct (Transaction.customer_email tx); [|discriminate].
    destruct (Py.truthy _); [|discriminate]. apply first_in.
  - unfold by_first_payment_reference.
    destruct (Transaction.reference tx); [|discriminate].
    destruct (Py.truthy _); [|discriminate].
    destruct (_ && _); [|discriminate].
    destruct (Py.item _ 2); [|discriminate].
    destruct (Py.int _); [|discriminate].
    destruct (Py.item _ 3); [|discriminate].
    destruct (Py.int _); [|discriminate].
    unfold bind, read. cbv beta iota.
    destruct (find _ (users w)) as [[uid [c|]]|]; try discriminate.
    apply first_in.
Qed.

Section Settlement.

Variable env : Env.
Variable tx : Transaction.t.
Variable R : Subscription.t -> Subscription.t -> Prop.
Hypothesis R_refl : forall r, R r r.
Hypothesis R_trans : forall a b c, R a b -> R b c -> R a c.
Hypothesis R_activate :
  forall s, Subscription.status s = Subscription.pending ->
            R s (Subscription.set_status Subscription.active s).
Hypothesis R_relink :
  forall s tid, Transaction.id tx = Some tid ->
                R s (Subscription.set_wompi_subscription_id tid s).
Hypothesis R_reactivate :
  reference_has "LYVIO-RETRY-" (Transaction.reference tx) = true ->
  forall s, Subscription.status s = Subscription.suspended ->
            R s (Subscription.set_status Subscription.active s).
Hypothesis R_extend :
  reference_has "LYVIO-REC-" (Transaction.reference tx) = true
  \/ reference_has "LYVIO-RETRY-" (Transaction.reference tx) = true ->
  forall s, R s (extend_period s).

Lemma changes_save (s s' : Subscription.t) :
  Subscription.id s' = Subscription.id s -> R s s' ->
  changes R s (Subscriptions.save s').
Proof.
  intros Hid HR w [Hkey Hin].
  destruct (save_run s' w) as [[e E]|E]; rewrite E; cbn [snd].
  - apply evolves_refl; [exact R_refl | reflexivity].
  - unfold evolves. cbn [subscriptions with_subscriptions].
    eapply evolves_replace; eassumption.
Qed.

Lemma tracks_activate_pending (s : Subscription.t) :
  tracks R s (activate_pending s).
Proof.
  unfold activate_pending.
  destruct (Subscription.status_eqb _ _) eqn:E.
  - apply tracks_save; auto.
    + apply R_activate. apply status_eqb_eq. exact E.
    + apply tracks_ret. exact R_refl.
  - apply tracks_ret. exact R_refl.
Qed.

Lemma changes_extend (s : Subscription.t) :
  reference_has "LYVIO-REC-" (Transaction.reference tx) = true
  \/ reference_has "LYVIO-RETRY-" (Transaction.reference tx) = true ->
  changes R s (Subscriptions.save (extend_period s)).
Proof.
  intros H. apply changes_save; [reflexivity|]. apply R_extend. exact H.
Qed.

Lemma changes_invoice_and_extend (s : Subscription.t) :
  changes R s (invoice_and_extend env tx s).
Proof.
  unfold invoice_and_extend.
  apply changes_bind_still; auto. { apply still_read. }
  intros [i|]. { apply changes_still; auto. apply still_ret. }
  apply changes_bind_still; auto. { apply still_create_paid. }
  intros _. case_marker "LYVIO-REC-" E.
  - apply changes_extend. left. exact E.
  - apply changes_still; auto. apply still_ret.
Qed.

Lemma changes_settle_found (s : Subscription.t) :
  changes R s (settle_found env tx s).
Proof.
  unfold settle_found.
  apply changes_bind_tracks; auto. { apply tracks_activate_pending. }
  intros s1. apply changes_bind_still; auto. { apply still_read. }
  intros [i|]. { apply changes_still; auto. apply still_ret. }
  apply changes_bind_still; auto. { apply still_create_paid. }
  intros _. case_marker "LYVIO-RETRY-" Eretry.
  - apply changes_bind_tracks; auto.
    + destruct (Subscription.status_eqb _ _) eqn:Es.
      * apply tracks_save; auto.
        { apply R_reactivate; [exact Eretry|].
          apply status_eqb_eq. exact Es. }
        apply tracks_bind_still; auto. { apply still_company_of. }
        intros c. apply tracks_bind_still; auto. { apply still_notify. }
        intros _. apply tracks_ret. exact R_refl.
      * apply tracks_ret. exact R_refl.
    + intros s2. apply changes_extend. right. exact Eretry.
  - case_marker "LYVIO-REC-" Erec.
    + apply changes_extend. left. exact Erec.
    + apply changes_still; auto. apply still_ret.
Qed.

Lemma changes_settle_payment_source (s : Subscription.t) :
  changes R s (settle_payment_source env tx s).
Proof.
  unfold settle_payment_source.
  apply changes_bind_tracks; auto. { apply tracks_activate_pending. }
  intros s1. apply changes_invoice_and_extend.
Qed.

Lemma changes_settle_relinked (s : Subscription.t) :
  changes R s (settle_relinked env tx s).
Proof.
  unfold settle_relinked.
  destruct (Transaction.id tx) as [tid|] eqn:Etid.
  2:{ apply changes_still; auto. apply still_raise. }
  set (s1 := Subscription.set_wompi_subscription_id tid s).
  set (s2 := if Subscription.status_eqb (Subscription.status s1)
                  Subscription.pending
             then Subscription.set_status Subscription.active s1 else s1).
  assert (Hid : Subscription.id s2 = Subscription.id s).
  { unfold s2. destruct (Subscription.status_eqb _ _); reflexivity. }
  assert (HR : R s s2).
  { unfold s2. destruct (Subscription.status_eqb _ _) eqn:E.
    - eapply R_trans; [apply R_relink; reflexivity|].
      apply R_activate. apply status_eqb_eq. exact E.
    - apply R_relink. reflexivity. }
  intros w Ht.
  assert (Hk : tracks R s (Subscriptions.save s2 ;;; ret s2)).
  { apply tracks_save; auto. apply tracks_ret. exact R_refl. }
  destruct (Hk w Ht) as [He Hs]. unfold bind in *.
  destruct (Subscriptions.save s2 w) as [[[]|e] w1]; cbn [fst snd] in *;
    [|exact He].
  eapply evolves_trans; eauto.
  apply changes_invoice_and_extend. apply Hs. reflexivity.
Qed.

(** Every change the reconciliation makes to the subscription table goes
    along [R]. *)
Lemma evolves_reconcile_approved (w : World) :
  keyed w -> evolves R w (snd (reconcile_approved env tx w)).
Proof.
  intros Hkey. rewrite reconcile_cascade.
  pose proof (lookups_in env tx w) as Hin.
  assert (Hsame : evolves R w w) by (apply evolves_refl; auto).
  destruct (fst (by_wompi_subscription_id tx w)) as [[s|]|e];
    [apply changes_settle_found; split; auto | | exact Hsame].
  destruct (fst (by_recurring_reference tx w)) as [[s|]|e];
    [apply changes_settle_found; split; auto | | exact Hsame].
  destruct (fst (by_payment_source tx w)) as [[s|]|e];
    [apply changes_settle_payment_source; split; auto | | exact Hsame].
  destruct (fst (by_customer_email env tx w)) as [[s|]|e];
    [apply changes_settle_relinked; split; auto 6 | | exact Hsame].
  destruct (fst (by_first_payment_reference env tx w)) as [[s|]|e];
    [apply changes_settle_relinked; split; auto 6 | exact Hsame
    | exact Hsame].
Qed.

End Settlement.

(* ================================================================== *)
(** * The webhook view outside its ledger *)
(* ================================================================== *)

Lemma same_but_ledger_refl (w : World) : same_but_ledger w w.
Proof. repeat split. Qed.

Lemma same_but_ledger_trans (w1 w2 w3 : World) :
  same_but_ledger w1 w2 -> same_but_ledger w2 w3 -> same_but_ledger w1 w3.
Proof.
  unfold same_but_ledger.
  intros (A1 & A2 & A3 & A4 & A5 & A6 & A7) (B1 & B2 & B3 & B4 & B5 & B6 & B7).
  repeat split; congruence.
Qed.

Lemma ledger_only_ret {A} (a : A) : ledger_only (ret a).
Proof. intros w. apply same_but_ledger_refl. Qed.

Lemma ledger_only_raise {A} (e : exn) : ledger_only (@raise A e).
Proof. intros w. apply same_but_ledger_refl. Qed.

Lemma ledger_only_read {A} (f : World -> A) : ledger_only (read f).
Proof. intros w. apply same_but_ledger_refl. Qed.

Lemma ledger_only_bind {A B} (m : M A) (k : A -> M B) :
  ledger_only m -> (forall a, ledger_only (k a)) -> ledger_only (bind m k).
Proof.
  intros Hm Hk w. unfold bind. specialize (Hm w).
  destruct (m w) as [[a|e] w1]; cbn [snd] in *; [|exact Hm].
  eapply same_but_ledger_trans; [exact Hm | apply Hk].
Qed.

Lemma ledger_only_try_except {A} (m : M A) (handles : exn -> bool)
    (h : exn -> M A) :
  ledger_only m -> (forall e, ledger_only (h e)) ->
  ledger_only (try_except m handles h).
Proof.
  intros Hm Hh w. unfold try_except. specialize (Hm w).
  destruct (m w) as [[a|e] w1]; cbn [snd] in *; [exact Hm|].
  destruct (handles e); [|exact Hm].
  eapply same_but_ledger_trans; [exact Hm | apply Hh].
Qed.

Lemma ledger_only_save (e : WebhookEvent.t) :
  ledger_only (WebhookEvents.save e).
Proof. intros w. repeat split. Qed.

Lemma ledger_only_saved (e : WebhookEvent.t) :
  ledger_only (WebhookEvents.save e ;;; ret e).
Proof.
  apply ledger_only_bind; [apply ledger_only_save|].
  intros _. apply ledger_only_ret.
Qed.

Lemma ledger_only_create (eid ety tid : option string) (payload : EventData.t)
    (sig : string) (st : WebhookEvent.status_t) :
  ledger_only (WebhookEvents.create eid ety tid payload sig st).
Proof.
  unfold WebhookEvents.create.
  destruct eid as [eid|], ety as [ety|], tid as [tid|];
    try apply ledger_only_raise.
  destruct (negb _); [apply ledger_only_raise|].
  apply ledger_only_bind; [apply ledger_only_read|].
  intros [x|]; [apply ledger_only_raise|].
  apply ledger_only_bind; [apply ledger_only_read|]. intros rows.
  apply ledger_only_bind; [intros w; repeat split|].
  intros _. apply ledger_only_ret.
Qed.

Lemma ledger_only_ledger_step (env : Env) (ed : EventData.t)
    (sig eid : string) :
  ledger_only (ledger_step env ed sig eid).
Proof.
  unfold ledger_step.
  apply ledger_only_bind; [apply ledger_only_read|].
  intros [existing|].
  - destruct (WebhookEvent.status existing); try apply ledger_only_ret;
      (apply ledger_only_bind;
       [apply ledger_only_saved | intros ?; apply ledger_only_ret]).
  - apply ledger_only_bind; [apply ledger_only_create|].
    intros ?. apply ledger_only_ret.
Qed.

Lemma ledger_only_ingest (env : Env) (request : Request) (ed : EventData.t) :
  ledger_only (ingest env request ed).
Proof.
  unfold ingest.
  destruct (x_event_checksum request) as [sig|]; [|apply ledger_only_ret].
  destruct (negb (Py.truthy _)); [apply ledger_only_ret|].
  destruct (negb (WompiService.verify_signature _ _ _)).
  - apply ledger_only_bind; [apply ledger_only_create|]. intros e.
    apply ledger_only_bind; [apply ledger_only_saved|].
    intros ?. apply ledger_only_ret.
  - destruct (EventData.id ed) as [eid|]; [|apply ledger_only_ret].
    destruct (negb (Py.truthy _)); [apply ledger_only_ret|].
    apply ledger_only_ledger_step.
Qed.

Lemma ledger_only_on_error (env : Env) (request : Request)
    (we : option WebhookEvent.t) (e : exn) :
  ledger_only (on_error env request we e).
Proof.
  unfold on_error.
  apply ledger_only_bind; [|intros ?; apply ledger_only_ret].
  apply ledger_only_try_except; [|intros ?; apply ledger_only_ret].
  destruct we as [x|]; [|apply ledger_only_raise].
  apply ledger_only_bind; [apply ledger_only_saved|].
  intros ?. apply ledger_only_ret.
Qed.

Lemma ledger_only_readonly {A} (m : M A) : readonly m -> ledger_only m.
Proof.
  intros H w. destruct (H w) as [a Ha]. rewrite Ha.
  apply same_but_ledger_refl.
Qed.

(** Sections 3 to 5 change nothing outside the ledger but what the
    guarded reconciliation changes. *)
Lemma process_effect (env : Env) (request : Request) (ed : EventData.t)
    (we : option WebhookEvent.t) (w : World) :
  same_but_ledger (snd (guarded_reconcile env ed w))
    (snd (process env request ed we w)).
Proof.
  unfold process. fold (guarded_reconcile env ed).
  unfold bind at 1. rewrite guarded_reconcile_total.
  set (w1 := snd (guarded_reconcile env ed w)).
  apply (ledger_only_bind _ _); [|intros ps].
  - destruct (is_approved_update ed); apply ledger_only_readonly;
      [apply readonly_processed_subscription_of | apply readonly_ret].
  - apply ledger_only_bind.
    + destruct (is_approved_update ed); apply ledger_only_readonly;
        [apply readonly_read | apply readonly_ret].
    + intros pi. apply ledger_only_bind; [|intros _; apply ledger_only_ret].
      destruct we as [x|]; [apply ledger_only_saved | apply ledger_only_raise].
Qed.

(** Whatever is delivered, the view changes the world outside its ledger
    through one guarded reconciliation at most. *)
Lemma webhook_effect (env : Env) (request : Request) (w : World) :
  same_but_ledger w (snd (wompi_webhook env request w))
  \/ exists ed w0,
       event_data request = Some ed
       /\ same_but_ledger w w0
       /\ same_but_ledger (snd (guarded_reconcile env ed w0))
            (snd (wompi_webhook env request w)).
Proof.
  remember (snd (wompi_webhook env request w)) as w' eqn:Ew'.
  unfold wompi_webhook in Ew'.
  destruct (String.eqb (method request) "POST");
    [|left; subst w'; apply same_but_ledger_refl].
  destruct (event_data request) as [ed|];
    [|left; subst w'; apply same_but_ledger_refl].
  unfold try_except at 1 in Ew'. unfold bind at 1 in Ew'.
  pose proof (ledger_only_ingest env request ed w) as Hing.
  destruct (ingest env request ed w) as [[[r|we]|e] w0]; cbn [snd] in Hing.
  - left. subst w'. exact Hing.
  - right. exists ed, w0. split; [reflexivity|]. split; [exact Hing|].
    pose proof (process_effect env request ed we w0) as Hp.
    unfold try_except in Ew'.
    destruct (process env request ed we w0) as [[r|e] w1]; cbn [snd] in *.
    + subst w'. exact Hp.
    + cbn [any_exception] in Ew'.
      pose proof (ledger_only_on_error env request we e w1) as He.
      destruct (on_error env request we e w1) as [[r|e'] w2];
        cbn [snd] in *.
      * subst w'. eapply same_but_ledger_trans; eassumption.
      * subst w'. eapply same_but_ledger_trans; [eassumption|].
        eapply same_but_ledger_trans; [exact He|].
        apply (ledger_only_on_error env request None e' w2).
  - left. cbn [any_exception] in Ew'. subst w'.
    eapply same_but_ledger_trans; [exact Hing|].
    apply (ledger_only_on_error env request None e w0).
Qed.

Lemma snd_guarded_reconcile (env : Env) (ed : EventData.t) (w : World) :
  snd (guarded_reconcile env ed w) = w
  \/ snd (guarded_reconcile env ed w)
     = snd (reconcile_approved env (EventData.transaction ed) w).
Proof.
  unfold guarded_reconcile. destruct (is_approved_update ed);
    [right | left; reflexivity].
  unfold try_except.
  destruct (reconcile_approved env (EventData.transaction ed) w)
    as [[[]|e] w1]; reflexivity.
Qed.

(** A property of the subscription table that every reconciliation keeps
    along [R] is kept by the view, whatever is delivered. *)
Lemma webhook_evolves (R : Subscription.t -> Subscription.t -> Prop)
    (env : Env) (request : Request) (w : World) :
  (forall r, R r r) ->
  (forall ed w0, event_data request = Some ed -> keyed w0 ->
     evolves R w0
       (snd (reconcile_approved env (EventData.transaction ed) w0))) ->
  keyed w -> evolves R w (snd (wompi_webhook env request w)).
Proof.
  intros Hrefl Hrec Hkey.
  destruct (webhook_effect env request w) as [H|(ed & w0 & Hed & H0 & H1)].
  - apply evolves_refl; [exact Hrefl | apply H].
  - unfold evolves. destruct H0 as [H0 _], H1 as [H1 _].
    rewrite H1, <- H0.
    assert (Hkey0 : keyed w0) by (unfold keyed; rewrite H0; exact Hkey).
    destruct (snd_guarded_reconcile env ed w0) as [E|E]; rewrite E.
    + apply (evolves_refl R Hrefl w0 w0 eq_refl).
    + apply (Hrec ed w0 Hed Hkey0).
Qed.

Lemma renewed_refl (r : Subscription.t) : renewed r r.
Proof. unfold renewed. repeat split; try lia. left. reflexivity. Qed.

Lemma renewed_trans (a b c : Subscription.t) :
  renewed a b -> renewed b c -> renewed a c.
Proof.
  unfold renewed.
  intros (A1 & A2 & A3 & A4 & A5 & A6 & A7 & A8 & A9)
         (B1 & B2 & B3 & B4 & B5 & B6 & B7 & B8 & B9).
  repeat split; try congruence; try lia.
  destruct A9 as [A9|[A9 A10]], B9 as [B9|[B9 B10]].
  - left. congruence.
  - right. split; [rewrite <- A9; exact B9 | exact B10].
  - right. split; [exact A9 | congruence].
  - right. split; [exact A9 | exact B10].
Qed.

Lemma renewed_extend (s : Subscription.t) : renewed s (extend_period s).
Proof.
  unfold renewed, extend_period. cbn.
  repeat split; try (left; reflexivity).
  destruct (Subscription.billing_cycle s); unfold days; lia.
Qed.

(** X3.  Whatever is delivered, in whatever state, the webhook view changes
    subscription rows in these ways only: the status is kept or goes
    from pending or suspended to active (a cancelled, expired, past-due
    or trial subscription keeps its status), the period end never moves
    back, and company, plan, billing cycle, customer email, payment
    source and creation time are never written; no row is added or
    removed. *)
Theorem X3_webhook_renews_only (env : Env) (request : Request) (w : World) :
  keyed w -> evolves renewed w (snd (wompi_webhook env request w)).
Proof.
  apply webhook_evolves; [exact renewed_refl|].
  intros ed w0 _. apply evolves_reconcile_approved.
  - exact renewed_refl.
  - exact renewed_trans.
  - intros s Hs. unfold renewed. cbn. repeat split; try lia.
    right. split; [left; exact Hs | reflexivity].
  - intros s tid _. unfold renewed. cbn. repeat split; try lia.
    left. reflexivity.
  - intros _ s Hs. unfold renewed. cbn. repeat split; try lia.
    right. split; [right; exact Hs | reflexivity].
  - intros _ s. apply renewed_extend.
Qed.

Lemma same_period_refl (r : Subscription.t) : same_period r r.
Proof. repeat split. Qed.

Lemma same_period_trans (a b c : Subscription.t) :
  same_period a b -> same_period b c -> same_period a c.
Proof.
  unfold same_period. intros (A1 & A2 & A3) (B1 & B2 & B3).
  repeat split; congruence.
Qed.

(** X4.  A payment event whose reference carries neither [LYVIO-REC-] nor
    [LYVIO-RETRY-] (a first payment, a scheduler charge, a change of
    payment method) never moves a billing period, whichever strategy
    matches it. *)
Theorem X4_webhook_unmarked_keeps_periods (env : Env) (request : Request)
    (ed : EventData.t) (w : World) :
  keyed w ->
  event_data request = Some ed ->
  unmarked (EventData.transaction ed) ->
  evolves same_period w (snd (wompi_webhook env request w)).
Proof.
  intros Hkey Hed [Hrec Hretry]. revert Hkey.
  apply webhook_evolves; [exact same_period_refl|].
  intros ed' w0 Hed'. rewrite Hed in Hed'. injection Hed' as <-.
  apply evolves_reconcile_approved.
  - exact same_period_refl.
  - exact same_period_trans.
  - intros s _. repeat split.
  - intros s tid _. repeat split.
  - intros H. rewrite Hretry in H. discriminate.
  - intros [H|H]; [rewrite Hrec in H | rewrite Hretry in H]; discriminate.
Qed.

(* ================================================================== *)
(** * Invoices written by the webhook *)
(* ================================================================== *)

Lemma find_none_not_in (tid : string) (rows : list Invoice.t) :
  find (Invoices.by_transaction_id (Some tid)) rows = None ->
  ~ In tid (map Invoice.wompi_transaction_id rows).
Proof.
  induction rows as [|i rows IH]; cbn [find map]; [intros _ []|].
  unfold Invoices.by_transaction_id at 1.
  destruct (String.eqb (Invoice.wompi_transaction_id i) tid) eqn:E;
    [discriminate|].
  intros H [Hin|Hin].
  - apply String.eqb_neq in E. contradiction.
  - exact (IH H Hin).
Qed.

Lemma create_paid_run (env : Env) (tx : Transaction.t) (s : Subscription.t)
    (w : World) :
  (exists e,
     Invoices.create_paid env s (transaction_amount tx) (Transaction.id tx)
       (Transaction.reference tx) w = (Raised e, w))
  \/ exists inv,
       Invoices.create_paid env s (transaction_amount tx) (Transaction.id tx)
         (Transaction.reference tx) w
       = (Ok inv, with_invoices (inv :: invoices w) w)
       /\ invoice_of env tx w (Subscription.id s) inv.
Proof.
  unfold Invoices.create_paid, transaction_amount.
  destruct (Transaction.amount_in_cents tx) as [cents|] eqn:Ea;
    [|left; eexists; reflexivity].
  destruct (Z.eq_dec cents 0) as [->|Hnz]; [left; eexists; reflexivity|].
  assert (Hc : match cents with 0 => None | _ => Some cents end = Some cents)
    by (destruct cents; congruence).
  rewrite Hc.
  destruct (Transaction.id tx) as [tid|] eqn:Et;
    [|left; eexists; reflexivity].
  destruct (Transaction.reference tx) as [ref|] eqn:Er;
    [|left; eexists; reflexivity].
  destruct (negb _); [left; eexists; reflexivity|].
  unfold bind, Invoices.first_by_transaction_id, read, write, ret.
  destruct (find _ (invoices w)) eqn:Ef; [left; eexists; reflexivity|].
  right. eexists. split; [reflexivity|].
  unfold invoice_of. rewrite Et, Er. cbn.
  do 3 (split; [reflexivity|]).
  split; [exists cents; repeat split; assumption|].
  do 3 (split; [reflexivity|]).
  apply find_none_not_in. exact Ef.
Qed.

(** The invoice step either leaves the world as it is or writes the
    invoice of the transaction and runs its suffix. *)
Lemma invoice_step_run (env : Env) (tx : Transaction.t) (s : Subscription.t)
    (suffix : M unit) (w : World) :
  snd (invoice_step env tx s suffix w) = w
  \/ exists inv,
       invoice_of env tx w (Subscription.id s) inv
       /\ snd (invoice_step env tx s suffix w)
          = snd (suffix (with_invoices (inv :: invoices w) w)).
Proof.
  remember (snd (invoice_step env tx s suffix w)) as w' eqn:Ew'.
  unfold invoice_step, bind, Invoices.first_by_transaction_id, read in Ew'.
  destruct (find _ (invoices w)); [left; exact Ew'|].
  destruct (create_paid_run env tx s w) as [[e E]|(inv & E & Hinv)];
    rewrite E in Ew'; [left; exact Ew'|].
  right. exists inv. split; [exact Hinv | exact Ew'].
Qed.

Lemma activate_pending_id (s s1 : Subscription.t) (w : World) :
  fst (activate_pending s w) = Ok s1 ->
  Subscription.id s1 = Subscription.id s.
Proof.
  unfold activate_pending. destruct (Subscription.status_eqb _ _).
  - unfold bind. destruct (Subscriptions.save _ w) as [[[]|e] w1];
      cbn; [intros [= <-]; reflexivity | discriminate].
  - cbn. intros [= <-]. reflexivity.
Qed.

Lemma same_period_activate (s : Subscription.t) :
  Subscription.status s = Subscription.pending ->
  same_period s (Subscription.set_status Subscription.active s).
Proof. intros _. repeat split. Qed.

(** A prefix that keeps invoices and periods, followed by the invoice
    step with a suffix that writes no invoice. *)
Lemma backed_after_prefix (env : Env) (tx : Transaction.t)
    (s s1 : Subscription.t) (suffix : M unit) (w w1 : World) :
  tracked s w ->
  invoices w1 = invoices w ->
  evolves same_period w w1 ->
  Subscription.id s1 = Subscription.id s ->
  quiet suffix ->
  backed_by_invoice env tx w (snd (invoice_step env tx s1 suffix w1)).
Proof.
  intros [Hkey Hin] Hinv Hev Hid Hq.
  destruct (invoice_step_run env tx s1 suffix w1) as [E|(inv & Hof & E)];
    rewrite E.
  - left. split; assumption.
  - right. exists inv, s. destruct (Hq (with_invoices (inv :: invoices w1) w1))
      as [_ Hq2].
    split; [|split].
    + rewrite Hq2. cbn [invoices with_invoices]. rewrite Hinv. reflexivity.
    + exact Hin.
    + unfold invoice_of in *. rewrite Hinv, Hid in Hof. exact Hof.
Qed.

Lemma quiet_retry_suffix (env : Env) (s : Subscription.t) :
  quiet
    (subscription <-
       (if Subscription.status_eqb (Subscription.status s)
             Subscription.suspended
        then
          Subscriptions.save
            (Subscription.set_status Subscription.active s) ;;;
          company <- company_of
                       (Subscription.set_status Subscription.active s) ;;
          notify_account_reactivation env company ;;;
          ret (Subscription.set_status Subscription.active s)
        else ret s) ;;
     Subscriptions.save (extend_period subscription)).
Proof.
  apply quiet_bind; [|auto with frame].
  destruct (Subscription.status_eqb _ _); [|auto with frame].
  apply quiet_bind; [auto with frame|]. intros _.
  apply quiet_bind; [auto with frame|]. intros c.
  apply quiet_bind; auto with frame.
Qed.

Lemma backed_settle_found (env : Env) (tx : Transaction.t)
    (s : Subscription.t) : backed env tx s (settle_found env tx s).
Proof.
  intros w Ht. unfold settle_found. unfold bind at 1.
  destruct (tracks_activate_pending same_period same_period_refl
              same_period_trans same_period_activate s w Ht) as [Hev _].
  destruct (quiet_activate_pending s w) as [_ Hinv].
  pose proof (fun s1 => activate_pending_id s s1 w) as Hid.
  destruct (activate_pending s w) as [[s1|e] w1]; cbn [fst snd] in *.
  2:{ left. split; assumption. }
  specialize (Hid s1 eq_refl).
  match goal with
  | |- backed_by_invoice _ _ _ (snd (?m w1)) =>
      match m with
      | context [Invoices.create_paid _ _ _ _ _ ;;; ?k] =>
          change m with (invoice_step env tx s1 k);
          apply (backed_after_prefix env tx s s1 k w w1); auto
      end
  end.
  destruct (reference_has "LYVIO-RETRY-" _).
  - apply quiet_retry_suffix.
  - destruct (reference_has _ _); auto with frame.
Qed.

Lemma backed_invoice_and_extend (env : Env) (tx : Transaction.t)
    (s s1 : Subscription.t) (w w1 : World) :
  tracked s w ->
  invoices w1 = invoices w ->
  evolves same_period w w1 ->
  Subscription.id s1 = Subscription.id s ->
  backed_by_invoice env tx w (snd (invoice_and_extend env tx s1 w1)).
Proof.
  intros Ht Hinv Hev Hid.
  change (invoice_and_extend env tx s1)
    with (invoice_step env tx s1
            (if reference_has "LYVIO-REC-" (Transaction.reference tx)
             then Subscriptions.save (extend_period s1) else ret tt)).
  apply (backed_after_prefix env tx s s1 _ w w1); auto.
  destruct (reference_has _ _); auto with frame.
Qed.

Lemma backed_settle_payment_source (env : Env) (tx : Transaction.t)
    (s : Subscription.t) : backed env tx s (settle_payment_source env tx s).
Proof.
  intros w Ht. unfold settle_payment_source. unfold bind at 1.
  destruct (tracks_activate_pending same_period same_period_refl
              same_period_trans same_period_activate s w Ht) as [Hev _].
  destruct (quiet_activate_pending s w) as [_ Hinv].
  pose proof (fun s1 => activate_pending_id s s1 w) as Hid.
  destruct (activate_pending s w) as [[s1|e] w1]; cbn [fst snd] in *.
  2:{ left. split; assumption. }
  apply (backed_invoice_and_extend env tx s s1 w w1); auto.
Qed.

Lemma backed_settle_relinked (env : Env) (tx : Transaction.t)
    (s : Subscription.t) : backed env tx s (settle_relinked env tx s).
Proof.
  intros w Ht. unfold settle_relinked.
  destruct (Transaction.id tx) as [tid|] eqn:Etid.
  2:{ left. split; [reflexivity|].
      apply evolves_refl; [exact same_period_refl | reflexivity]. }
  set (s1 := Subscription.set_wompi_subscription_id tid s).
  set (s2 := if Subscription.status_eqb (Subscription.status s1)
                  Subscription.pending
             then Subscription.set_status Subscription.active s1 else s1).
  assert (Hid : Subscription.id s2 = Subscription.id s).
  { unfold s2. destruct (Subscription.status_eqb _ _); reflexivity. }
  assert (HR : same_period s s2).
  { unfold s2. destruct (Subscription.status_eqb _ _); repeat split. }
  pose proof (changes_save same_period same_period_refl s s2 Hid HR w Ht)
    as Hev.
  destruct (quiet_save s2 w) as [_ Hinv].
  unfold bind at 1.
  destruct (Subscriptions.save s2 w) as [[[]|e] w1]; cbn [fst snd] in *.
  2:{ left. split; assumption. }
  apply (backed_invoice_and_extend env tx s s2 w w1); auto.
Qed.

(** The reconciliation of an approved transaction moves no billing
    period without writing the invoice of the transaction. *)
Lemma backed_reconcile_approved (env : Env) (tx : Transaction.t) (w : World) :
  keyed w ->
  backed_by_invoice env tx w (snd (reconcile_approved env tx w)).
Proof.
  intros Hkey. rewrite reconcile_cascade.
  pose proof (lookups_in env tx w) as Hin.
  assert (Hsame : backed_by_invoice env tx w w).
  { left. split; [reflexivity|].
    apply evolves_refl; [exact same_period_refl | reflexivity]. }
  destruct (fst (by_wompi_subscription_id tx w)) as [[s|]|e];
    [apply backed_settle_found; split; auto | | exact Hsame].
  destruct (fst (by_recurring_reference tx w)) as [[s|]|e];
    [apply backed_settle_found; split; auto | | exact Hsame].
  destruct (fst (by_payment_source tx w)) as [[s|]|e];
    [apply backed_settle_payment_source; split; auto | | exact Hsame].
  destruct (fst (by_customer_email env tx w)) as [[s|]|e];
    [apply backed_settle_relinked; split; auto 6 | | exact Hsame].
  destruct (fst (by_first_payment_reference env tx w)) as [[s|]|e];
    [apply backed_settle_relinked; split; auto 6 | exact Hsame
    | exact Hsame].
Qed.


(* ================================================================== *)
(** * The settlement of an identified subscription *)
(* ================================================================== *)

Lemma replace_self (rows : list Subscription.t) (s : Subscription.t) :
  NoDup (map Subscription.id rows) -> In s rows ->
  map (Subscriptions.replace s) rows = rows.
Proof.
  intros Hnd Hin.
  assert (H : forall r, In r rows -> Subscriptions.replace s r = r).
  { intros r Hr. unfold Subscriptions.replace.
    destruct (Subscription.id r =? Subscription.id s) eqn:E; [|reflexivity].
    apply Z.eqb_eq in E. symmetry. eapply keyed_row; eassumption. }
  clear Hnd Hin. induction rows as [|a rows IH]; [reflexivity|].
  cbn [map]. rewrite (H a (or_introl eq_refl)). f_equal.
  apply IH. intros r Hr. apply H. right. exact Hr.
Qed.

Lemma replace_replace (a b : Subscription.t) (rows : list Subscription.t) :
  Subscription.id b = Subscription.id a ->
  map (Subscriptions.replace b) (map (Subscriptions.replace a) rows)
  = map (Subscriptions.replace b) rows.
Proof.
  intros Hid. rewrite map_map. apply map_ext. intros r.
  unfold Subscriptions.replace. rewrite Hid.
  destruct (Subscription.id r =? Subscription.id a) eqn:E.
  - rewrite Z.eqb_refl. reflexivity.
  - rewrite E. reflexivity.
Qed.













(* ================================================================== *)
(** * Deliveries the ledger has no branch for *)
(* ================================================================== *)

(** Sections 3 to 5 with [webhook_event] unbound: the event is
    reconciled, then marking it raises. *)
Lemma process_unbound (env : Env) (request : Request) (ed : EventData.t)
    (w : World) :
  process env request ed None w
  = (Raised UnboundLocalError, snd (guarded_reconcile env ed w)).
Proof.
  unfold process. fold (guarded_reconcile env ed).
  set (w1 := snd (guarded_reconcile env ed w)).
  assert (Hps : readonly
                  (if is_approved_update ed
                   then processed_subscription_of (EventData.transaction ed)
                   else ret None)).
  { destruct (is_approved_update ed);
      [apply readonly_processed_subscription_of | apply readonly_ret]. }
  assert (Hpi : readonly
                  (if is_approved_update ed
                   then Invoices.first_by_transaction_id
                          (Transaction.id (EventData.transaction ed))
                   else ret None)).
  { destruct (is_approved_update ed);
      [apply readonly_read | apply readonly_ret]. }
  destruct (Hps w1) as [ps Hps1]. destruct (Hpi w1) as [pi Hpi1].
  unfold bind at 1. rewrite guarded_reconcile_total. fold w1.
  unfold bind at 1. rewrite Hps1.
  unfold bind at 1. rewrite Hpi1.
  reflexivity.
Qed.

(** X9.  An authentic delivery for an event whose ledger row is
    [invalid_signature] (a delivery with a bad checksum claimed the event
    id first) or [received]: the payment is reconciled all the same, but
    the view answers 500 and the row stays as it is, so that every
    later delivery of the event meets the same state of the ledger. *)
Theorem X9_webhook_unhandled_row (env : Env) (request : Request)
    (ed : EventData.t) (sig eid : string) (w : World) :
  authentic env request ed sig eid ->
  unhandled w eid ->
  wompi_webhook env request w
  = (Ok (ChecksumResponse (response_checksum env request) 500),
     snd (guarded_reconcile env ed w))
  /\ webhook_events (snd (guarded_reconcile env ed w)) = webhook_events w
  /\ unhandled (snd (guarded_reconcile env ed w)) eid.
Proof.
  intros Ha Hst.
  destruct (billing_guarded_reconcile env ed w) as [Hledger _].
  split; [|split; [exact Hledger|]].
  - rewrite (webhook_authentic env request ed sig eid w Ha).
    unfold unhandled, ledger_status in Hst.
    destruct (find (WebhookEvents.by_event_id eid) (webhook_events w))
      as [existing|] eqn:Hfind; [|destruct Hst; discriminate].
    cbn [option_map] in Hst.
    unfold try_except at 1. unfold bind at 1.
    unfold ledger_step, WebhookEvents.first_by_event_id, read.
    unfold bind at 1. cbv beta iota. rewrite Hfind.
    assert (Hflow : match WebhookEvent.status existing with
                    | WebhookEvent.processed | WebhookEvent.duplicate =>
                        WebhookEvents.mark_as_duplicate env existing ;;;
                        ret (Return (TextResponse "OK - Already processed"
                                       200))
                    | WebhookEvent.processing =>
                        ret (Return (TextResponse "OK - Processing" 200))
                    | WebhookEvent.failed =>
                        webhook_event <-
                          WebhookEvents.mark_as_processing existing ;;
                        ret (Continue (Some webhook_event))
                    | _ => ret (Continue None)
                    end = ret (Continue None)).
    { destruct Hst as [Hst|Hst]; injection Hst as ->; reflexivity. }
    rewrite Hflow. unfold ret at 1. cbv beta iota.
    unfold try_except. rewrite process_unbound. cbn [any_exception].
    apply (on_error_unbound env request UnboundLocalError).
  - unfold unhandled, ledger_status in *. rewrite Hledger. exact Hst.
Qed.

(** X10.  An event that is not an approved transaction update (a declined,
    voided, failed or pending transaction, or another event type)
    changes nothing outside the webhook ledger, whatever its signature;
    its first authentic delivery is answered 200 and recorded as
    processed. *)
Theorem X10_webhook_other_events_change_nothing (env : Env) (request : Request)
    (ed : EventData.t) (w : World) :
  event_data request = Some ed ->
  is_approved_update ed = false ->
  same_but_ledger w (snd (wompi_webhook env request w))
  /\ forall sig eid,
       authentic env request ed sig eid ->
       ledger_status w eid = None ->
       insertable ed sig eid ->
       fst (wompi_webhook env request w)
       = Ok (ChecksumResponse (response_checksum env request) 200)
       /\ ledger_status (snd (wompi_webhook env request w)) eid
          = Some WebhookEvent.processed.
Proof.
  intros Hed Hap. split.
  - destruct (webhook_effect env request w)
      as [H|(ed' & w0 & Hed' & H0 & H1)]; [exact H|].
    rewrite Hed in Hed'. injection Hed' as <-.
    unfold guarded_reconcile in H1. rewrite Hap in H1. cbn [ret snd] in H1.
    eapply same_but_ledger_trans; eassumption.
  - intros sig eid Ha Hnew Hins.
    destruct (webhook_first_processed env request ed sig eid w Ha Hnew Hins)
      as (w' & Hrun & Hled & _).
    rewrite Hrun. split; [reflexivity | exact Hled].
Qed.

(** X11.  A payment event for a transaction that already has an invoice
    (a second event of the gateway for the same transaction, under
    whatever event id) writes no invoice and moves no billing period. *)
Theorem X11_webhook_invoiced_transaction_is_settled (env : Env)
    (request : Request) (ed : EventData.t) (w : World) (i : Invoice.t) :
  keyed w ->
  event_data request = Some ed ->
  In i (invoices w) ->
  Transaction.id (EventData.transaction ed)
  = Some (Invoice.wompi_transaction_id i) ->
  invoices (snd (wompi_webhook env request w)) = invoices w
  /\ evolves same_period w (snd (wompi_webhook env request w)).
Proof.
  intros Hkey Hed Hi Htid.
  destruct (webhook_effect env request w)
    as [H|(ed' & w0 & Hed' & H0 & H1)].
  - destruct H as (S & I & _). split; [exact I|].
    apply evolves_refl; [exact same_period_refl | exact S].
  - rewrite Hed in Hed'. injection Hed' as <-.
    destruct H0 as (S0 & I0 & _), H1 as (S1 & I1 & _).
    assert (Hkey0 : keyed w0) by (unfold keyed; rewrite S0; exact Hkey).
    destruct (snd_guarded_reconcile env ed w0) as [E|E];
      rewrite E in S1, I1.
    + split; [congruence|].
      apply evolves_refl; [exact same_period_refl | congruence].
    + destruct (backed_reconcile_approved env (EventData.transaction ed) w0
                  Hkey0) as [[Hi0 He]|(inv & s & _ & _ & Hof)].
      * split; [congruence|]. unfold evolves in *.
        rewrite S1, <- S0. exact He.
      * exfalso. destruct Hof as (_ & Ht & _ & _ & _ & _ & _ & Hnot).
        rewrite Htid in Ht. injection Ht as Ht. apply Hnot.
        rewrite <- Ht, I0. apply in_map. exact Hi.
Qed.

(* ================================================================== *)
(** * Payment references: what the views build and what the webhook
      reads back *)
(* ================================================================== *)

Lemma numeral_plain (s : string) : numeral s = true -> plain s = true.
Proof.
  induction s as [|c s IH]; [reflexivity|]. cbn [numeral plain].
  destruct (Py.digit_of c); [|discriminate]. intros H. rewrite (IH H).
  reflexivity.
Qed.

Lemma plain_app (a b : string) :
  plain a = true -> plain b = true -> plain (a ++ b) = true.
Proof.
  induction a as [|c a IH]; cbn [plain append]; [auto|].
  intros Ha Hb. apply andb_true_iff in Ha. destruct Ha as [Hc Ha].
  rewrite Hc, (IH Ha Hb). reflexivity.
Qed.

Lemma numeral_string_of_uint (d : Decimal.uint) :
  numeral (NilEmpty.string_of_uint d) = true.
Proof. induction d; cbn; auto. Qed.

(** [str] of a natural number is a non-empty string of digits. *)
Lemma str_numeral (n : Z) :
  0 <= n -> numeral (Py.str n) = true /\ Py.str n <> EmptyString.
Proof.
  intros Hn. unfold Py.str. destruct n as [|p|p]; [split; [reflexivity|discriminate] | | lia].
  cbn [Z.to_int NilZero.string_of_int]. unfold NilZero.string_of_uint.
  pose proof (Unsigned.to_uint_nonnil p) as Hnn.
  destruct (Pos.to_uint p) eqn:E; try contradiction;
    (split; [apply numeral_string_of_uint | discriminate]).
Qed.

Lemma str_plain (n : Z) : plain (Py.str n) = true.
Proof.
  unfold Py.str. destruct n as [|p|p]; [reflexivity | |].
  - apply numeral_plain. apply (str_numeral (Z.pos p)). lia.
  - cbn [Z.to_int NilZero.string_of_int].
    change (plain (String "-" (Py.str (Z.pos p))) = true).
    cbn [plain]. apply numeral_plain. apply (str_numeral (Z.pos p)). lia.
Qed.

(** A needle that starts with a letter does not occur in a plain
    string. *)
Lemma contains_plain (needle hay : string) :
  plain hay = true ->
  Py.contains (String "L" needle) hay = false.
Proof.
  induction hay as [|c hay IH]; [reflexivity|].
  cbn [plain]. intros H. apply andb_true_iff in H. destruct H as [Hc Hh].
  cbn [Py.contains String.prefix].
  destruct (ascii_dec "L" c) as [<-|_]; [discriminate Hc|].
  apply IH. exact Hh.
Qed.

Lemma digits_acc (d : Decimal.uint) (acc : positive) :
  Py.digits (Z.pos acc) true (NilEmpty.string_of_uint d)
  = Some (Z.pos (Pos.of_uint_acc d acc)).
Proof.
  revert acc. induction d; intros acc;
    cbn [NilEmpty.string_of_uint Py.digits Pos.of_uint_acc];
    [reflexivity|..].
  all: match goal with
       | |- context [Py.digit_of ?c] =>
           let v := eval vm_compute in (Py.digit_of c) in
           change (Py.digit_of c) with v
       end; cbv beta iota.
  all: match goal with
       | |- Py.digits ?a true _ = Some (Z.pos (Pos.of_uint_acc _ ?b)) =>
           replace a with (Z.pos b) by lia
       end; apply IHd.
Qed.

Lemma digits_zero (d : Decimal.uint) (prev : bool) :
  d <> Decimal.Nil \/ prev = true ->
  Py.digits 0 prev (NilEmpty.string_of_uint d)
  = Some (Z.of_N (Pos.of_uint d)).
Proof.
  revert prev. induction d; intros prev Hp;
    cbn [NilEmpty.string_of_uint Py.digits Pos.of_uint].
  - destruct Hp as [Hp | ->]; [contradiction | reflexivity].
  - change (Py.digit_of "0") with (Some 0). cbv beta iota.
    change (10 * 0 + 0) with 0. apply IHd. right. reflexivity.
  - change (Py.digit_of "1") with (Some 1). apply (digits_acc d 1).
  - change (Py.digit_of "2") with (Some 2). apply (digits_acc d 2).
  - change (Py.digit_of "3") with (Some 3). apply (digits_acc d 3).
  - change (Py.digit_of "4") with (Some 4). apply (digits_acc d 4).
  - change (Py.digit_of "5") with (Some 5). apply (digits_acc d 5).
  - change (Py.digit_of "6") with (Some 6). apply (digits_acc d 6).
  - change (Py.digit_of "7") with (Some 7). apply (digits_acc d 7).
  - change (Py.digit_of "8") with (Some 8). apply (digits_acc d 8).
  - change (Py.digit_of "9") with (Some 9). apply (digits_acc d 9).
Qed.

Lemma digit_not_space (c : ascii) (d : Z) :
  Py.digit_of c = Some d -> Py.is_space c = false.
Proof.
  unfold Py.digit_of, Py.is_space.
  destruct ((48 <=? N_of_ascii c)%N && (N_of_ascii c <=? 57)%N) eqn:E;
    [|discriminate].
  intros _. apply andb_true_iff in E. destruct E as [E1 E2].
  apply N.leb_le in E1, E2.
  apply orb_false_iff. split; apply andb_false_iff.
  - right. apply N.leb_gt. lia.
  - right. apply N.leb_gt. lia.
Qed.

Lemma rstrip_numeral (s : string) : numeral s = true -> Py.rstrip s = s.
Proof.
  induction s as [|c s IH]; [reflexivity|]. cbn [numeral Py.rstrip].
  destruct (Py.digit_of c) as [d|] eqn:E; [|discriminate].
  intros H. rewrite (IH H). destruct s; [|reflexivity].
  rewrite (digit_not_space c d E). reflexivity.
Qed.

Lemma lstrip_numeral (s : string) : numeral s = true -> Py.lstrip s = s.
Proof.
  destruct s as [|c s]; [reflexivity|]. cbn [numeral Py.lstrip].
  destruct (Py.digit_of c) as [d|] eqn:E; [|discriminate].
  rewrite (digit_not_space c d E). reflexivity.
Qed.

Lemma digit_not_sign (c : ascii) (d : Z) :
  Py.digit_of c = Some d -> c <> "+"%char /\ c <> "-"%char.
Proof. intros H. split; intros ->; discriminate H. Qed.

(** [int(str(n))] is [n] for a natural number. *)
Lemma int_str (n : Z) : 0 <= n -> Py.int (Py.str n) = Some n.
Proof.
  intros Hn. destruct (str_numeral n Hn) as [Hnum Hne].
  unfold Py.int. rewrite (lstrip_numeral _ Hnum), (rstrip_numeral _ Hnum).
  assert (Hd : Py.digits 0 false (Py.str n) = Some n).
  { unfold Py.str. destruct n as [|p|p]; [reflexivity | | lia].
    cbn [Z.to_int NilZero.string_of_int]. unfold NilZero.string_of_uint.
    pose proof (Unsigned.to_uint_nonnil p) as Hnn.
    pose proof (Unsigned.of_to p) as Hof.
    assert (H : Py.digits 0 false (NilEmpty.string_of_uint (Pos.to_uint p))
                = Some (Z.pos p)).
    { rewrite digits_zero by (left; exact Hnn). rewrite Hof. reflexivity. }
    destruct (Pos.to_uint p); try contradiction; exact H. }
  destruct (Py.str n) as [|c s] eqn:E; [contradiction|].
  cbn [numeral] in Hnum.
  destruct (Py.digit_of c) as [d|] eqn:Ec; [|discriminate].
  destruct (digit_not_sign c d Ec) as [Hplus Hminus].
  destruct c as [[] [] [] [] [] [] [] []]; try exact Hd; contradiction.
Qed.

(** [split] cuts a numeral followed by the separator at the separator. *)
Lemma split_numeral (a b : string) :
  numeral a = true ->
  Py.split "-" (a ++ String "-" b) = a :: Py.split "-" b.
Proof.
  induction a as [|c a IH]; [reflexivity|]. cbn [numeral append Py.split].
  destruct (Py.digit_of c) as [d|] eqn:Ec; [|discriminate].
  intros H. rewrite (IH H).
  destruct (Ascii.eqb c "-") eqn:E; [|reflexivity].
  apply Ascii.eqb_eq in E. subst c. discriminate Ec.
Qed.

Lemma split_nonempty (sep : ascii) (s : string) : Py.split sep s <> [].
Proof.
  induction s as [|c s IH]; cbn [Py.split]; [discriminate|].
  destruct (Ascii.eqb c sep); [discriminate|].
  destruct (Py.split sep s); [contradiction | discriminate].
Qed.

Lemma plain_tail (a b : Z) : plain (Py.str a ++ "-" ++ Py.str b) = true.
Proof.
  apply plain_app; [apply str_plain|].
  change (plain (String "-" (Py.str b)) = true). cbn [plain].
  apply str_plain.
Qed.

Lemma prefix_app (needle rest : string) :
  String.prefix needle (needle ++ rest) = true.
Proof.
  induction needle as [|c needle IH]; cbn [append String.prefix].
  - destruct rest; reflexivity.
  - destruct (ascii_dec c c) as [_|H]; [exact IH | contradiction].
Qed.

(** A string contains its own prefix. *)
Lemma contains_here (needle rest : string) :
  Py.contains needle (needle ++ rest) = true.
Proof.
  pose proof (prefix_app needle rest) as H.
  destruct (needle ++ rest); cbn [Py.contains]; rewrite H; reflexivity.
Qed.

Lemma truthy_cons (c : ascii) (s : string) :
  Py.truthy (Some (String c s)) = true.
Proof. reflexivity. Qed.

(** Strategy 2 on a marked reference whose third part is a numeral. *)
Lemma resolve_marked (tx : Transaction.t) (w : World) (id : Z)
    (r a b : string) (tail : list string) :
  0 <= id ->
  Transaction.reference tx = Some r ->
  reference_has "LYVIO-REC-" (Some r)
  || reference_has "LYVIO-RETRY-" (Some r) = true ->
  Py.split "-" r = a :: b :: Py.str id :: tail ->
  fst (by_recurring_reference tx w) = Ok (row_of w id).
Proof.
  intros Hid Href Hmark Hsplit.
  unfold by_recurring_reference. rewrite Href.
  assert (Hc : Py.truthy (Some r)
               && (Py.contains "LYVIO-REC-" r
                   || Py.contains "LYVIO-RETRY-" r) = true).
  { unfold reference_has in Hmark.
    destruct (Py.truthy (Some r)); [exact Hmark | discriminate Hmark]. }
  rewrite Hc. unfold subscription_id_of_reference. rewrite Hsplit.
  cbn [List.length Nat.leb Py.item nth_error].
  rewrite int_str by exact Hid. reflexivity.
Qed.

Lemma split_marked (a b : string) (id t : Z) :
  0 <= id ->
  a :: b :: Py.split "-" (Py.str id ++ String "-" (Py.str t))
  = a :: b :: Py.str id :: Py.split "-" (Py.str t).
Proof.
  intros Hid. rewrite split_numeral by (apply str_numeral; exact Hid).
  reflexivity.
Qed.

(** X12.  The references [retry_payment] and the charge payload of the
    dashboard build for a subscription are read back by the webhook as
    that subscription: strategy 2 looks up the row of that primary key,
    a retry reference carries the retry marker only and a charge
    reference the recurring marker only. *)
Theorem X12_renewal_references_resolve (tx : Transaction.t) (w : World)
    (id t : Z) :
  0 <= id ->
  (Transaction.reference tx = Some (retry_reference id t) ->
   fst (by_recurring_reference tx w) = Ok (row_of w id)
   /\ reference_has "LYVIO-RETRY-" (Transaction.reference tx) = true
   /\ reference_has "LYVIO-REC-" (Transaction.reference tx) = false)
  /\ (Transaction.reference tx = Some (charge_payload_reference id t) ->
      fst (by_recurring_reference tx w) = Ok (row_of w id)
      /\ reference_has "LYVIO-REC-" (Transaction.reference tx) = true
      /\ reference_has "LYVIO-RETRY-" (Transaction.reference tx) = false).
Proof.
  intros Hid.
  assert (Hrec : Py.contains "LYVIO-REC-" (Py.str id ++ "-" ++ Py.str t)
                 = false) by (apply contains_plain; apply plain_tail).
  assert (Hretry : Py.contains "LYVIO-RETRY-" (Py.str id ++ "-" ++ Py.str t)
                   = false) by (apply contains_plain; apply plain_tail).
  split; intros Href.
  - assert (Hm1 : reference_has "LYVIO-RETRY-" (Some (retry_reference id t))
                  = true) by apply (contains_here "LYVIO-RETRY-").
    assert (Hm2 : reference_has "LYVIO-REC-" (Some (retry_reference id t))
                  = false) by exact Hrec.
    rewrite Href. split; [|split; assumption].
    apply (resolve_marked tx w id _ "LYVIO" "RETRY"
             (Py.split "-" (Py.str t)) Hid Href).
    + rewrite Hm1. apply orb_true_r.
    + exact (split_marked "LYVIO" "RETRY" id t Hid).
  - assert (Hm1 : reference_has "LYVIO-REC-"
                    (Some (charge_payload_reference id t)) = true)
      by apply (contains_here "LYVIO-REC-").
    assert (Hm2 : reference_has "LYVIO-RETRY-"
                    (Some (charge_payload_reference id t)) = false)
      by exact Hretry.
    rewrite Href. split; [|split; assumption].
    apply (resolve_marked tx w id _ "LYVIO" "REC"
             (Py.split "-" (Py.str t)) Hid Href).
    + rewrite Hm1. reflexivity.
    + exact (split_marked "LYVIO" "REC" id t Hid).
Qed.

Lemma plain_tail3 (a b c : Z) :
  plain (Py.str a ++ "-" ++ Py.str b ++ "-" ++ Py.str c) = true.
Proof.
  apply plain_app; [apply str_plain|].
  change (plain (String "-" (Py.str b ++ "-" ++ Py.str c)) = true).
  cbn [plain]. apply plain_tail.
Qed.

Lemma built_unmarked_markers (r : string) :
  built_unmarked r ->
  reference_has "LYVIO-REC-" (Some r) = false
  /\ reference_has "LYVIO-RETRY-" (Some r) = false.
Proof.
  intros (id & t & [->|[->|[->|[plan_id ->]]]]);
    split; unfold reference_has; apply andb_false_iff; right.
  - change (Py.contains "LYVIO-REC-" (Py.str id ++ "-" ++ Py.str t) = false).
    apply contains_plain, plain_tail.
  - change (Py.contains "LYVIO-RETRY-" (Py.str id ++ "-" ++ Py.str t)
            = false).
    apply contains_plain, plain_tail.
  - change (Py.contains "LYVIO-REC-" (Py.str id ++ "-" ++ Py.str t) = false).
    apply contains_plain, plain_tail.
  - change (Py.contains "LYVIO-RETRY-" (Py.str id ++ "-" ++ Py.str t)
            = false).
    apply contains_plain, plain_tail.
  - change (Py.contains "LYVIO-REC-" (Py.str id ++ "-" ++ Py.str t) = false).
    apply contains_plain, plain_tail.
  - change (Py.contains "LYVIO-RETRY-" (Py.str id ++ "-" ++ Py.str t)
            = false).
    apply contains_plain, plain_tail.
  - change (Py.contains "LYVIO-REC-"
              (Py.str plan_id ++ "-" ++ Py.str id ++ "-" ++ Py.str t)
            = false).
    apply contains_plain, plain_tail3.
  - change (Py.contains "LYVIO-RETRY-"
              (Py.str plan_id ++ "-" ++ Py.str id ++ "-" ++ Py.str t)
            = false).
    apply contains_plain, plain_tail3.
Qed.

Lemma reconcile_unmarked (env : Env) (tx : Transaction.t) (w : World) :
  unmarked tx -> keyed w ->
  evolves same_period w (snd (reconcile_approved env tx w)).
Proof.
  intros [Hrec Hretry]. apply evolves_reconcile_approved.
  - exact same_period_refl.
  - exact same_period_trans.
  - intros s _. repeat split.
  - intros s tid _. repeat split.
  - intros H. rewrite Hretry in H. discriminate.
  - intros [H|H]; [rewrite Hrec in H | rewrite Hretry in H]; discriminate.
Qed.

(** X13.  The payment event of a scheduler charge, of the renewal of an
    expired subscription, of a change of payment method or of a first
    payment (the references these views build carry no renewal marker,
    whatever the ids and the time) never moves a billing period: the
    period the scheduler has set from the time of the charge is not
    extended again when the gateway confirms the charge. *)
Theorem X13_webhook_of_built_reference_keeps_periods (env : Env)
    (request : Request) (ed : EventData.t) (w : World) (r : string) :
  keyed w ->
  event_data request = Some ed ->
  Transaction.reference (EventData.transaction ed) = Some r ->
  built_unmarked r ->
  unmarked (EventData.transaction ed)
  /\ fst (by_recurring_reference (EventData.transaction ed) w) = Ok None
  /\ evolves same_period w (snd (wompi_webhook env request w)).
Proof.
  intros Hkey Hed Href Hb.
  destruct (built_unmarked_markers r Hb) as [Hrec Hretry].
  assert (Hun : unmarked (EventData.transaction ed)).
  { unfold unmarked. rewrite Href. split; assumption. }
  split; [exact Hun|]. split.
  - unfold by_recurring_reference. rewrite Href.
    unfold reference_has in Hrec, Hretry.
    destruct (Py.truthy (Some r)); [|reflexivity].
    cbn [andb] in *. rewrite Hrec, Hretry. reflexivity.
  - revert Hkey. apply webhook_evolves; [exact same_period_refl|].
    intros ed' w0 Hed'. rewrite Hed in Hed'. injection Hed' as <-.
    apply reconcile_unmarked. exact Hun.
Qed.

Lemma split_first_payment (plan_id user_id t : Z) :
  0 <= plan_id -> 0 <= user_id ->
  Py.split "-" (first_payment_reference plan_id user_id t)
  = "LYVIO" :: "FIRST" :: Py.str plan_id :: Py.str user_id
    :: Py.split "-" (Py.str t).
Proof.
  intros Hp Hu.
  change (Py.split "-" (first_payment_reference plan_id user_id t))
    with ("LYVIO" :: "FIRST"
          :: Py.split "-"
               (Py.str plan_id
                ++ String "-" (Py.str user_id ++ String "-" (Py.str t)))).
  rewrite split_numeral by (apply str_numeral; exact Hp).
  rewrite split_numeral by (apply str_numeral; exact Hu).
  reflexivity.
Qed.

(** X14.  The reference the checkout builds for a first payment is read back
    by the last strategy of the webhook as the plan and the user it was
    built from: the lookup never raises, and yields the most recent
    subscription of that plan that the user's company created in the
    last 24 hours. *)
Theorem X14_first_payment_reference_resolves (env : Env) (tx : Transaction.t)
    (w : World) (plan_id user_id t : Z) :
  0 <= plan_id -> 0 <= user_id ->
  Transaction.reference tx
  = Some (first_payment_reference plan_id user_id t) ->
  fst (by_first_payment_reference env tx w)
  = Ok match find (fun u => User.id u =? user_id) (users w) with
       | Some {| User.company := Some company |} =>
           find (fun s => (Subscription.company s =? company)
                          && (Subscription.plan s =? plan_id)
                          && (now env - hours 24
                              <=? Subscription.created_at s))
             (subscriptions w)
       | _ => None
       end.
Proof.
  intros Hp Hu Href. unfold by_first_payment_reference. rewrite Href.
  change (Py.truthy (Some (first_payment_reference plan_id user_id t)))
    with true. cbv iota.
  rewrite (split_first_payment plan_id user_id t Hp Hu).
  cbn [List.length Nat.leb Py.item nth_error opt_string_eqb andb].
  change (("LYVIO" =? "LYVIO")%string) with true.
  change (("FIRST" =? "FIRST")%string) with true.
  cbn [andb]. rewrite (int_str plan_id Hp), (int_str user_id Hu).
  unfold bind, read. cbv beta iota.
  destruct (find _ (users w)) as [[uid [c|]]|]; reflexivity.
Qed.

(* ================================================================== *)
(** * The ledger row of a processed event *)
(* ================================================================== *)

Lemma processed_references_ledger (ed : EventData.t)
    (l : list WebhookEvent.t) (w : World) :
  processed_references ed (with_webhook_events l w)
  = processed_references ed w.
Proof.
  unfold processed_references. destruct (is_approved_update ed);
    [|reflexivity].
  f_equal. unfold processed_subscription_of, by_wompi_subscription_id,
    Subscriptions.first, bind, read.
  cbn [subscriptions with_webhook_events].
  destruct (find _ (subscriptions w)); [reflexivity|].
  destruct (Transaction.reference (EventData.transaction ed)) as [r|];
    [|reflexivity].
  destruct (_ && _); [|reflexivity].
  destruct (subscription_id_of_reference r); reflexivity.
Qed.

(** Sections 3 to 5 with a bound [webhook_event], with the row they
    write. *)
Lemma process_exact (env : Env) (request : Request) (ed : EventData.t)
    (we : WebhookEvent.t) (w : World) :
  let w1 := snd (guarded_reconcile env ed w) in
  process env request ed (Some we) w
  = (Ok (ChecksumResponse (response_checksum env request) 200),
     with_webhook_events
       (map (WebhookEvents.replace (processed_row env ed we w1))
          (webhook_events w1)) w1).
Proof.
  cbv zeta. unfold process. fold (guarded_reconcile env ed).
  set (w1 := snd (guarded_reconcile env ed w)).
  unfold bind at 1. rewrite guarded_reconcile_total. fold w1.
  unfold processed_row, processed_references.
  destruct (is_approved_update ed).
  - destruct (readonly_processed_subscription_of
                (EventData.transaction ed) w1) as [ps Hps].
    unfold bind at 1. rewrite Hps. cbn [fst snd].
    unfold bind at 1. unfold Invoices.first_by_transaction_id, read.
    unfold bind, WebhookEvents.mark_as_processed, WebhookEvents.save,
      write, ret. cbv beta iota.
    destruct ps as [s|];
      destruct (find _ (invoices w1)) as [i|]; reflexivity.
  - reflexivity.
Qed.

(** X15.  The audit trail of a first authentic delivery: the ledger holds the
    row of the event, processed at the time of the delivery, with the
    payload and the checksum as delivered; for an approved payment it
    refers to the invoice of the transaction, if there is one, and to
    the subscription the creating transaction or a [LYVIO-REC-] or
    [LYVIO-RENEW-] reference names.  The row of a payment with a retry
    reference therefore names no subscription (unless the transaction
    created one), although the payment has been settled. *)
Theorem X15_webhook_audit_row (env : Env) (request : Request)
    (ed : EventData.t) (sig eid : string) (w : World) :
  authentic env request ed sig eid ->
  ledger_status w eid = None ->
  insertable ed sig eid ->
  exists w' row,
    wompi_webhook env request w
    = (Ok (ChecksumResponse (response_checksum env request) 200), w')
    /\ find (WebhookEvents.by_event_id eid) (webhook_events w') = Some row
    /\ WebhookEvent.status row = WebhookEvent.processed
    /\ WebhookEvent.processed_at row = Some (now env)
    /\ WebhookEvent.payload row = ed
    /\ WebhookEvent.signature row = sig
    /\ (WebhookEvent.subscription row, WebhookEvent.invoice row)
       = processed_references ed w'
    /\ (forall id t,
          Transaction.reference (EventData.transaction ed)
          = Some (retry_reference id t) ->
          fst (by_wompi_subscription_id (EventData.transaction ed) w')
          = Ok None ->
          WebhookEvent.subscription row = None).
Proof.
  intros Ha Hnone (ety & tid & He & Ht & Hfits).
  rewrite (webhook_authentic env request ed sig eid w Ha).
  apply ledger_status_none in Hnone.
  destruct (create_fresh w ed sig eid Hnone) as [Hgood _].
  specialize (Hgood ety tid He Ht Hfits).
  assert (Hid : EventData.id ed = Some eid) by apply Ha.
  set (row := fresh_row w ed sig eid ety tid) in *.
  set (w0 := with_webhook_events (row :: webhook_events w) w) in *.
  pose proof (process_exact env request ed row w0) as Hproc.
  cbv zeta in Hproc.
  destruct (billing_guarded_reconcile env ed w0) as [Hledger _].
  set (w1 := snd (guarded_reconcile env ed w0)) in *.
  set (done := processed_row env ed row w1) in *.
  set (w' := with_webhook_events
               (map (WebhookEvents.replace done) (webhook_events w1)) w1).
  assert (Href : (WebhookEvent.subscription done, WebhookEvent.invoice done)
                 = processed_references ed w').
  { unfold w'. rewrite processed_references_ledger.
    unfold done, processed_row.
    destruct (processed_references ed w1) as [[i|] [j|]]; reflexivity. }
  exists w', done. split; [|split; [|split; [|split; [|split; [|split;
    [|split]]]]]]; try reflexivity.
  - unfold try_except at 1. unfold bind at 1.
    unfold ledger_step, WebhookEvents.first_by_event_id, read.
    unfold bind at 1. cbv beta iota. rewrite Hnone.
    unfold bind at 1. rewrite Hid, Hgood. unfold ret at 1. cbv beta iota.
    unfold try_except. rewrite Hproc. reflexivity.
  - unfold w'. cbn [webhook_events with_webhook_events].
    rewrite Hledger. cbn [webhook_events with_webhook_events w0 map find].
    assert (Hrep : WebhookEvents.replace done row = done).
    { unfold WebhookEvents.replace.
      change (WebhookEvent.id done) with (WebhookEvent.id row).
      rewrite Z.eqb_refl. reflexivity. }
    assert (Hkey : WebhookEvents.by_event_id eid done = true).
    { unfold WebhookEvents.by_event_id.
      change (WebhookEvent.event_id done) with eid. apply String.eqb_refl. }
    rewrite Hrep, Hkey. reflexivity.
  - exact Href.
  - intros id t Hr Hw.
    apply (f_equal fst) in Href. cbn [fst] in Href. rewrite Href.
    unfold processed_references.
    destruct (is_approved_update ed); [|reflexivity]. cbn [fst].
    unfold processed_subscription_of, bind.
    pose proof (inert_by_wompi_subscription_id (EventData.transaction ed) w')
      as Hin.
    destruct (by_wompi_subscription_id (EventData.transaction ed) w')
      as [o wx]. cbn [fst snd] in *. subst wx. rewrite Hw, Hr.
    assert (Hc1 : Py.contains "LYVIO-REC-" (retry_reference id t) = false).
    { change (Py.contains "LYVIO-REC-" (Py.str id ++ "-" ++ Py.str t)
              = false).
      apply contains_plain, plain_tail. }
    assert (Hc2 : Py.contains "LYVIO-RENEW-" (retry_reference id t) = false).
    { change (Py.contains "LYVIO-RENEW-" (Py.str id ++ "-" ++ Py.str t)
              = false).
      apply contains_plain, plain_tail. }
    rewrite Hc1, Hc2. rewrite andb_false_r. reflexivity.
Qed.

(* ================================================================== *)
(** * Further properties of the recurring scheduler *)
(* ================================================================== *)

Lemma inert_try_except {A} (m : M A) (handles : exn -> bool)
    (h : exn -> M A) :
  inert m -> (forall e, inert (h e)) -> inert (try_except m handles h).
Proof.
  intros Hm Hh w. unfold try_except. specialize (Hm w).
  destruct (m w) as [[a|e] w1]; cbn [snd] in *; subst w1; [reflexivity|].
  destruct (handles e); [apply Hh | reflexivity].
Qed.

Lemma inert_company_of (s : Subscription.t) : inert (company_of s).
Proof.
  unfold company_of. apply inert_bind; [apply inert_read|].
  intros [c|]; [apply inert_ret | apply inert_raise].
Qed.

Lemma inert_plan_of (s : Subscription.t) : inert (plan_of s).
Proof.
  unfold plan_of. apply inert_bind; [apply inert_read|].
  intros [c|]; [apply inert_ret | apply inert_raise].
Qed.

Lemma charge_one_dry (env : Env) (s : Subscription.t) (p : Plan.t) :
  charge_one env true s p = ret (scheduler_result s p Result.simulated None).
Proof.
  unfold charge_one, scheduler_result, recurring_amount.
  destruct (Subscription.billing_cycle s); reflexivity.
Qed.

Lemma inert_charge_all_dry (env : Env) (l : list Subscription.t) :
  inert (charge_all env true l).
Proof.
  induction l as [|s l IH]; cbn [charge_all]; [apply inert_ret|].
  apply inert_bind; [apply inert_company_of|]. intros _.
  apply inert_bind; [apply inert_plan_of|]. intros p.
  rewrite charge_one_dry.
  apply inert_bind; [apply inert_ret|]. intros r.
  apply inert_bind; [exact IH|]. intros rs. apply inert_ret.
Qed.

Lemma charge_all_dry (env : Env) (l : list Subscription.t) (w : World) :
  (forall j, In j l ->
     (exists c, find (fun c => Company.id c =? Subscription.company j)
                  (companies w) = Some c)
     /\ (exists p, find (fun p => Plan.id p =? Subscription.plan j)
                     (plans w) = Some p)) ->
  exists results,
    charge_all env true l w = (Ok results, w)
    /\ Forall2 (simulated w) l results.
Proof.
  induction l as [|s l IH]; intros Hok.
  - exists []. split; [reflexivity | constructor].
  - destruct (Hok s (or_introl eq_refl)) as ((c & Hc) & (p & Hp)).
    destruct IH as (results & Hrun & Hall).
    { intros j Hj. apply Hok. right. exact Hj. }
    exists (scheduler_result s p Result.simulated None :: results).
    split.
    + cbn [charge_all]. unfold bind at 1. unfold company_of, bind, read.
      cbv beta iota. rewrite Hc. unfold ret. cbv beta iota.
      unfold plan_of, bind, read. cbv beta iota. rewrite Hp.
      unfold ret. cbv beta iota. rewrite charge_one_dry.
      unfold ret. rewrite Hrun. reflexivity.
    + constructor; [|exact Hall]. exists p. split; [exact Hp | reflexivity].
Qed.

(** X16.  A dry run sends no charge and changes nothing, whatever the state of
    the database; on a consistent database it answers with one
    [simulated] result per selected subscription, in the order of the
    selection, carrying the amount that would be charged. *)
Theorem X16_scheduler_dry_run (env : Env) (subscription_ids : list Z)
    (w : World) :
  (forall method,
     snd (process_recurring_payments env method
            (Some (subscription_ids, true)) w) = w)
  /\ (consistent w ->
      exists results,
        fst (process_recurring_payments env "POST"
               (Some (subscription_ids, true)) w)
        = Ok (SchedulerOk (summarize results) results true)
        /\ Forall2 (simulated w) (selected env subscription_ids w) results).
Proof.
  split.
  - intros method. unfold process_recurring_payments.
    destruct (negb (String.eqb method "POST")); [reflexivity|].
    apply inert_try_except; [|intros _; apply inert_ret].
    apply inert_bind.
    + destruct subscription_ids; apply inert_read.
    + intros l. apply inert_bind; [apply inert_charge_all_dry|].
      intros rs. apply inert_ret.
  - intros [_ Hrows].
    destruct (charge_all_dry env (selected env subscription_ids w) w)
      as (results & Hrun & Hall).
    { intros j Hj. destruct (selected_rows env subscription_ids w)
        as [keep Hkeep]. rewrite Hkeep in Hj. apply filter_In in Hj.
      destruct (Hrows j (proj1 Hj)) as (_ & H2 & H3). split; assumption. }
    exists results. split; [|exact Hall].
    unfold process_recurring_payments.
    change (("POST" =? "POST")%string) with true. cbn [negb].
    unfold try_except. unfold bind at 1. rewrite selected_run.
    unfold bind. rewrite Hrun. reflexivity.
Qed.

(** The loop of a live run, in order: one charge and one result per row,
    each result determined by the answer to the charge of its row. *)
Lemma charge_all_in_order (env : Env) (l : list Subscription.t) :
  forall w,
  (forall j, In j l ->
     storable j
     /\ (exists c, find (fun c => Company.id c =? Subscription.company j)
                     (companies w) = Some c)
     /\ (exists p, find (fun p => Plan.id p =? Subscription.plan j)
                     (plans w) = Some p)) ->
  exists results w' cs,
    charge_all env false l w = (Ok results, w')
    /\ Forall2 (charged env w) l results
    /\ charges w' = (rev cs ++ charges w)%list
    /\ Forall2 (sent env w) l cs.
Proof.
  induction l as [|j rest IH]; intros w Hok.
  - exists [], w, []. split; [reflexivity|]. split; [constructor|].
    split; [reflexivity | constructor].
  - destruct (Hok j (or_introl eq_refl)) as (Hsj & (c & Hc) & (pj & Hpj)).
    set (w1 := with_subscriptions
                 (rows_after (snd (charge_outcome env j pj)) (subscriptions w))
                 (with_charges (recurring_charge env j pj :: charges w) w)).
    destruct (IH w1) as (results & w' & cs & Hrun & Hres & Hch & Hsent).
    { intros k Hk. destruct (Hok k (or_intror Hk)) as (H1 & H2 & H3).
      repeat split; assumption. }
    exists (fst (charge_outcome env j pj) :: results), w',
      (recurring_charge env j pj :: cs).
    split; [|split; [|split]].
    + cbn [charge_all]. unfold bind at 1. unfold company_of, bind, read.
      cbv beta iota. rewrite Hc. unfold ret. cbv beta iota.
      unfold plan_of, bind, read. cbv beta iota. rewrite Hpj.
      unfold ret. cbv beta iota.
      rewrite (charge_one_run env j pj w Hsj).
      fold w1. rewrite Hrun. reflexivity.
    + constructor; [exists pj; split; [exact Hpj | reflexivity] | exact Hres].
    + rewrite Hch. cbn [rev charges with_subscriptions with_charges w1].
      rewrite <- app_assoc. reflexivity.
    + constructor; [exists pj; split; [exact Hpj | reflexivity] | exact Hsent].
Qed.

(** X17.  A live run on a consistent database sends exactly one charge per
    selected subscription, in the order of the selection, and answers
    with one result per selected subscription, each determined by the
    gateway's answer to the charge of that subscription alone: a charge
    that fails does not stop the run.  The rows of the subscriptions
    that are not selected are left as they are, and no invoice is
    written. *)
Theorem X17_scheduler_live_run (env : Env) (subscription_ids : list Z)
    (w : World) :
  consistent w ->
  exists results w' cs,
    process_recurring_payments env "POST" (Some (subscription_ids, false)) w
    = (Ok (SchedulerOk (summarize results) results false), w')
    /\ Forall2 (charged env w) (selected env subscription_ids w) results
    /\ charges w' = (rev cs ++ charges w)%list
    /\ Forall2 (sent env w) (selected env subscription_ids w) cs
    /\ (forall i,
          (forall s, In s (selected env subscription_ids w) ->
                     Subscription.id s <> i) ->
          row_of w' i = row_of w i)
    /\ invoices w' = invoices w.
Proof.
  intros [Hnd Hrows].
  destruct (selected_rows env subscription_ids w) as [keep Hkeep].
  assert (Hok : forall j, In j (selected env subscription_ids w) ->
            storable j
            /\ (exists c, find (fun c => Company.id c =? Subscription.company j)
                            (companies w) = Some c)
            /\ (exists p, find (fun p => Plan.id p =? Subscription.plan j)
                            (plans w) = Some p)).
  { intros j Hj. apply Hrows. rewrite Hkeep in Hj.
    apply filter_In in Hj. tauto. }
  destruct (charge_all_in_order env (selected env subscription_ids w) w Hok)
    as (results & w' & cs & Hrun & Hres & Hch & Hsent).
  destruct (charge_all_rows env (selected env subscription_ids w) w)
    as (results' & w'' & Hrun' & Hframe & Hoth & _).
  { rewrite Hkeep. apply selected_ids_distinct. exact Hnd. }
  { exact Hok. }
  rewrite Hrun in Hrun'. injection Hrun' as <- <-.
  exists results, w', cs. split_all; try assumption.
  - unfold process_recurring_payments.
    change (("POST" =? "POST")%string) with true. cbn [negb].
    unfold try_except. unfold bind at 1. rewrite selected_run.
    unfold bind. rewrite Hrun. reflexivity.
  - intros i Hi. unfold row_of. rewrite !find_filter.
    fold (has_id i). rewrite (Hoth i Hi). reflexivity.
  - apply Hframe.
Qed.

(** X18.  A charge of a live run that the gateway does not approve.  When the
    gateway answers with a status other than APPROVED and PENDING, the
    result of the subscription is [failed] and its row becomes
    [past_due] with its period as it was; no later run selects a
    [past_due] row.  When the call to the gateway raises, the result is
    [error] and the row is left as it was. *)
Theorem X18_scheduler_unsuccessful_charge (env : Env) (subscription_ids : list Z)
    (w : World) (s : Subscription.t) (p : Plan.t) :
  consistent w ->
  In s (selected env subscription_ids w) ->
  find (fun p => Plan.id p =? Subscription.plan s) (plans w) = Some p ->
  exists results w',
    process_recurring_payments env "POST" (Some (subscription_ids, false)) w
    = (Ok (SchedulerOk (summarize results) results false), w')
    /\ (forall tid st,
          create_recurring_transaction env (recurring_charge env s p)
          = Ok {| GatewayTx.id := Some tid; GatewayTx.status := Some st |} ->
          st <> "APPROVED" -> st <> "PENDING" ->
          In (scheduler_result s p Result.failed (Some tid)) results
          /\ row_of w' (Subscription.id s)
             = Some (Subscription.set_status Subscription.past_due s)
          /\ forall env' ids',
               In (Subscription.set_status Subscription.past_due s)
                  (selected env' ids' w') -> False)
    /\ (forall e,
          create_recurring_transaction env (recurring_charge env s p)
          = Raised e ->
          In (scheduler_result s p Result.error None) results
          /\ row_of w' (Subscription.id s) = Some s).
Proof.
  intros Hc Hs Hp.
  destruct (scheduler_run env subscription_ids w Hc)
    as (results & w' & Hrun & _ & Hall).
  destruct (Hall s p Hs Hp) as [Hres Hrow].
  exists results, w'. split; [exact Hrun|]. split.
  - intros tid st Hgw Ha Hpend.
    rewrite (charge_outcome_answer env s p tid st Hgw) in Hres, Hrow.
    assert (Hno : in_list (Some st) ["APPROVED"; "PENDING"] = false).
    { destruct (in_list (Some st) ["APPROVED"; "PENDING"]) eqn:E;
        [|reflexivity].
      apply in_list_approved_pending in E. destruct E; contradiction. }
    rewrite Hno in Hres, Hrow. cbn [fst snd] in Hres, Hrow.
    split; [exact Hres|]. split; [exact Hrow|].
    intros env' ids' Hin.
    pose proof (selected_active env' ids' w' _ Hin) as Hact.
    discriminate Hact.
  - intros e Hgw. unfold charge_outcome in Hres, Hrow.
    rewrite Hgw in Hres, Hrow. cbn [fst snd] in Hres, Hrow.
    split; assumption.
Qed.

Lemma yields_ret {A} (P : A -> Prop) (a : A) : P a -> yields P (ret a).
Proof. intros H w a' w' [= <- _]. exact H. Qed.

Lemma yields_raise {A} (P : A -> Prop) (e : exn) : yields P (@raise A e).
Proof. intros w a w' H. discriminate H. Qed.

Lemma yields_bind {A B} (P : B -> Prop) (m : M A) (k : A -> M B) :
  (forall a, yields P (k a)) -> yields P (bind m k).
Proof.
  intros Hk w b w'. unfold bind. destruct (m w) as [[a|e] w1].
  - apply Hk.
  - discriminate.
Qed.

Lemma yields_try_except {A} (P : A -> Prop) (m : M A)
    (handles : exn -> bool) (h : exn -> M A) :
  yields P m -> (forall e, yields P (h e)) -> yields P (try_except m handles h).
Proof.
  intros Hm Hh w a w'. unfold try_except.
  destruct (m w) as [[a1|e] w1] eqn:E.
  - intros [= <- _]. eapply Hm. exact E.
  - destruct (handles e); [apply Hh | discriminate].
Qed.

Lemma counted_charge_one (env : Env) (dry_run : bool) (s : Subscription.t)
    (p : Plan.t) : yields counted (charge_one env dry_run s p).
Proof.
  unfold charge_one.
  destruct (Subscription.billing_cycle s); cbv zeta beta iota.
  all: destruct dry_run; [apply yields_ret; discriminate|].
  all: apply yields_try_except; [|intros _; apply yields_ret; discriminate].
  all: apply yields_bind; intros t; apply yields_bind; intros tid.
  all: apply yields_try_except; [|intros _; apply yields_ret; discriminate].
  all: apply yields_bind; intros st; destruct (in_list _ _).
  all: apply yields_bind; intros _; apply yields_ret; discriminate.
Qed.

Lemma counted_charge_all (env : Env) (dry_run : bool)
    (l : list Subscription.t) :
  yields (Forall counted) (charge_all env dry_run l).
Proof.
  induction l as [|s l IH]; cbn [charge_all].
  - apply yields_ret. constructor.
  - apply yields_bind. intros _. apply yields_bind. intros p.
    intros w rs w'. unfold bind.
    pose proof (counted_charge_one env dry_run s p w) as H1.
    destruct (charge_one env dry_run s p w) as [[r|e] w1]; [|discriminate].
    pose proof (IH w1) as H2.
    destruct (charge_all env dry_run l w1) as [[rs'|e] w2]; [|discriminate].
    intros [= <- _]. constructor.
    + eapply H1. reflexivity.
    + eapply H2. reflexivity.
Qed.

Lemma summarize_adds_up (results : list Result.t) :
  Forall counted results ->
  (Summary.total_processed (summarize results)
   = Summary.successful (summarize results)
     + Summary.failed (summarize results)
     + Summary.simulated (summarize results))%nat.
Proof.
  unfold summarize, count. cbn [Summary.total_processed Summary.successful
                                 Summary.failed Summary.simulated].
  induction 1 as [|r rs Hr _ IH]; [reflexivity|].
  cbn [filter List.length]. unfold counted in Hr.
  destruct (Result.status r); try contradiction; cbn [Result.status_eqb orb];
    cbn [List.length]; lia.
Qed.

(** X19.  Whenever the scheduler answers with a summary, the summary is that
    of the results it lists, and its counters add up: every processed
    subscription is counted once, as successful, failed (declined or in
    error) or simulated. *)
Theorem X19_scheduler_summary_adds_up (env : Env) (method : string)
    (data : option (list Z * bool)) (w : World) (summary : Summary.t)
    (results : list Result.t) (dry_run : bool) :
  fst (process_recurring_payments env method data w)
  = Ok (SchedulerOk summary results dry_run) ->
  summary = summarize results
  /\ Summary.total_processed summary = List.length results
  /\ (Summary.total_processed summary
      = Summary.successful summary + Summary.failed summary
        + Summary.simulated summary)%nat.
Proof.
  unfold process_recurring_payments.
  destruct (negb (String.eqb method "POST")); [discriminate|].
  destruct data as [[ids dry]|]; [|discriminate].
  unfold try_except. unfold bind at 1. rewrite selected_run.
  unfold bind.
  pose proof (counted_charge_all env dry (selected env ids w) w) as Hc.
  destruct (charge_all env dry (selected env ids w) w) as [[rs|e] w1];
    [|discriminate].
  cbn [fst ret]. intros [= <- <- <-].
  split; [reflexivity|]. split; [reflexivity|].
  apply summarize_adds_up. eapply Hc. reflexivity.
Qed.

(* ================================================================== *)
(** * retry_payment *)
(* ================================================================== *)

Lemma reactivate_effect (env : Env) (c : Company.t) (s : Subscription.t)
    (w : World) :
  snd (reactivate env c s w) = w
  \/ reactivated c s w (snd (reactivate env c s w)).
Proof.
  unfold reactivate, bind.
  destruct (save_run (extend_period
                        (Subscription.set_status Subscription.active s)) w)
    as [[e E]|E]; rewrite E; [left; reflexivity|].
  right. unfold reactivated, account_calls, notify_account_reactivation.
  destruct (Company.chatwoot_account_id c) as [[|a|a]|];
    try destruct (chatwoot_patch env _); cbn; repeat split.
Qed.

Lemma reactivate_storable (env : Env) (c : Company.t) (s : Subscription.t)
    (w : World) :
  storable s ->
  reactivate env c s w = (Ok tt, snd (reactivate env c s w))
  /\ reactivated c s w (snd (reactivate env c s w)).
Proof.
  intros Hst. unfold reactivate, bind.
  rewrite save_storable by exact Hst.
  unfold reactivated, account_calls, notify_account_reactivation.
  destruct (Company.chatwoot_account_id c) as [[|a|a]|];
    try destruct (chatwoot_patch env _); cbn; repeat split.
Qed.

Lemma poll_effect (env : Env) (c : Company.t) (s : Subscription.t)
    (tid : string) (remaining : nat) :
  forall attempt w,
    snd (poll env c s tid attempt remaining w) = w
    \/ reactivated c s w (snd (poll env c s tid attempt remaining w)).
Proof.
  induction remaining as [|n IH]; intros attempt w; cbn [poll].
  - left. reflexivity.
  - destruct (get_transaction env tid attempt) as [t|]; [|apply IH].
    destruct (String.eqb (status_of t) "APPROVED");
      [apply reactivate_effect|].
    destruct (_ || _); [left; reflexivity | apply IH].
Qed.

Lemma poll_never_approved (env : Env) (c : Company.t) (s : Subscription.t)
    (tid : string) (remaining : nat) :
  never_approved env ->
  forall attempt w, snd (poll env c s tid attempt remaining w) = w.
Proof.
  intros [_ Hpoll]. induction remaining as [|n IH]; intros attempt w;
    cbn [poll]; [reflexivity|].
  destruct (get_transaction env tid attempt) as [t|] eqn:E; [|apply IH].
  destruct (String.eqb (status_of t) "APPROVED") eqn:Ea.
  - apply String.eqb_eq in Ea. exfalso. exact (Hpoll _ _ _ E Ea).
  - destruct (_ || _); [reflexivity | apply IH].
Qed.

Lemma guarded_then_redirect (X : M unit) (r : HttpResponse) (w : World) :
  try_except (X ;;; ret r) any_exception (fun _ => ret r) w
  = (Ok r, snd (X w)).
Proof.
  unfold try_except, bind. destruct (X w) as [[[]|e] w1]; reflexivity.
Qed.

(** The charge step of [retry_payment] for the subscription [s] on plan
    [p]: it answers with the redirect and leaves the world with the
    charge recorded, and the subscription reactivated or not. *)
Lemma retry_charge_step (env : Env) (c : Company.t) (s : Subscription.t)
    (p : Plan.t) (w : World) :
  let w1 := with_charges (retry_charge env s p :: charges w) w in
  exists w',
    try_except
      (write (fun w => with_charges (retry_charge env s p :: charges w) w) ;;;
       match create_transaction env (retry_charge env s p) with
       | None => ret (HttpResponseRedirect "dashboard:dashboard")
       | Some transaction_result =>
           (if String.eqb (status_of transaction_result) "APPROVED" then
              reactivate env c s
            else if String.eqb (status_of transaction_result) "PENDING" then
              poll env c s (or_default (GatewayTx.id transaction_result) "")
                1 3
            else ret tt) ;;;
           ret (HttpResponseRedirect "dashboard:dashboard")
       end)
      any_exception
      (fun _ => ret (HttpResponseRedirect "dashboard:dashboard")) w
    = (Ok (HttpResponseRedirect "dashboard:dashboard"), w')
    /\ (w' = w1 \/ reactivated c s w1 w')
    /\ (never_approved env -> w' = w1)
    /\ (forall t, create_transaction env (retry_charge env s p) = Some t ->
                  status_of t = "APPROVED" -> storable s ->
                  reactivated c s w1 w').
Proof.
  intros w1.
  destruct (create_transaction env (retry_charge env s p)) as [t|] eqn:Et.
  2:{ exists w1. split; [reflexivity|]. split; [left; reflexivity|].
      split; [reflexivity | discriminate]. }
  set (X := if String.eqb (status_of t) "APPROVED" then reactivate env c s
            else if String.eqb (status_of t) "PENDING" then
              poll env c s (or_default (GatewayTx.id t) "") 1 3
            else ret tt).
  exists (snd (X w1)). split; [|split; [|split]].
  - pose proof (guarded_then_redirect X
                  (HttpResponseRedirect "dashboard:dashboard") w1) as H.
    unfold try_except, bind, write in *. cbv beta iota. fold w1.
    exact H.
  - unfold X. destruct (String.eqb (status_of t) "APPROVED");
      [apply reactivate_effect|].
    destruct (String.eqb (status_of t) "PENDING");
      [apply poll_effect | left; reflexivity].
  - intros Hna. unfold X.
    destruct (String.eqb (status_of t) "APPROVED") eqn:Ea.
    + apply String.eqb_eq in Ea. exfalso. exact (proj1 Hna _ _ Et Ea).
    + destruct (String.eqb (status_of t) "PENDING");
        [apply poll_never_approved; exact Hna | reflexivity].
  - intros t' [= <-] Ha Hst. unfold X. rewrite Ha.
    change (("APPROVED" =? "APPROVED")%string) with true. cbv iota.
    apply reactivate_storable. exact Hst.
Qed.

Lemma retry_payment_run (env : Env) (c : Company.t) (s : Subscription.t)
    (p : Plan.t) (w : World) :
  suspended_of c w = Some s ->
  Py.truthy (Subscription.payment_source_id s) = true ->
  find (fun p => Plan.id p =? Subscription.plan s) (plans w) = Some p ->
  let w1 := with_charges (retry_charge env s p :: charges w) w in
  exists w',
    retry_payment env "POST" (Some c) w
    = (Ok (HttpResponseRedirect "dashboard:dashboard"), w')
    /\ (w' = w1 \/ reactivated c s w1 w')
    /\ (never_approved env -> w' = w1)
    /\ (forall t, create_transaction env (retry_charge env s p) = Some t ->
                  status_of t = "APPROVED" -> storable s ->
                  reactivated c s w1 w').
Proof.
  intros Hs Hsrc Hp w1.
  destruct (retry_charge_step env c s p w) as (w' & Hrun & H).
  exists w'. split; [|exact H].
  unfold retry_payment.
  change (("POST" =? "POST")%string) with true. cbn [negb].
  unfold try_except at 1. unfold bind at 1.
  unfold Subscriptions.first, read. fold (suspended_of c w). rewrite Hs.
  rewrite Hsrc. cbn [negb].
  unfold bind at 1. unfold plan_of, bind at 1, read. rewrite Hp.
  unfold ret at 1. cbv beta iota.
  change (try_except _ any_exception _ w) with
    (try_except
      (write (fun w => with_charges (retry_charge env s p :: charges w) w) ;;;
       match create_transaction env (retry_charge env s p) with
       | None => ret (HttpResponseRedirect "dashboard:dashboard")
       | Some transaction_result =>
           (if String.eqb (status_of transaction_result) "APPROVED" then
              reactivate env c s
            else if String.eqb (status_of transaction_result) "PENDING" then
              poll env c s (or_default (GatewayTx.id transaction_result) "")
                1 3
            else ret tt) ;;;
           ret (HttpResponseRedirect "dashboard:dashboard")
       end)
      any_exception
      (fun _ => ret (HttpResponseRedirect "dashboard:dashboard")) w).
  rewrite Hrun. reflexivity.
Qed.

(** X20.  All [retry_payment] ever does.  It always answers with a redirect.
    It leaves the world as it is unless the request is a POST of a user
    whose company has a suspended subscription with a payment source
    and a stored plan; then it sends one charge, whose reference is the
    retry reference of that subscription, and either changes nothing
    else or reactivates that subscription (active, period extended by
    one cycle from its previous end, one call to the provisioning
    service when the company has an account).  It never writes an
    invoice and never touches another subscription.  It reactivates on
    approval only: when the gateway never reports the charge approved
    (declined, in error, still pending after the three polls, or no
    answer) nothing but the charge is recorded, and when the gateway
    answers the charge with APPROVED and the row is valid the
    subscription is reactivated. *)
Theorem X20_retry_payment_effect (env : Env) (method : string)
    (company : option Company.t) (w : World) :
  exists target w',
    retry_payment env method company w
    = (Ok (HttpResponseRedirect target), w')
    /\ (w' = w
        \/ exists c s p,
             method = "POST"
             /\ company = Some c
             /\ suspended_of c w = Some s
             /\ Py.truthy (Subscription.payment_source_id s) = true
             /\ find (fun p => Plan.id p =? Subscription.plan s) (plans w)
                = Some p
             /\ (w' = with_charges (retry_charge env s p :: charges w) w
                 \/ reactivated c s
                      (with_charges (retry_charge env s p :: charges w) w)
                      w')
             /\ (never_approved env ->
                 w' = with_charges (retry_charge env s p :: charges w) w)
             /\ (forall t,
                   create_transaction env (retry_charge env s p) = Some t ->
                   status_of t = "APPROVED" -> storable s ->
                   reactivated c s
                     (with_charges (retry_charge env s p :: charges w) w)
                     w')).
Proof.
  destruct (String.eqb method "POST") eqn:Em.
  2:{ exists "dashboard:dashboard", w. split; [|left; reflexivity].
      unfold retry_payment. rewrite Em. reflexivity. }
  apply String.eqb_eq in Em. subst method.
  destruct company as [c|].
  2:{ exists "dashboard:login", w. split; [reflexivity | left; reflexivity]. }
  destruct (suspended_of c w) as [s|] eqn:Es.
  2:{ exists "dashboard:dashboard", w. split; [|left; reflexivity].
      unfold retry_payment.
      change (("POST" =? "POST")%string) with true. cbn [negb].
      unfold try_except, bind, Subscriptions.first, read.
      fold (suspended_of c w). rewrite Es. reflexivity. }
  destruct (Py.truthy (Subscription.payment_source_id s)) eqn:Esrc.
  2:{ exists "dashboard:dashboard", w. split; [|left; reflexivity].
      unfold retry_payment.
      change (("POST" =? "POST")%string) with true. cbn [negb].
      unfold try_except, bind, Subscriptions.first, read.
      fold (suspended_of c w). rewrite Es, Esrc. reflexivity. }
  destruct (find (fun p => Plan.id p =? Subscription.plan s) (plans w))
    as [p|] eqn:Ep.
  2:{ exists "dashboard:dashboard", w. split; [|left; reflexivity].
      unfold retry_payment.
      change (("POST" =? "POST")%string) with true. cbn [negb].
      unfold try_except at 1. unfold bind at 1.
      unfold Subscriptions.first, read.
      fold (suspended_of c w). rewrite Es, Esrc. cbn [negb].
      unfold bind at 1. unfold plan_of, bind at 1, read. rewrite Ep.
      reflexivity. }
  destruct (retry_payment_run env c s p w Es Esrc Ep)
    as (w' & Hrun & Heff & Hna & Hap).
  exists "dashboard:dashboard", w'. split; [exact Hrun|].
  right. exists c, s, p. split_all; try reflexivity; assumption.
Qed.

(* ================================================================== *)
(** * The price of a checkout *)
(* ================================================================== *)

Lemma first_applicable_some (env : Env) (campaigns : list Campaign.t)
    (has_sub : bool) (trial : option Trial.t) (amount : Q) (d : Campaign.t) :
  first_applicable env campaigns has_sub trial amount = Some d ->
  exists before after,
    campaigns = (before ++ d :: after)%list
    /\ Campaign.can_apply_to_user env d has_sub trial = true
    /\ below_minimum d amount = false
    /\ Forall (fun x => Campaign.can_apply_to_user env x has_sub trial = false
                        \/ below_minimum x amount = true) before.
Proof.
  induction campaigns as [|x rest IH]; cbn [first_applicable]; [discriminate|].
  destruct (Campaign.can_apply_to_user env x has_sub trial) eqn:Ec.
  - destruct (below_minimum x amount) eqn:Eb.
    + intros H. destruct (IH H) as (b & a & -> & H1 & H2 & H3).
      exists (x :: b), a. split; [reflexivity|]. split; [exact H1|].
      split; [exact H2|]. constructor; [right; exact Eb | exact H3].
    + intros [= <-]. exists [], rest. split; [reflexivity|].
      split; [exact Ec|]. split; [exact Eb | constructor].
  - intros H. destruct (IH H) as (b & a & -> & H1 & H2 & H3).
    exists (x :: b), a. split; [reflexivity|]. split; [exact H1|].
    split; [exact H2|]. constructor; [left; exact Ec | exact H3].
Qed.

Lemma can_apply_eligible (env : Env) (d : Campaign.t) (has_sub : bool)
    (trial : option Trial.t) (amount : Q) :
  Campaign.can_apply_to_user env d has_sub trial = true ->
  below_minimum d amount = false ->
  eligible env d has_sub trial amount.
Proof.
  unfold Campaign.can_apply_to_user, Campaign.is_valid, below_minimum, eligible.
  destruct (Campaign.is_active d); [|discriminate].
  destruct (Campaign.start_date d <=? now env) eqn:E1; [|discriminate].
  destruct (now env <=? Campaign.end_date d) eqn:E2; [|discriminate].
  apply Z.leb_le in E1, E2. cbn [andb negb].
  destruct (match Campaign.max_uses d with
            | Some m => Campaign.current_uses d <? m
            | None => true
            end) eqn:E3; [|discriminate]. cbn [negb].
  destruct (Campaign.apply_to_trial_expired d && _) eqn:E4; [discriminate|].
  destruct (Campaign.apply_to_new_users d && has_sub) eqn:E5; [discriminate|].
  intros _ Hmin. split; [reflexivity|]. split; [lia|].
  split; [|split; [|split]].
  - intros m Hm. rewrite Hm in E3. apply Z.ltb_lt. exact E3.
  - intros Ht. rewrite Ht in E4. cbn [andb] in E4.
    destruct trial as [t|]; [|discriminate]. exists t. split; [reflexivity|].
    exact E4.
  - intros Hn. rewrite Hn in E5. exact E5.
  - intros m Hm Hnz. rewrite Hm in Hmin.
    assert (Ht : decimal_truthy m = true).
    { unfold decimal_truthy. destruct (Qeq_bool m 0) eqn:E; [|reflexivity].
      apply Qeq_bool_iff in E. contradiction. }
    rewrite Ht in Hmin. cbn [andb] in Hmin.
    apply negb_false_iff in Hmin. apply Qle_bool_iff. exact Hmin.
Qed.

Lemma eligible_can_apply (env : Env) (x : Campaign.t) (has_sub : bool)
    (trial : option Trial.t) (amount : Q) :
  eligible env x has_sub trial amount ->
  Campaign.can_apply_to_user env x has_sub trial = true
  /\ below_minimum x amount = false.
Proof.
  intros (H1 & H2 & H3 & H4 & H5 & H6). split.
  - unfold Campaign.can_apply_to_user, Campaign.is_valid. rewrite H1.
    assert (E1 : (Campaign.start_date x <=? now env) = true)
      by (apply Z.leb_le; lia).
    assert (E2 : (now env <=? Campaign.end_date x) = true)
      by (apply Z.leb_le; lia).
    rewrite E1, E2. cbn [andb].
    assert (E3 : match Campaign.max_uses x with
                 | Some m => Campaign.current_uses x <? m
                 | None => true
                 end = true).
    { destruct (Campaign.max_uses x) as [m|]; [|reflexivity].
      apply Z.ltb_lt. apply H3. reflexivity. }
    rewrite E3. cbn [negb].
    destruct (Campaign.apply_to_trial_expired x) eqn:Et.
    + destruct (H4 eq_refl) as (t & -> & Ht). rewrite Ht. cbn [andb].
      destruct (Campaign.apply_to_new_users x) eqn:En;
        [rewrite (H5 eq_refl)|]; reflexivity.
    + cbn [andb].
      destruct (Campaign.apply_to_new_users x) eqn:En;
        [rewrite (H5 eq_refl)|]; reflexivity.
  - unfold below_minimum.
    destruct (Campaign.minimum_plan_price x) as [m|]; [|reflexivity].
    destruct (decimal_truthy m) eqn:Ht; [|reflexivity]. cbn [andb].
    assert (Hnz : ~ (m == 0)%Q).
    { intros Hz. unfold decimal_truthy in Ht.
      apply Qeq_bool_iff in Hz. rewrite Hz in Ht. discriminate. }
    specialize (H6 m eq_refl Hnz). apply Qle_bool_iff in H6.
    rewrite H6. reflexivity.
Qed.

(** X21.  The campaign a checkout applies, if any, is a stored campaign that
    is active, within its dates and below its maximum number of uses
    now, whose conditions on the trial and on the company hold and whose
    minimum price the amount reaches; it is the first such campaign of
    the table, and its discount is computed on the price of the
    cycle. *)
Theorem X21_checkout_discount_is_eligible (env : Env)
    (campaigns : list Campaign.t) (plan : Plan.t)
    (billing_cycle : Subscription.billing_cycle_t) (has_sub : bool)
    (trial : option Trial.t) (d : Campaign.t) :
  let q := quote env campaigns plan billing_cycle has_sub trial in
  Quote.discount q = Some d ->
  In d campaigns
  /\ eligible env d has_sub trial (Quote.original_amount q)
  /\ Quote.discount_amount q
     = DiscountCampaign.calculate_discount (Campaign.terms d)
         (Quote.original_amount q)
  /\ exists before after,
       filter Campaign.is_active campaigns = (before ++ d :: after)%list
       /\ Forall (fun x => ~ eligible env x has_sub trial
                               (Quote.original_amount q)) before.
Proof.
  cbv zeta. unfold quote.
  destruct (match billing_cycle with
            | Subscription.yearly =>
                if decimal_truthy (Plan.price_yearly plan)
                then (Plan.price_yearly plan, Subscription.yearly)
                else (Plan.price_monthly plan, Subscription.monthly)
            | Subscription.monthly =>
                (Plan.price_monthly plan, Subscription.monthly)
            end) as [amount cycle].
  destruct (first_applicable env (filter Campaign.is_active campaigns)
              has_sub trial amount) as [d'|] eqn:E; [|discriminate].
  cbn [Quote.discount Quote.original_amount Quote.discount_amount].
  intros [= ->].
  destruct (first_applicable_some _ _ _ _ _ _ E)
    as (before & after & Hsplit & Hc & Hb & Hall).
  split; [|split; [|split]].
  - assert (Hin : In d (filter Campaign.is_active campaigns)).
    { rewrite Hsplit. apply in_elt. }
    apply filter_In in Hin. apply Hin.
  - apply can_apply_eligible; assumption.
  - reflexivity.
  - exists before, after. split; [exact Hsplit|].
    eapply Forall_impl; [|exact Hall].
    intros x Hx He. apply eligible_can_apply in He. destruct He as [H1 H2].
    destruct Hx as [Hx|Hx]; congruence.
Qed.

Lemma discount_within (d : Campaign.t) (amount : Q) :
  (0 <= amount)%Q -> sane d ->
  (0 <= DiscountCampaign.calculate_discount (Campaign.terms d) amount)%Q
  /\ (DiscountCampaign.calculate_discount (Campaign.terms d) amount
      <= amount)%Q.
Proof.
  intros Ha [Hv Hp]. unfold DiscountCampaign.calculate_discount.
  destruct (DiscountCampaign.discount_type (Campaign.terms d)).
  - specialize (Hp eq_refl).
    set (v := DiscountCampaign.discount_value (Campaign.terms d)) in *.
    assert (H1 : (0 <= v / 100)%Q)
      by (apply Qle_shift_div_l; [reflexivity | lra]).
    assert (H2 : (v / 100 <= 1)%Q)
      by (apply Qle_shift_div_r; [reflexivity | lra]).
    split; nra.
  - unfold DiscountCampaign.py_min.
    destruct (Qle_bool _ amount) eqn:E.
    + apply Qle_bool_iff in E. split; assumption.
    + split; [exact Ha | apply Qle_refl].
Qed.

(** X22.  For a plan whose prices are not negative and campaigns whose values
    make sense (a percentage between 0 and 100, a fixed amount that is
    not negative), the amount a checkout charges is between zero and the
    price of the cycle, and is that price less the discount; a yearly
    checkout of a plan without yearly price is priced, and billed, as a
    monthly one. *)
Theorem X22_checkout_quote_bounds (env : Env) (campaigns : list Campaign.t)
    (plan : Plan.t) (billing_cycle : Subscription.billing_cycle_t)
    (has_sub : bool) (trial : option Trial.t) :
  (0 <= Plan.price_monthly plan)%Q ->
  (0 <= Plan.price_yearly plan)%Q ->
  Forall sane campaigns ->
  let q := quote env campaigns plan billing_cycle has_sub trial in
  (0 <= Quote.final_amount q)%Q
  /\ (Quote.final_amount q <= Quote.original_amount q)%Q
  /\ (Quote.final_amount q
      == Quote.original_amount q - Quote.discount_amount q)%Q
  /\ (Quote.billing_cycle q = Subscription.yearly ->
      billing_cycle = Subscription.yearly
      /\ Quote.original_amount q = Plan.price_yearly plan
      /\ ~ (Plan.price_yearly plan == 0)%Q)
  /\ (Quote.billing_cycle q = Subscription.monthly ->
      Quote.original_amount q = Plan.price_monthly plan).
Proof.
  intros Hm Hy Hsane. cbv zeta. unfold quote.
  assert (Hpair : exists amount cycle,
            match billing_cycle with
            | Subscription.yearly =>
                if decimal_truthy (Plan.price_yearly plan)
                then (Plan.price_yearly plan, Subscription.yearly)
                else (Plan.price_monthly plan, Subscription.monthly)
            | Subscription.monthly =>
                (Plan.price_monthly plan, Subscription.monthly)
            end = (amount, cycle)
            /\ (0 <= amount)%Q
            /\ (cycle = Subscription.yearly ->
                billing_cycle = Subscription.yearly
                /\ amount = Plan.price_yearly plan
                /\ ~ (Plan.price_yearly plan == 0)%Q)
            /\ (cycle = Subscription.monthly ->
                amount = Plan.price_monthly plan)).
  { destruct billing_cycle.
    - eexists. eexists. split; [reflexivity|]. split; [exact Hm|].
      split; [discriminate | reflexivity].
    - destruct (decimal_truthy (Plan.price_yearly plan)) eqn:E.
      + eexists. eexists. split; [reflexivity|]. split; [exact Hy|].
        split; [|discriminate]. intros _. split; [reflexivity|].
        split; [reflexivity|]. intros Hz. unfold decimal_truthy in E.
        apply Qeq_bool_iff in Hz. rewrite Hz in E. discriminate.
      + eexists. eexists. split; [reflexivity|]. split; [exact Hm|].
        split; [discriminate | reflexivity]. }
  destruct Hpair as (amount & cycle & -> & Ha & Hyr & Hmo).
  destruct (first_applicable env (filter Campaign.is_active campaigns)
              has_sub trial amount) as [d|] eqn:E;
    cbn [Quote.final_amount Quote.original_amount Quote.discount_amount
         Quote.billing_cycle].
  - destruct (first_applicable_some _ _ _ _ _ _ E)
      as (before & after & Hsplit & _).
    assert (Hd : sane d).
    { assert (Hin : In d (filter Campaign.is_active campaigns))
        by (rewrite Hsplit; apply in_elt).
      apply filter_In in Hin. rewrite Forall_forall in Hsane.
      apply Hsane. apply Hin. }
    destruct (discount_within d amount Ha Hd) as [H0 H1].
    split_all; try assumption; try lra.
  - split_all; try assumption; try lra.
Qed.

(* ================================================================== *)
(** * Cancellation and reactivation *)
(* ================================================================== *)

Lemma find_replace_subscription (p : Subscription.t -> bool)
    (rows : list Subscription.t) (s s' : Subscription.t) :
  NoDup (map Subscription.id rows) ->
  find p rows = Some s ->
  Subscription.id s' = Subscription.id s ->
  p s' = true ->
  find p (map (Subscriptions.replace s') rows) = Some s'.
Proof.
  intros Hnd Hfind Hid Hp.
  induction rows as [|a rows IH]; [discriminate|].
  cbn [map] in Hnd. inversion Hnd as [|x xs Hnot Hnd']; subst.
  cbn [find map] in *.
  destruct (p a) eqn:Ea.
  - injection Hfind as ->.
    assert (Hrep : Subscriptions.replace s' s = s').
    { unfold Subscriptions.replace. rewrite Hid, Z.eqb_refl. reflexivity. }
    rewrite Hrep, Hp. reflexivity.
  - assert (Hin : In s rows) by (apply find_some in Hfind; apply Hfind).
    assert (Hrep : Subscriptions.replace s' a = a).
    { unfold Subscriptions.replace.
      destruct (Subscription.id a =? Subscription.id s') eqn:E;
        [|reflexivity].
      apply Z.eqb_eq in E. exfalso. apply Hnot. rewrite E, Hid.
      apply in_map. exact Hin. }
    rewrite Hrep, Ea. apply IH; assumption.
Qed.

Lemma store_eta (st : Store) :
  {| db := db st; cancelled_at := cancelled_at st |} = st.
Proof. destruct st. reflexivity. Qed.

Lemma save_with_cancelled_at_run (s : Subscription.t) (v : option Z)
    (st : Store) :
  (exists e, save_with_cancelled_at s v st = (Raised e, st))
  \/ save_with_cancelled_at s v st
     = (Ok tt,
        {| db := with_subscriptions
                   (map (Subscriptions.replace s) (subscriptions (db st)))
                   (db st);
           cancelled_at :=
             set_cancelled_at (Subscription.id s) v (cancelled_at st) |}).
Proof.
  unfold save_with_cancelled_at.
  destruct (save_run s (db st)) as [[e E]|E]; rewrite E.
  - left. exists e. rewrite store_eta. reflexivity.
  - right. reflexivity.
Qed.

(** X23.  [reactivate_subscription] changes the store only for a POST on a
    cancelled subscription whose period has not ended (by calendar day)
    and after the reactivation has been confirmed by N8N; what it then
    changes is the status, to active, and [cancelled_at], to null: the
    billing period, the invoices and every other row are as they
    were. *)
Theorem X23_reactivation_needs_confirmation (env : Env)
    (n8n : Subscription.t -> bool) (method : string)
    (company : option Company.t) (st : Store) :
  snd (reactivate_subscription env n8n method company st) = st
  \/ exists c s,
       company = Some c
       /\ method = "POST"
       /\ subscription_of c (db st) = Some s
       /\ Subscription.status s = Subscription.cancelled
       /\ date_utc (now env) <= date_utc (Subscription.current_period_end s)
       /\ n8n s = true
       /\ reactivate_subscription env n8n method company st
          = (Ok (Redirected "dashboard:dashboard"),
             {| db := with_subscriptions
                        (map (Subscriptions.replace
                                (Subscription.set_status Subscription.active
                                   s))
                           (subscriptions (db st)))
                        (db st);
                cancelled_at :=
                  set_cancelled_at (Subscription.id s) None
                    (cancelled_at st) |}).
Proof.
  unfold reactivate_subscription.
  destruct company as [c|]; [|left; reflexivity].
  destruct (subscription_of c (db st)) as [s|] eqn:Es; [|left; reflexivity].
  destruct (Subscription.status_eqb (Subscription.status s)
              Subscription.cancelled) eqn:Ec; [|left; reflexivity].
  cbn [negb].
  destruct (date_utc (Subscription.current_period_end s)
            <? date_utc (now env)) eqn:Ed; [left; reflexivity|].
  destruct (String.eqb method "POST") eqn:Em; [|left; reflexivity].
  destruct (n8n s) eqn:En; [|left; reflexivity]. cbn [negb].
  destruct (save_with_cancelled_at_run
              (Subscription.set_status Subscription.active s) None st)
    as [[e E]|E]; rewrite E; [left; reflexivity|].
  right. exists c, s. apply String.eqb_eq in Em. apply Z.ltb_ge in Ed.
  apply status_eqb_eq in Ec. split_all; try reflexivity; assumption.
Qed.

(** X24.  A cancellation keeps the billing period (the access runs to the end
    of the paid period) and records its time; a reactivation confirmed
    by N8N before the period ends makes the row active again and clears
    the time of cancellation.  For a subscription that was active the
    two together restore the row exactly; whatever the status was before
    the cancellation, the reactivated row is active. *)
Theorem X24_cancel_then_reactivate (env env' : Env)
    (n8n : Subscription.t -> bool) (c : Company.t) (s : Subscription.t)
    (st : Store) :
  keyed (db st) ->
  subscription_of c (db st) = Some s ->
  storable s ->
  Subscription.status s <> Subscription.cancelled ->
  date_utc (now env') <= date_utc (Subscription.current_period_end s) ->
  n8n (Subscription.set_status Subscription.cancelled s) = true ->
  let st1 := snd (billing_cancel_subscription env "POST" (Some c) st) in
  let st2 := snd (reactivate_subscription env' n8n "POST" (Some c) st1) in
  subscriptions (db st1)
  = map (Subscriptions.replace
           (Subscription.set_status Subscription.cancelled s))
      (subscriptions (db st))
  /\ cancelled_at st1 (Subscription.id s) = Some (now env)
  /\ subscriptions (db st2)
     = map (Subscriptions.replace
              (Subscription.set_status Subscription.active s))
         (subscriptions (db st))
  /\ cancelled_at st2 (Subscription.id s) = None
  /\ (Subscription.status s = Subscription.active ->
      subscriptions (db st2) = subscriptions (db st))
  /\ invoices (db st2) = invoices (db st).
Proof.
  intros Hkey Hs Hst Hnc Hd Hn. cbv zeta.
  set (s1 := Subscription.set_status Subscription.cancelled s) in *.
  assert (Hne : Subscription.status_eqb (Subscription.status s)
                  Subscription.cancelled = false).
  { destruct (Subscription.status s); try reflexivity. contradiction. }
  assert (E1 : billing_cancel_subscription env "POST" (Some c) st
               = (Ok (Redirected "dashboard:dashboard"),
                  {| db := with_subscriptions
                             (map (Subscriptions.replace s1)
                                (subscriptions (db st))) (db st);
                     cancelled_at :=
                       set_cancelled_at (Subscription.id s1) (Some (now env))
                         (cancelled_at st) |})).
  { unfold billing_cancel_subscription. rewrite Hs, Hne.
    change (("POST" =? "POST")%string) with true. cbv iota.
    unfold save_with_cancelled_at. fold s1.
    rewrite (save_storable s1 (db st) Hst). reflexivity. }
  rewrite E1. cbn [snd db cancelled_at subscriptions with_subscriptions].
  set (st1 := {| db := _; cancelled_at := _ |}).
  assert (Hs1 : subscription_of c (db st1) = Some s1).
  { unfold subscription_of, st1. cbn [db subscriptions with_subscriptions].
    apply (find_replace_subscription _ _ s s1 Hkey Hs eq_refl).
    apply find_some in Hs. apply Hs. }
  assert (E2 : reactivate_subscription env' n8n "POST" (Some c) st1
               = (Ok (Redirected "dashboard:dashboard"),
                  {| db := with_subscriptions
                             (map (Subscriptions.replace
                                     (Subscription.set_status
                                        Subscription.active s1))
                                (subscriptions (db st1))) (db st1);
                     cancelled_at :=
                       set_cancelled_at (Subscription.id s1) None
                         (cancelled_at st1) |})).
  { unfold reactivate_subscription. rewrite Hs1.
    change (Subscription.status_eqb (Subscription.status s1)
              Subscription.cancelled) with true. cbn [negb].
    assert (Ed : (date_utc (Subscription.current_period_end s1)
                  <? date_utc (now env')) = false)
      by (apply Z.ltb_ge; exact Hd).
    rewrite Ed. change (("POST" =? "POST")%string) with true. cbv iota.
    rewrite Hn. cbn [negb]. unfold save_with_cancelled_at.
    rewrite (save_storable (Subscription.set_status Subscription.active s1)
               (db st1) Hst).
    reflexivity. }
  rewrite E2.
  cbn [snd db cancelled_at subscriptions invoices with_subscriptions st1].
  assert (Hsubs : map (Subscriptions.replace
                         (Subscription.set_status Subscription.active s1))
                    (map (Subscriptions.replace s1) (subscriptions (db st)))
                  = map (Subscriptions.replace
                           (Subscription.set_status Subscription.active s))
                      (subscriptions (db st))).
  { rewrite replace_replace by reflexivity. reflexivity. }
  split; [reflexivity|]. split.
  { unfold set_cancelled_at. rewrite Z.eqb_refl. reflexivity. }
  split; [exact Hsubs|]. split.
  { unfold set_cancelled_at. cbn. rewrite Z.eqb_refl. reflexivity. }
  split; [|reflexivity].
  intros Hact. rewrite Hsubs.
  assert (Hsame : Subscription.set_status Subscription.active s = s).
  { destruct s. cbn in *. subst. reflexivity. }
  rewrite Hsame. apply replace_self; [exact Hkey|].
  apply find_some in Hs. apply Hs.
Qed.

(* ================================================================== *)
(** * Instances of the further properties *)
(* ================================================================== *)

Lemma keyed_singleton (s : Subscription.t) : keyed (Scenario.world [s]).
Proof.
  unfold keyed. cbn. constructor; [intros [] | constructor].
Qed.

Lemma X1_webhook_in_flight_is_noop_witness :
  wompi_webhook LedgerScenario.fired WebhookScenario.retry_request
    LedgerScenario.in_flight
  = (Ok (TextResponse "OK - Processing" 200), LedgerScenario.in_flight).
Proof.
  apply (X1_webhook_in_flight_is_noop LedgerScenario.fired
           WebhookScenario.retry_request WebhookScenario.retry_event
           LedgerScenario.checksum "evt-1").
  - apply authentic_retry_request.
  - reflexivity.
Defined.

Lemma X2_webhook_missing_event_id_witness :
  wompi_webhook LedgerScenario.fired LedgerScenario.anonymous_request
    WebhookScenario.suspended_world
  = (Ok (TextResponse "Missing event_id" 400),
     WebhookScenario.suspended_world).
Proof.
  apply (X2_webhook_missing_event_id LedgerScenario.fired
           LedgerScenario.anonymous_request LedgerScenario.anonymous_event
           (Scenario.digest ("anonymous-body" ++ "events-secret"))).
  - repeat split.
  - reflexivity.
Defined.

Lemma X3_webhook_renews_only_witness :
  evolves renewed WebhookScenario.suspended_world
    (snd (wompi_webhook LedgerScenario.fired WebhookScenario.retry_request
            WebhookScenario.suspended_world)).
Proof.
  apply (X3_webhook_renews_only LedgerScenario.fired
           WebhookScenario.retry_request WebhookScenario.suspended_world).
  apply keyed_singleton.
Defined.

Lemma X4_webhook_unmarked_keeps_periods_witness :
  evolves same_period LedgerScenario.active_world
    (snd (wompi_webhook LedgerScenario.fired LedgerScenario.scheduler_request
            LedgerScenario.active_world)).
Proof.
  apply (X4_webhook_unmarked_keeps_periods LedgerScenario.fired
           LedgerScenario.scheduler_request LedgerScenario.scheduler_event
           LedgerScenario.active_world).
  - apply keyed_singleton.
  - reflexivity.
  - split; vm_compute; reflexivity.
Defined.







Lemma authentic_claimed_request :
  authentic LedgerScenario.fired WebhookScenario.retry_request
    WebhookScenario.retry_event LedgerScenario.checksum "evt-1".
Proof. repeat split. Qed.

Lemma X9_webhook_unhandled_row_witness :
  fst (wompi_webhook LedgerScenario.fired WebhookScenario.retry_request
         LedgerScenario.claimed)
  = Ok (ChecksumResponse
          (response_checksum LedgerScenario.fired
             WebhookScenario.retry_request) 500)
  /\ unhandled
       (snd (wompi_webhook LedgerScenario.fired WebhookScenario.retry_request
               LedgerScenario.claimed)) "evt-1".
Proof.
  destruct (X9_webhook_unhandled_row LedgerScenario.fired
              WebhookScenario.retry_request WebhookScenario.retry_event
              LedgerScenario.checksum "evt-1" LedgerScenario.claimed)
    as (Hrun & _ & Hst).
  - apply authentic_claimed_request.
  - right. reflexivity.
  - rewrite Hrun. split; [reflexivity | exact Hst].
Defined.

Lemma X10_webhook_other_events_change_nothing_witness :
  same_but_ledger WebhookScenario.suspended_world
    (snd (wompi_webhook LedgerScenario.fired LedgerScenario.declined_request
            WebhookScenario.suspended_world))
  /\ ledger_status
       (snd (wompi_webhook LedgerScenario.fired
               LedgerScenario.declined_request
               WebhookScenario.suspended_world)) "evt-5"
     = Some WebhookEvent.processed.
Proof.
  destruct (X10_webhook_other_events_change_nothing LedgerScenario.fired
              LedgerScenario.declined_request LedgerScenario.declined_event
              WebhookScenario.suspended_world) as [Hsame Hfirst].
  - reflexivity.
  - reflexivity.
  - split; [exact Hsame|].
    apply (Hfirst (Scenario.digest ("declined-body" ++ "events-secret"))
             "evt-5").
    + repeat split.
    + reflexivity.
    + exists "transaction.updated", "tx-100". repeat split.
Defined.

Lemma X11_webhook_invoiced_transaction_is_settled_witness :
  invoices (snd (wompi_webhook LedgerScenario.fired
                   WebhookScenario.retry_request LedgerScenario.invoiced))
  = [LedgerScenario.invoice]
  /\ evolves same_period LedgerScenario.invoiced
       (snd (wompi_webhook LedgerScenario.fired
               WebhookScenario.retry_request LedgerScenario.invoiced)).
Proof.
  apply (X11_webhook_invoiced_transaction_is_settled LedgerScenario.fired
           WebhookScenario.retry_request WebhookScenario.retry_event
           LedgerScenario.invoiced LedgerScenario.invoice).
  - apply (keyed_singleton
             (Scenario.subscription Subscription.suspended Scenario.T
                "src-1")).
  - reflexivity.
  - left. reflexivity.
  - reflexivity.
Defined.

Lemma X12_renewal_references_resolve_witness :
  let tx := EventData.transaction WebhookScenario.retry_event in
  fst (by_recurring_reference tx WebhookScenario.suspended_world)
  = Ok (Some (Scenario.subscription Subscription.suspended Scenario.T
                "src-1"))
  /\ reference_has "LYVIO-RETRY-" (Transaction.reference tx) = true
  /\ reference_has "LYVIO-REC-" (Transaction.reference tx) = false.
Proof.
  cbv zeta.
  destruct (X12_renewal_references_resolve
              (EventData.transaction WebhookScenario.retry_event)
              WebhookScenario.suspended_world 7 1700000100) as [Hretry _].
  - lia.
  - apply Hretry. reflexivity.
Defined.

Lemma X13_webhook_of_built_reference_keeps_periods_witness :
  unmarked (EventData.transaction LedgerScenario.scheduler_event)
  /\ fst (by_recurring_reference
            (EventData.transaction LedgerScenario.scheduler_event)
            LedgerScenario.active_world) = Ok None
  /\ evolves same_period LedgerScenario.active_world
       (snd (wompi_webhook LedgerScenario.fired
               LedgerScenario.scheduler_request
               LedgerScenario.active_world)).
Proof.
  apply (X13_webhook_of_built_reference_keeps_periods LedgerScenario.fired
           LedgerScenario.scheduler_request LedgerScenario.scheduler_event
           LedgerScenario.active_world (recurring_reference 7 1700003600)).
  - apply keyed_singleton.
  - reflexivity.
  - reflexivity.
  - exists 7, 1700003600. left. reflexivity.
Defined.

Lemma X14_first_payment_reference_resolves_witness :
  fst (by_first_payment_reference
         (Scenario.env PrecedenceScenario.webhook_time "APPROVED" 200)
         PrecedenceScenario.first_payment PrecedenceScenario.two_pending)
  = Ok (Some PrecedenceScenario.by_reference_subscription).
Proof.
  rewrite (X14_first_payment_reference_resolves
             (Scenario.env PrecedenceScenario.webhook_time "APPROVED" 200)
             PrecedenceScenario.first_payment PrecedenceScenario.two_pending
             1 3 1699999000).
  - reflexivity.
  - lia.
  - lia.
  - reflexivity.
Defined.

Lemma X16_scheduler_dry_run_witness :
  snd (process_recurring_payments
         (Scenario.env SchedulerScenario.fired_at "APPROVED" 200) "POST"
         (Some ([], true)) SchedulerScenario.due_world)
  = SchedulerScenario.due_world
  /\ exists results,
       fst (process_recurring_payments
              (Scenario.env SchedulerScenario.fired_at "APPROVED" 200) "POST"
              (Some ([], true)) SchedulerScenario.due_world)
       = Ok (SchedulerOk (summarize results) results true)
       /\ Forall2 (simulated SchedulerScenario.due_world)
            [SchedulerScenario.due_subscription] results.
Proof.
  destruct (X16_scheduler_dry_run
              (Scenario.env SchedulerScenario.fired_at "APPROVED" 200) []
              SchedulerScenario.due_world) as [Hsame Hres].
  split; [apply Hsame|].
  apply Hres. apply scenario_consistent. reflexivity.
Defined.

Lemma X17_scheduler_live_run_witness :
  exists results w' cs,
    process_recurring_payments
      (Scenario.env SchedulerScenario.fired_at "APPROVED" 200) "POST"
      (Some ([], false)) SchedulerScenario.due_world
    = (Ok (SchedulerOk (summarize results) results false), w')
    /\ Forall2 (charged (Scenario.env SchedulerScenario.fired_at "APPROVED" 200)
                  SchedulerScenario.due_world)
         [SchedulerScenario.due_subscription] results
    /\ charges w' = rev cs
    /\ Forall2 (sent (Scenario.env SchedulerScenario.fired_at "APPROVED" 200)
                  SchedulerScenario.due_world)
         [SchedulerScenario.due_subscription] cs
    /\ invoices w' = [].
Proof.
  destruct (X17_scheduler_live_run
              (Scenario.env SchedulerScenario.fired_at "APPROVED" 200) []
              SchedulerScenario.due_world)
    as (results & w' & cs & Hrun & Hres & Hch & Hsent & _ & Hinv).
  - apply scenario_consistent. reflexivity.
  - exists results, w', cs. split; [exact Hrun|]. split; [exact Hres|].
    split; [rewrite Hch; apply app_nil_r|]. split; [exact Hsent | exact Hinv].
Defined.

Lemma X18_scheduler_unsuccessful_charge_witness :
  exists results w',
    process_recurring_payments
      (Scenario.env SchedulerScenario.fired_at "DECLINED" 200) "POST"
      (Some ([], false)) SchedulerScenario.due_world
    = (Ok (SchedulerOk (summarize results) results false), w')
    /\ In (scheduler_result SchedulerScenario.due_subscription Scenario.plan
             Result.failed (Some "tx-100")) results
    /\ row_of w' 7
       = Some (Subscription.set_status Subscription.past_due
                 SchedulerScenario.due_subscription).
Proof.
  destruct (X18_scheduler_unsuccessful_charge
              (Scenario.env SchedulerScenario.fired_at "DECLINED" 200) []
              SchedulerScenario.due_world SchedulerScenario.due_subscription
              Scenario.plan)
    as (results & w' & Hrun & Hdeclined & _).
  - apply scenario_consistent. reflexivity.
  - vm_compute. left. reflexivity.
  - reflexivity.
  - destruct (Hdeclined "tx-100" "DECLINED" eq_refl) as (Hres & Hrow & _).
    + discriminate.
    + discriminate.
    + exists results, w'. split; [exact Hrun|]. split; assumption.
Defined.

Lemma X19_scheduler_summary_adds_up_witness :
  let results :=
    [scheduler_result SchedulerScenario.due_subscription Scenario.plan
       Result.simulated None] in
  fst (process_recurring_payments
         (Scenario.env SchedulerScenario.fired_at "APPROVED" 200) "POST"
         (Some ([], true)) SchedulerScenario.due_world)
  = Ok (SchedulerOk (summarize results) results true)
  /\ (Summary.total_processed (summarize results)
      = Summary.successful (summarize results)
        + Summary.failed (summarize results)
        + Summary.simulated (summarize results))%nat.
Proof.
  cbv zeta.
  assert (H : fst (process_recurring_payments
                     (Scenario.env SchedulerScenario.fired_at "APPROVED" 200)
                     "POST" (Some ([], true)) SchedulerScenario.due_world)
              = Ok (SchedulerOk
                      (summarize
                         [scheduler_result SchedulerScenario.due_subscription
                            Scenario.plan Result.simulated None])
                      [scheduler_result SchedulerScenario.due_subscription
                         Scenario.plan Result.simulated None] true))
    by (vm_compute; reflexivity).
  split; [exact H|].
  apply (X19_scheduler_summary_adds_up
           (Scenario.env SchedulerScenario.fired_at "APPROVED" 200) "POST"
           (Some ([], true)) SchedulerScenario.due_world _ _ true H).
Defined.

Lemma X20_retry_payment_effect_witness :
  exists target w',
    retry_payment RetryScenario.declining "POST" (Some Scenario.company)
      WebhookScenario.suspended_world
    = (Ok (HttpResponseRedirect target), w')
    /\ subscriptions w' = subscriptions WebhookScenario.suspended_world
    /\ invoices w' = []
    /\ chatwoot_calls w' = []
    /\ map Charge.reference (charges w')
       = [retry_reference 7 (Scenario.T + 100)].
Proof.
  destruct (X20_retry_payment_effect RetryScenario.declining "POST"
              (Some Scenario.company) WebhookScenario.suspended_world)
    as (target & w' & Hrun & Heff).
  exists target, w'. split; [exact Hrun|].
  assert (Hw : w' = snd (retry_payment RetryScenario.declining "POST"
                           (Some Scenario.company)
                           WebhookScenario.suspended_world))
    by (rewrite Hrun; reflexivity).
  rewrite Hw. vm_compute. repeat split.
Defined.

Lemma X21_checkout_discount_is_eligible_witness :
  let q := quote CheckoutScenario.at_checkout CheckoutScenario.campaigns
             Scenario.plan Subscription.monthly false
             (Some CheckoutScenario.ended_trial) in
  Quote.discount q = Some CheckoutScenario.welcome_back
  /\ eligible CheckoutScenario.at_checkout CheckoutScenario.welcome_back
       false (Some CheckoutScenario.ended_trial) (Quote.original_amount q)
  /\ (Quote.final_amount q == 40000)%Q.
Proof.
  cbv zeta.
  assert (H : Quote.discount
                (quote CheckoutScenario.at_checkout CheckoutScenario.campaigns
                   Scenario.plan Subscription.monthly false
                   (Some CheckoutScenario.ended_trial))
              = Some CheckoutScenario.welcome_back)
    by (vm_compute; reflexivity).
  split; [exact H|].
  destruct (X21_checkout_discount_is_eligible CheckoutScenario.at_checkout
              CheckoutScenario.campaigns Scenario.plan Subscription.monthly
              false (Some CheckoutScenario.ended_trial)
              CheckoutScenario.welcome_back H) as (_ & Hel & _).
  split; [exact Hel|]. vm_compute. reflexivity.
Defined.

Lemma sane_campaigns : Forall sane CheckoutScenario.campaigns.
Proof.
  repeat constructor; try discriminate; intros _; discriminate.
Qed.

Lemma X22_checkout_quote_bounds_witness :
  let q := quote CheckoutScenario.at_checkout CheckoutScenario.campaigns
             Scenario.plan Subscription.yearly false
             (Some CheckoutScenario.ended_trial) in
  (0 <= Quote.final_amount q)%Q
  /\ (Quote.final_amount q <= Quote.original_amount q)%Q.
Proof.
  cbv zeta.
  destruct (X22_checkout_quote_bounds CheckoutScenario.at_checkout
              CheckoutScenario.campaigns Scenario.plan Subscription.yearly
              false (Some CheckoutScenario.ended_trial))
    as (H0 & H1 & _).
  - discriminate.
  - discriminate.
  - exact sane_campaigns.
  - split; assumption.
Defined.

Lemma X23_reactivation_needs_confirmation_witness :
  snd (reactivate_subscription CancellationScenario.at_reactivation
         (fun _ => false) "POST" (Some Scenario.company)
         (snd (billing_cancel_subscription
                 CancellationScenario.at_cancellation "POST"
                 (Some Scenario.company) CancellationScenario.store)))
  = snd (billing_cancel_subscription CancellationScenario.at_cancellation
           "POST" (Some Scenario.company) CancellationScenario.store).
Proof.
  destruct (X23_reactivation_needs_confirmation
              CancellationScenario.at_reactivation (fun _ => false) "POST"
              (Some Scenario.company)
              (snd (billing_cancel_subscription
                      CancellationScenario.at_cancellation "POST"
                      (Some Scenario.company) CancellationScenario.store)))
    as [H|(c & s & _ & _ & _ & _ & _ & Hn & _)].
  - exact H.
  - discriminate Hn.
Defined.

Lemma X24_cancel_then_reactivate_witness :
  let st1 := snd (billing_cancel_subscription
                    CancellationScenario.at_cancellation "POST"
                    (Some Scenario.company) CancellationScenario.store) in
  let st2 := snd (reactivate_subscription
                    CancellationScenario.at_reactivation
                    CancellationScenario.confirmed "POST"
                    (Some Scenario.company) st1) in
  subscriptions (db st1)
  = [Subscription.set_status Subscription.cancelled
       LedgerScenario.active_subscription]
  /\ cancelled_at st1 7 = Some (Scenario.T - days 10)
  /\ subscriptions (db st2) = [LedgerScenario.active_subscription]
  /\ cancelled_at st2 7 = None.
Proof.
  cbv zeta.
  destruct (X24_cancel_then_reactivate CancellationScenario.at_cancellation
              CancellationScenario.at_reactivation
              CancellationScenario.confirmed Scenario.company
              LedgerScenario.active_subscription CancellationScenario.store)
    as (H1 & H2 & _ & H4 & H5 & _).
  - apply (keyed_singleton LedgerScenario.active_subscription).
  - reflexivity.
  - exists "src-1". repeat split.
  - discriminate.
  - vm_compute. discriminate.
  - reflexivity.
  - split; [rewrite H1; reflexivity|]. split; [exact H2|].
    split; [apply H5; reflexivity | exact H4].
Defined.

Lemma X15_webhook_audit_row_witness :
  exists w' row,
    wompi_webhook LedgerScenario.fired WebhookScenario.retry_request
      WebhookScenario.suspended_world
    = (Ok (ChecksumResponse
             (response_checksum LedgerScenario.fired
                WebhookScenario.retry_request) 200), w')
    /\ find (WebhookEvents.by_event_id "evt-1") (webhook_events w') = Some row
    /\ WebhookEvent.status row = WebhookEvent.processed
    /\ WebhookEvent.subscription row = None
    /\ WebhookEvent.invoice row = Some 1.
Proof.
  destruct (X15_webhook_audit_row LedgerScenario.fired
              WebhookScenario.retry_request WebhookScenario.retry_event
              LedgerScenario.checksum "evt-1"
              WebhookScenario.suspended_world)
    as (w' & row & Hrun & Hfind & Hst & _ & _ & _ & Href & _).
  - apply authentic_claimed_request.
  - reflexivity.
  - exists "transaction.updated", "tx-100". repeat split.
  - exists w', row. split; [exact Hrun|]. split; [exact Hfind|].
    split; [exact Hst|].
    assert (Hw : w' = snd (wompi_webhook LedgerScenario.fired
                             WebhookScenario.retry_request
                             WebhookScenario.suspended_world))
      by (rewrite Hrun; reflexivity).
    rewrite Hw in Href. vm_compute in Href.
    injection Href as Hs Hi. split; assumption.
Defined.
